(** * Game launcher (launcher.c, tray_menu.c, compat.h)

    A shallow embedding of the launcher's core: the sequence engine
    ([execute_sequence], [execute_action]), the tracked-process registry,
    the process-tree controller ([terminate_process_tree]), the instance
    lock ([check_instances]) and the cleanup guard ([ensure_cleanup]),
    together with the tray-menu commands that reach them.

    The program's global variables and the part of Windows it talks to are
    gathered in one explicit state, [World]; every C function of type
    [void f(...)] becomes a state transformer.  [terminate_process_tree] is
    recursive over whatever parent links the process snapshot shows, so the
    functions that reach it take a recursion budget and return a [result]:
    [OutOfFuel] means the budget ran out (the C code would still be
    recursing), [Fault] a write outside an array. *)

From Stdlib Require Import Strings.String Strings.Ascii Lists.List.
From Stdlib Require Import NArith.NArith Bool.Bool Arith.Arith Lia.
From Stdlib Require Import Numbers.DecimalString.
Import ListNotations.
Local Open Scope string_scope.

(** ** Machine types *)

(** [DWORD], [HANDLE] and [HWND] are unsigned machine words; no arithmetic
    is performed on them, [0] is [NULL]. *)
Definition DWORD := N.
Definition HANDLE := N.
Definition HWND := N.

Definition NULL : N := 0%N.
Definition STILL_ACTIVE : DWORD := 259%N.

Definition MAX_PATH_LEN : nat := 1024.
Definition MAX_SEQUENCE_LEN : nat := 2048.
Definition MAX_NAME_LEN : nat := 256.
Definition MAX_CMD_LEN : nat := 4096.

(** ** C strings

    A C string is modelled by its characters up to the terminating NUL. *)

Definition dquote : string := String "034"%char EmptyString.
Definition backslash : ascii := "092"%char.
Definition slash : ascii := "047"%char.
Definition comma : ascii := "044"%char.

(** [strlen(s) == 0] *)
Definition str_empty (s : string) : bool :=
  match s with EmptyString => true | String _ _ => false end.

(** [strncpy(dst, src, n); dst[n] = 0]: the first [n] characters. *)
Definition strncpy (src : string) (n : nat) : string := substring 0 n src.

(** [snprintf(buf, size, ...)] keeps at most [size - 1] characters of the
    formatted text. *)
Definition snprintf (size : nat) (formatted : string) : string :=
  substring 0 (size - 1) formatted.

(** [strncat(dst, src, size - strlen(dst) - 1)] *)
Definition strncat (size : nat) (dst src : string) : string :=
  dst ++ substring 0 (size - String.length dst - 1) src.

(** [strrchr(s, c)]: the suffix that starts at the last [c], if any. *)
Fixpoint strrchr (s : string) (c : ascii) : option string :=
  match s with
  | EmptyString => None
  | String a s' =>
      match strrchr s' c with
      | Some r => Some r
      | None => if Ascii.eqb a c then Some s else None
      end
  end.

Definition skip1 (s : string) : string :=
  match s with EmptyString => EmptyString | String _ s' => s' end.

(** The idiom
    [name = strrchr(p, '\\'); if (!name) name = strrchr(p, '/');
     if (!name) name = p; else name++;] *)
Definition file_part (p : string) : string :=
  match strrchr p backslash with
  | Some r => skip1 r
  | None =>
      match strrchr p slash with
      | Some r => skip1 r
      | None => p
      end
  end.

(** [strstr(hay, needle) != NULL] *)
Fixpoint strstr (hay needle : string) : bool :=
  prefix needle hay ||
  match hay with
  | EmptyString => false
  | String _ hay' => strstr hay' needle
  end.

(** [compat_stricmp(a, b) == 0] *)
Definition lower (c : ascii) : ascii :=
  let n := nat_of_ascii c in
  if Nat.leb 65 n && Nat.leb n 90 then ascii_of_nat (n + 32) else c.

Fixpoint _stricmp (a b : string) : bool :=
  match a, b with
  | EmptyString, EmptyString => true
  | String ca a', String cb b' =>
      if Ascii.eqb (lower ca) (lower cb) then _stricmp a' b' else false
  | _, _ => false
  end.

(** *** [trim_whitespace] *)

Definition is_blank (c : ascii) : bool :=
  Ascii.eqb c " "%char || Ascii.eqb c "009"%char ||
  Ascii.eqb c "010"%char || Ascii.eqb c "013"%char.

(** First loop: [start] advances while it points at a blank. *)
Fixpoint skip_blanks (s : string) : string :=
  match s with
  | EmptyString => EmptyString
  | String c s' => if is_blank c then skip_blanks s' else s
  end.

(** Second loop: [while (len > 0 && blank(str[len-1])) { str[len-1] = 0; len--; }]
    run on the loop variable [len]; the string that is left is the first
    [len] characters. *)
Fixpoint chop_blanks (len : nat) (str : string) : string :=
  match len with
  | O => EmptyString
  | S n =>
      match get n str with
      | Some c => if is_blank c then chop_blanks n str else substring 0 len str
      | None => substring 0 len str
      end
  end.

Definition trim_whitespace (str : string) : string :=
  let start := skip_blanks str in
  chop_blanks (String.length start) start.

(** *** [compat_strtok_s]

    The token buffer is destroyed as it is cut; the model keeps the text
    still to be scanned as the context ([None] is the NULL context). *)

Fixpoint in_delim (c : ascii) (delim : string) : bool :=
  match delim with
  | EmptyString => false
  | String d delim' => Ascii.eqb c d || in_delim c delim'
  end.

(** [start += strspn(start, delim)] *)
Fixpoint skip_span (s delim : string) : string :=
  match s with
  | EmptyString => EmptyString
  | String c s' => if in_delim c delim then skip_span s' delim else s
  end.

(** [end = start + strcspn(start, delim)]: the token and what follows it
    ([None] when [*end] is the terminating NUL, otherwise the text after
    the delimiter that was overwritten). *)
Fixpoint cut_cspan (s delim : string) : string * option string :=
  match s with
  | EmptyString => (EmptyString, None)
  | String c s' =>
      if in_delim c delim then (EmptyString, Some s')
      else let (tok, rest) := cut_cspan s' delim in (String c tok, rest)
  end.

(** Returns the token (or [None] for NULL) and the new context. *)
Definition strtok_s (str : option string) (delim : string)
  (context : option string) : option string * option string :=
  match (match str with Some s => Some s | None => context end) with
  | None => (None, context)
  | Some start =>
      match skip_span start delim with
      | EmptyString => (None, None)
      | String c s' => let (tok, rest) := cut_cspan (String c s') delim in
                       (Some tok, rest)
      end
  end.

(** [fprintf(f, "%lu", n)] *)
Definition print_lu (n : N) : string := NilEmpty.string_of_uint (N.to_uint n).

(** [fscanf(f, "%lu", &n) == 1]: blanks are skipped, then an optional sign
    and at least one decimal digit are read; the value is kept modulo
    [2^32], the width of [unsigned long] on Windows. *)
Definition is_space (c : ascii) : bool :=
  is_blank c || Ascii.eqb c "011"%char || Ascii.eqb c "012"%char.

Fixpoint skip_spaces (s : string) : string :=
  match s with
  | EmptyString => EmptyString
  | String c s' => if is_space c then skip_spaces s' else s
  end.

Definition digit_of (c : ascii) : option N :=
  let n := nat_of_ascii c in
  if Nat.leb 48 n && Nat.leb n 57 then Some (N.of_nat (n - 48)) else None.

Fixpoint scan_digits (s : string) (acc : N) (seen : bool) : option N :=
  match s with
  | EmptyString => if seen then Some acc else None
  | String c s' =>
      match digit_of c with
      | Some d => scan_digits s' (acc * 10 + d)%N true
      | None => if seen then Some acc else None
      end
  end.

Definition two32 : N := 4294967296%N.

Definition scan_lu (s : string) : option DWORD :=
  match skip_spaces s with
  | String "-"%char s' =>
      match scan_digits s' 0%N false with
      | Some v => Some ((two32 - v mod two32) mod two32)%N
      | None => None
      end
  | String "+"%char s' =>
      match scan_digits s' 0%N false with
      | Some v => Some (v mod two32)%N
      | None => None
      end
  | s' =>
      match scan_digits s' 0%N false with
      | Some v => Some (v mod two32)%N
      | None => None
      end
  end.

(** ** Program data *)

(** [GameConfiguration] (launcher_common.h).  The [int] fields are only
    ever set by [SET_BOOL], so they are booleans here; [backup_saves] and
    [max_backups] are never read and are left out. *)
Record GameConfiguration := {
  executable : string;
  directory : string;
  name : string;
  iso_path : string;
  controller_mapper_app : string;
  controller_mapper_options : string;
  controller_mapper_arguments : string;
  borderless_windowing_app : string;
  borderless_options : string;
  borderless_arguments : string;
  multimonitor_tool : string;
  multimonitor_options : string;
  multimonitor_arguments : string;
  player1_profile : string;
  player2_profile : string;
  mediacenter_profile : string;
  mm_game_config : string;
  mm_desktop_config : string;
  cloud_app : string;
  cloud_app_options : string;
  cloud_app_arguments : string;
  disc_mount_app : string;
  disc_mount_options : string;
  disc_mount_arguments : string;
  disc_mount_wait : bool;
  disc_unmount_app : string;
  disc_unmount_options : string;
  disc_unmount_arguments : string;
  disc_unmount_wait : bool;
  run_as_admin : bool;
  hide_taskbar : bool;
  borderless : string;
  use_kill_list : bool;
  terminate_borderless_on_exit : bool;
  kill_list : string;
  pre_launch_app_1 : string;
  pre_launch_app_1_options : string;
  pre_launch_app_1_arguments : string;
  pre_launch_app_2 : string;
  pre_launch_app_2_options : string;
  pre_launch_app_2_arguments : string;
  pre_launch_app_3 : string;
  pre_launch_app_3_options : string;
  pre_launch_app_3_arguments : string;
  pre_launch_app_1_wait : bool;
  pre_launch_app_2_wait : bool;
  pre_launch_app_3_wait : bool;
  post_launch_app_1 : string;
  post_launch_app_1_options : string;
  post_launch_app_1_arguments : string;
  post_launch_app_2 : string;
  post_launch_app_2_options : string;
  post_launch_app_2_arguments : string;
  post_launch_app_3 : string;
  post_launch_app_3_options : string;
  post_launch_app_3_arguments : string;
  just_after_launch_app : string;
  just_after_launch_options : string;
  just_after_launch_arguments : string;
  just_before_exit_app : string;
  just_before_exit_options : string;
  just_before_exit_arguments : string;
  post_launch_app_1_wait : bool;
  post_launch_app_2_wait : bool;
  post_launch_app_3_wait : bool;
  just_after_launch_wait : bool;
  just_before_exit_wait : bool;
  launch_sequence : string;
  exit_sequence : string
}.

(** [memset(&G_CONFIG, 0, sizeof(GameConfiguration))] *)
Definition zero_config : GameConfiguration :=
  Build_GameConfiguration
    EmptyString EmptyString EmptyString EmptyString
    EmptyString EmptyString EmptyString EmptyString EmptyString EmptyString EmptyString EmptyString EmptyString EmptyString EmptyString EmptyString EmptyString EmptyString EmptyString EmptyString EmptyString
    EmptyString EmptyString EmptyString false EmptyString EmptyString EmptyString false
    false false EmptyString false false EmptyString
    EmptyString EmptyString EmptyString EmptyString EmptyString EmptyString EmptyString EmptyString EmptyString false false false
    EmptyString EmptyString EmptyString EmptyString EmptyString EmptyString EmptyString EmptyString EmptyString EmptyString EmptyString EmptyString EmptyString EmptyString EmptyString
    false false false false false
    EmptyString EmptyString.

Record PROCESS_INFORMATION := {
  hProcess : HANDLE;
  hThread : HANDLE;
  dwProcessId : DWORD;
  dwThreadId : DWORD
}.

(** [ZeroMemory(pi, sizeof( *pi))] *)
Definition zero_pi : PROCESS_INFORMATION :=
  {| hProcess := NULL; hThread := NULL; dwProcessId := 0%N; dwThreadId := 0%N |}.

(** A node of the linked list [G_TRACKED_PROCESSES]; the list itself is a
    Rocq list, head first. *)
Record TrackedProcess := {
  tp_name : string;
  tp_pi : PROCESS_INFORMATION
}.

(** [TrayMenu] (tray_menu.h), without the icon data; its [hmenu] field is
    never assigned and stays [NULL]. *)
Record TrayMenu := {
  tray_hwnd : HWND;
  tray_running : bool;
  tray_ini_path : string;
  tray_lnk_path : string
}.

(** The global variables of launcher.c and tray_menu.c. *)
Record Globals := {
  G_CONFIG : GameConfiguration;
  G_GAME_PROCESS_INFO : PROCESS_INFORMATION;
  G_TRACKED_PROCESSES : list TrackedProcess;
  G_BORDERLESS_PROCESS : HANDLE;
  G_TASKBAR_HWND : HWND;
  G_TASKBAR_WAS_HIDDEN : bool;
  G_LOG_PATH : string;
  G_HOME_DIR : string;
  G_PID_FILE : string;
  G_IS_ADMIN : bool;
  G_TRAY_MENU : TrayMenu
}.

(** The program's initial globals, as their initialisers give them. *)
Definition initial_globals : Globals :=
  {| G_CONFIG := zero_config;
     G_GAME_PROCESS_INFO := zero_pi;
     G_TRACKED_PROCESSES := [];
     G_BORDERLESS_PROCESS := NULL;
     G_TASKBAR_HWND := NULL;
     G_TASKBAR_WAS_HIDDEN := false;
     G_LOG_PATH := EmptyString;
     G_HOME_DIR := EmptyString;
     G_PID_FILE := EmptyString;
     G_IS_ADMIN := false;
     G_TRAY_MENU := {| tray_hwnd := NULL; tray_running := false;
                       tray_ini_path := EmptyString; tray_lnk_path := EmptyString |} |}.

(** ** The operating system, as far as the launcher sees it *)

(** One entry of a Toolhelp process snapshot. *)
Record PROCESSENTRY32 := {
  th32ProcessID : DWORD;
  th32ParentProcessID : DWORD;
  szExeFile : string
}.

(** System calls that change something outside the program, in the order
    they are made.  [EvTerminateProcess pid] stands for a [TerminateProcess]
    call that ends the process [pid]: through a handle the program holds,
    or after a successful [OpenProcess(PROCESS_TERMINATE, FALSE, pid)],
    with the release of that temporary handle; [EvCloseHandle] is recorded
    for handles the program holds. *)
Inductive Event : Type :=
| EvTerminateProcess (pid : DWORD)
| EvCloseHandle (h : HANDLE)
| EvShowWindow (hwnd : HWND) (show : bool)
| EvCreateProcess (cmd : string) (working_dir : option string)
| EvShellExecute (verb file : string)
| EvWriteFile (path content : string)
| EvDeleteFile (path : string)
| EvNotifyIconDelete
| EvDestroyWindow (hwnd : HWND)
| EvExitProcess (code : N).

Record OS := {
  (* processes that run, in the order a snapshot enumerates them *)
  os_processes : list PROCESSENTRY32;
  (* processes that have ended but whose object can still be opened,
     with their exit code *)
  os_exited : list (DWORD * DWORD);
  (* [CreateToolhelp32Snapshot] succeeds *)
  os_snapshot_ok : bool;
  (* open process handles and the process each refers to *)
  os_handles : list (HANDLE * DWORD);
  (* next fresh identifier for processes, threads and handles *)
  os_next_id : N;
  (* [GetCurrentProcessId()] *)
  os_current_pid : DWORD;
  (* command lines [CreateProcessA] accepts, with the image name of the
     process each starts *)
  os_programs : list (string * string);
  (* files and their text *)
  os_files : list (string * string);
  (* paths [fopen(path, "w")] cannot open *)
  os_write_denied : list string;
  (* what [ini_parse] with [config_handler] loads from each ini file *)
  os_ini : list (string * GameConfiguration);
  (* [FindWindowA("Shell_TrayWnd", NULL)] *)
  os_shell_traywnd : HWND;
  os_taskbar_visible : bool;
  (* [check_admin()] *)
  os_is_admin : bool;
  (* [ShellExecuteA(NULL, "runas", ...)] returns more than 32 *)
  os_runas_ok : bool;
  os_trace : list Event;
  (* lines printed by [show_message] *)
  os_console : list string;
  (* lines appended to the log file: level and message *)
  os_log : list (string * string);
  (* processes [OpenProcess(PROCESS_QUERY_INFORMATION, FALSE, pid)] gives
     no handle of: those of another account or of a higher integrity
     level *)
  os_query_denied : list DWORD;
  (* processes [OpenProcess(PROCESS_TERMINATE, FALSE, pid)] gives no
     handle of *)
  os_terminate_denied : list DWORD
}.

Record World := {
  globals : Globals;
  os : OS
}.

(** The outcome of running a piece of the program. *)
Inductive result (A : Type) : Type :=
| Ok (a : A)
| OutOfFuel
| Fault.

Arguments Ok {A} a.
Arguments OutOfFuel {A}.
Arguments Fault {A}.

Definition bind {A B : Type} (m : result A) (k : A -> result B) : result B :=
  match m with
  | Ok a => k a
  | OutOfFuel => OutOfFuel
  | Fault => Fault
  end.

Notation "m >>= k" := (bind m k) (at level 50, left associativity).

(** [for] loops over a list of items, the state threaded through. *)
Fixpoint for_each {A : Type} (body : A -> World -> result World)
  (items : list A) (w : World) : result World :=
  match items with
  | [] => Ok w
  | x :: rest => body x w >>= for_each body rest
  end.

(** *** Assignments to the globals and changes of the system state *)

Definition with_globals (f : Globals -> Globals) (w : World) : World :=
  {| globals := f (globals w); os := os w |}.

Definition with_os (f : OS -> OS) (w : World) : World :=
  {| globals := globals w; os := f (os w) |}.

Definition set_G_CONFIG (v : GameConfiguration) (g : Globals) : Globals :=
  Build_Globals v (G_GAME_PROCESS_INFO g) (G_TRACKED_PROCESSES g)
    (G_BORDERLESS_PROCESS g) (G_TASKBAR_HWND g) (G_TASKBAR_WAS_HIDDEN g)
    (G_LOG_PATH g) (G_HOME_DIR g) (G_PID_FILE g) (G_IS_ADMIN g) (G_TRAY_MENU g).

Definition set_G_GAME_PROCESS_INFO (v : PROCESS_INFORMATION) (g : Globals) : Globals :=
  Build_Globals (G_CONFIG g) v (G_TRACKED_PROCESSES g)
    (G_BORDERLESS_PROCESS g) (G_TASKBAR_HWND g) (G_TASKBAR_WAS_HIDDEN g)
    (G_LOG_PATH g) (G_HOME_DIR g) (G_PID_FILE g) (G_IS_ADMIN g) (G_TRAY_MENU g).

Definition set_G_TRACKED_PROCESSES (v : list TrackedProcess) (g : Globals) : Globals :=
  Build_Globals (G_CONFIG g) (G_GAME_PROCESS_INFO g) v
    (G_BORDERLESS_PROCESS g) (G_TASKBAR_HWND g) (G_TASKBAR_WAS_HIDDEN g)
    (G_LOG_PATH g) (G_HOME_DIR g) (G_PID_FILE g) (G_IS_ADMIN g) (G_TRAY_MENU g).

Definition set_G_BORDERLESS_PROCESS (v : HANDLE) (g : Globals) : Globals :=
  Build_Globals (G_CONFIG g) (G_GAME_PROCESS_INFO g) (G_TRACKED_PROCESSES g)
    v (G_TASKBAR_HWND g) (G_TASKBAR_WAS_HIDDEN g)
    (G_LOG_PATH g) (G_HOME_DIR g) (G_PID_FILE g) (G_IS_ADMIN g) (G_TRAY_MENU g).

Definition set_G_TASKBAR_HWND (v : HWND) (g : Globals) : Globals :=
  Build_Globals (G_CONFIG g) (G_GAME_PROCESS_INFO g) (G_TRACKED_PROCESSES g)
    (G_BORDERLESS_PROCESS g) v (G_TASKBAR_WAS_HIDDEN g)
    (G_LOG_PATH g) (G_HOME_DIR g) (G_PID_FILE g) (G_IS_ADMIN g) (G_TRAY_MENU g).

Definition set_G_TASKBAR_WAS_HIDDEN (v : bool) (g : Globals) : Globals :=
  Build_Globals (G_CONFIG g) (G_GAME_PROCESS_INFO g) (G_TRACKED_PROCESSES g)
    (G_BORDERLESS_PROCESS g) (G_TASKBAR_HWND g) v
    (G_LOG_PATH g) (G_HOME_DIR g) (G_PID_FILE g) (G_IS_ADMIN g) (G_TRAY_MENU g).

Definition set_G_LOG_PATH (v : string) (g : Globals) : Globals :=
  Build_Globals (G_CONFIG g) (G_GAME_PROCESS_INFO g) (G_TRACKED_PROCESSES g)
    (G_BORDERLESS_PROCESS g) (G_TASKBAR_HWND g) (G_TASKBAR_WAS_HIDDEN g)
    v (G_HOME_DIR g) (G_PID_FILE g) (G_IS_ADMIN g) (G_TRAY_MENU g).

Definition set_G_HOME_DIR (v : string) (g : Globals) : Globals :=
  Build_Globals (G_CONFIG g) (G_GAME_PROCESS_INFO g) (G_TRACKED_PROCESSES g)
    (G_BORDERLESS_PROCESS g) (G_TASKBAR_HWND g) (G_TASKBAR_WAS_HIDDEN g)
    (G_LOG_PATH g) v (G_PID_FILE g) (G_IS_ADMIN g) (G_TRAY_MENU g).

Definition set_G_PID_FILE (v : string) (g : Globals) : Globals :=
  Build_Globals (G_CONFIG g) (G_GAME_PROCESS_INFO g) (G_TRACKED_PROCESSES g)
    (G_BORDERLESS_PROCESS g) (G_TASKBAR_HWND g) (G_TASKBAR_WAS_HIDDEN g)
    (G_LOG_PATH g) (G_HOME_DIR g) v (G_IS_ADMIN g) (G_TRAY_MENU g).

Definition set_G_IS_ADMIN (v : bool) (g : Globals) : Globals :=
  Build_Globals (G_CONFIG g) (G_GAME_PROCESS_INFO g) (G_TRACKED_PROCESSES g)
    (G_BORDERLESS_PROCESS g) (G_TASKBAR_HWND g) (G_TASKBAR_WAS_HIDDEN g)
    (G_LOG_PATH g) (G_HOME_DIR g) (G_PID_FILE g) v (G_TRAY_MENU g).

Definition set_G_TRAY_MENU (v : TrayMenu) (g : Globals) : Globals :=
  Build_Globals (G_CONFIG g) (G_GAME_PROCESS_INFO g) (G_TRACKED_PROCESSES g)
    (G_BORDERLESS_PROCESS g) (G_TASKBAR_HWND g) (G_TASKBAR_WAS_HIDDEN g)
    (G_LOG_PATH g) (G_HOME_DIR g) (G_PID_FILE g) (G_IS_ADMIN g) v.

Definition set_os_processes (v : list PROCESSENTRY32) (o : OS) : OS :=
  Build_OS v (os_exited o) (os_snapshot_ok o) (os_handles o) (os_next_id o)
    (os_current_pid o) (os_programs o) (os_files o) (os_write_denied o)
    (os_ini o) (os_shell_traywnd o) (os_taskbar_visible o) (os_is_admin o)
    (os_runas_ok o) (os_trace o) (os_console o) (os_log o)
    (os_query_denied o) (os_terminate_denied o).

Definition set_os_handles (v : list (HANDLE * DWORD)) (o : OS) : OS :=
  Build_OS (os_processes o) (os_exited o) (os_snapshot_ok o) v (os_next_id o)
    (os_current_pid o) (os_programs o) (os_files o) (os_write_denied o)
    (os_ini o) (os_shell_traywnd o) (os_taskbar_visible o) (os_is_admin o)
    (os_runas_ok o) (os_trace o) (os_console o) (os_log o)
    (os_query_denied o) (os_terminate_denied o).

Definition set_os_next_id (v : N) (o : OS) : OS :=
  Build_OS (os_processes o) (os_exited o) (os_snapshot_ok o) (os_handles o) v
    (os_current_pid o) (os_programs o) (os_files o) (os_write_denied o)
    (os_ini o) (os_shell_traywnd o) (os_taskbar_visible o) (os_is_admin o)
    (os_runas_ok o) (os_trace o) (os_console o) (os_log o)
    (os_query_denied o) (os_terminate_denied o).

Definition set_os_files (v : list (string * string)) (o : OS) : OS :=
  Build_OS (os_processes o) (os_exited o) (os_snapshot_ok o) (os_handles o)
    (os_next_id o) (os_current_pid o) (os_programs o) v (os_write_denied o)
    (os_ini o) (os_shell_traywnd o) (os_taskbar_visible o) (os_is_admin o)
    (os_runas_ok o) (os_trace o) (os_console o) (os_log o)
    (os_query_denied o) (os_terminate_denied o).

Definition set_os_taskbar_visible (v : bool) (o : OS) : OS :=
  Build_OS (os_processes o) (os_exited o) (os_snapshot_ok o) (os_handles o)
    (os_next_id o) (os_current_pid o) (os_programs o) (os_files o)
    (os_write_denied o) (os_ini o) (os_shell_traywnd o) v (os_is_admin o)
    (os_runas_ok o) (os_trace o) (os_console o) (os_log o)
    (os_query_denied o) (os_terminate_denied o).

Definition set_os_trace (v : list Event) (o : OS) : OS :=
  Build_OS (os_processes o) (os_exited o) (os_snapshot_ok o) (os_handles o)
    (os_next_id o) (os_current_pid o) (os_programs o) (os_files o)
    (os_write_denied o) (os_ini o) (os_shell_traywnd o) (os_taskbar_visible o)
    (os_is_admin o) (os_runas_ok o) v (os_console o) (os_log o)
    (os_query_denied o) (os_terminate_denied o).

Definition set_os_console (v : list string) (o : OS) : OS :=
  Build_OS (os_processes o) (os_exited o) (os_snapshot_ok o) (os_handles o)
    (os_next_id o) (os_current_pid o) (os_programs o) (os_files o)
    (os_write_denied o) (os_ini o) (os_shell_traywnd o) (os_taskbar_visible o)
    (os_is_admin o) (os_runas_ok o) (os_trace o) v (os_log o)
    (os_query_denied o) (os_terminate_denied o).

Definition set_os_log (v : list (string * string)) (o : OS) : OS :=
  Build_OS (os_processes o) (os_exited o) (os_snapshot_ok o) (os_handles o)
    (os_next_id o) (os_current_pid o) (os_programs o) (os_files o)
    (os_write_denied o) (os_ini o) (os_shell_traywnd o) (os_taskbar_visible o)
    (os_is_admin o) (os_runas_ok o) (os_trace o) (os_console o) v
    (os_query_denied o) (os_terminate_denied o).

Definition set_os_query_denied (v : list DWORD) (o : OS) : OS :=
  Build_OS (os_processes o) (os_exited o) (os_snapshot_ok o) (os_handles o)
    (os_next_id o) (os_current_pid o) (os_programs o) (os_files o)
    (os_write_denied o) (os_ini o) (os_shell_traywnd o) (os_taskbar_visible o)
    (os_is_admin o) (os_runas_ok o) (os_trace o) (os_console o) (os_log o)
    v (os_terminate_denied o).

Definition set_os_terminate_denied (v : list DWORD) (o : OS) : OS :=
  Build_OS (os_processes o) (os_exited o) (os_snapshot_ok o) (os_handles o)
    (os_next_id o) (os_current_pid o) (os_programs o) (os_files o)
    (os_write_denied o) (os_ini o) (os_shell_traywnd o) (os_taskbar_visible o)
    (os_is_admin o) (os_runas_ok o) (os_trace o) (os_console o) (os_log o)
    (os_query_denied o) v.

(** Shorthands for reading the state. *)
Definition cfg (w : World) : GameConfiguration := G_CONFIG (globals w).
Definition tracked (w : World) : list TrackedProcess := G_TRACKED_PROCESSES (globals w).
Definition processes (w : World) : list PROCESSENTRY32 := os_processes (os w).
Definition trace (w : World) : list Event := os_trace (os w).
Definition console (w : World) : list string := os_console (os w).

Definition emit (e : Event) (w : World) : World :=
  with_os (fun o => set_os_trace (os_trace o ++ [e])%list o) w.

Fixpoint assoc {A : Type} (key : string) (l : list (string * A)) : option A :=
  match l with
  | [] => None
  | (k, v) :: rest => if String.eqb k key then Some v else assoc key rest
  end.

Fixpoint assocN {A : Type} (key : N) (l : list (N * A)) : option A :=
  match l with
  | [] => None
  | (k, v) :: rest => if N.eqb k key then Some v else assocN key rest
  end.

Definition mem_string (s : string) (l : list string) : bool :=
  existsb (String.eqb s) l.

(** *** System calls *)

(** [GetFileAttributesA(path) != INVALID_FILE_ATTRIBUTES] *)
Definition file_exists (path : string) (w : World) : bool :=
  match assoc path (os_files (os w)) with Some _ => true | None => false end.

(** [fopen(path, "r")] and the text of the file. *)
Definition fopen_r (path : string) (w : World) : option string :=
  assoc path (os_files (os w)).

(** [fopen(path, "w")], [fprintf] of [content], [fclose]; [None] when the
    file cannot be opened for writing. *)
Definition write_file (path content : string) (w : World) : option World :=
  if mem_string path (os_write_denied (os w)) then None
  else
    Some (emit (EvWriteFile path content)
      (with_os (fun o =>
         set_os_files
           ((path, content) ::
            filter (fun kv => negb (String.eqb (fst kv) path)) (os_files o)) o) w)).

Definition DeleteFileA (path : string) (w : World) : World :=
  emit (EvDeleteFile path)
    (with_os (fun o =>
       set_os_files
         (filter (fun kv => negb (String.eqb (fst kv) path)) (os_files o)) o) w).

Definition pid_running (pid : DWORD) (w : World) : bool :=
  existsb (fun pe => N.eqb (th32ProcessID pe) pid) (processes w).

(** [OpenProcess(PROCESS_QUERY_INFORMATION, FALSE, pid)] is not refused
    for lack of access. *)
Definition can_query (pid : DWORD) (w : World) : bool :=
  negb (existsb (N.eqb pid) (os_query_denied (os w))).

(** [OpenProcess(PROCESS_TERMINATE, FALSE, pid)] is not refused for lack
    of access. *)
Definition can_terminate (pid : DWORD) (w : World) : bool :=
  negb (existsb (N.eqb pid) (os_terminate_denied (os w))).

(** [OpenProcess(PROCESS_QUERY_INFORMATION, FALSE, pid)] followed by
    [GetExitCodeProcess]: [None] when the process cannot be opened,
    because access is refused or because there is no process of that id;
    otherwise its exit code, which is [STILL_ACTIVE] while it runs. *)
Definition query_exit_code (pid : DWORD) (w : World) : option DWORD :=
  if negb (can_query pid w) then None
  else if pid_running pid w then Some STILL_ACTIVE
  else assocN pid (os_exited (os w)).

(** [TerminateProcess(h, 0)] where [h] is a handle of the process [pid]
    that carries the right to terminate it.  A running process leaves the
    process list at once; on a process that has ended nothing happens. *)
Definition terminate_pid (pid : DWORD) (w : World) : World :=
  if pid_running pid w then
    emit (EvTerminateProcess pid)
      (with_os (fun o =>
         set_os_processes
           (filter (fun pe => negb (N.eqb (th32ProcessID pe) pid)) (os_processes o)) o) w)
  else w.

(** [OpenProcess(PROCESS_TERMINATE, FALSE, pid)]; if that gives a handle,
    [TerminateProcess(h, 0)] and [CloseHandle(h)]; if it gives none,
    nothing. *)
Definition open_and_terminate (pid : DWORD) (w : World) : World :=
  if can_terminate pid w then terminate_pid pid w else w.

(** [CloseHandle(h)] on a handle the program holds. *)
Definition CloseHandle (h : HANDLE) (w : World) : World :=
  emit (EvCloseHandle h)
    (with_os (fun o =>
       set_os_handles
         (filter (fun hp => negb (N.eqb (fst hp) h)) (os_handles o)) o) w).

(** [GetProcessId(h)]; [0] for a handle that is not open. *)
Definition GetProcessId (h : HANDLE) (w : World) : DWORD :=
  match assocN h (os_handles (os w)) with Some pid => pid | None => 0%N end.

(** [TerminateProcess(h, 0)] on a handle the program holds: the handles
    it holds come from [CreateProcessA] and carry every access right. *)
Definition TerminateProcess (h : HANDLE) (w : World) : World :=
  match assocN h (os_handles (os w)) with
  | Some pid => terminate_pid pid w
  | None => w
  end.

(** [WaitForSingleObject(h, INFINITE)]: the process runs to its end. *)
Definition WaitForSingleObject (h : HANDLE) (w : World) : World :=
  match assocN h (os_handles (os w)) with
  | Some pid =>
      with_os (fun o =>
        set_os_processes
          (filter (fun pe => negb (N.eqb (th32ProcessID pe) pid)) (os_processes o)) o) w
  | None => w
  end.

(** [ShowWindow(hwnd, show ? SW_SHOW : SW_HIDE)] *)
Definition ShowWindow (hwnd : HWND) (show : bool) (w : World) : World :=
  emit (EvShowWindow hwnd show)
    (if N.eqb hwnd (os_shell_traywnd (os w))
     then with_os (set_os_taskbar_visible show) w
     else w).

(** The launcher may open the process [id]: it is taken off the lists of
    processes [OpenProcess] refuses. *)
Definition allow_open (id : DWORD) (o : OS) : OS :=
  set_os_query_denied
    (filter (fun p => negb (N.eqb p id)) (os_query_denied o))
    (set_os_terminate_denied
       (filter (fun p => negb (N.eqb p id)) (os_terminate_denied o)) o).

(** [CreateProcessA(NULL, cmd, ..., working_dir, &si, pi)].  The process
    started runs under the account of the launcher, which may open it. *)
Definition CreateProcessA (cmd : string) (working_dir : option string) (w : World)
  : bool * PROCESS_INFORMATION * World :=
  match assoc cmd (os_programs (os w)) with
  | None => (false, zero_pi, w)
  | Some image =>
      let id := os_next_id (os w) in
      let pi := {| hProcess := (id + 1)%N; hThread := (id + 2)%N;
                   dwProcessId := id; dwThreadId := (id + 3)%N |} in
      let pe := {| th32ProcessID := id;
                   th32ParentProcessID := os_current_pid (os w);
                   szExeFile := image |} in
      (true, pi,
       emit (EvCreateProcess cmd working_dir)
         (with_os (fun o =>
            set_os_next_id (id + 4)%N
              (set_os_handles ((hProcess pi, id) :: os_handles o)
                 (set_os_processes (os_processes o ++ [pe])%list
                    (allow_open id o)))) w))
  end.

(** ** launcher.c *)

(** *** Logging *)

(** [log_message]: a line is appended to the log file unless no log path
    is set or the file cannot be opened.  Time stamps are left out. *)
Definition log_message (level message : string) (w : World) : World :=
  if str_empty (G_LOG_PATH (globals w)) then w
  else if mem_string (G_LOG_PATH (globals w)) (os_write_denied (os w)) then w
  else with_os (fun o => set_os_log (os_log o ++ [(level, message)])%list o) w.

Definition show_message (message : string) (w : World) : World :=
  log_message "INFO" message
    (with_os (fun o => set_os_console (os_console o ++ [message])%list o) w).

(** *** String replacement and path resolution *)

(** The loop of [string_replace]: [pos] walks the source and [remaining]
    counts the room left in the temporary buffer.  The budget is the
    length of the source, which bounds the number of iterations as [find]
    is never empty. *)
Fixpoint string_replace_loop (budget : nat) (pos find replace : string)
  (remaining : nat) : string :=
  match budget with
  | O => EmptyString
  | S budget' =>
      match pos with
      | EmptyString => EmptyString
      | String c pos' =>
          if Nat.eqb remaining 0 then EmptyString
          else if prefix find pos then
            let copy_len := Nat.min (String.length replace) remaining in
            substring 0 copy_len replace ++
            string_replace_loop budget'
              (substring (String.length find) (String.length pos) pos)
              find replace (remaining - copy_len)
          else String c (string_replace_loop budget' pos' find replace (remaining - 1))
      end
  end.

Definition string_replace (dest_size : nat) (src find replace : string) : string :=
  strncpy
    (string_replace_loop (String.length src) src find replace (MAX_CMD_LEN * 2 - 1))
    (dest_size - 1).

Definition resolve_path (path : string) (resolved_size : nat) (w : World) : string :=
  let temp := strncpy path (MAX_CMD_LEN * 2 - 1) in
  let temp := string_replace (MAX_CMD_LEN * 2) temp "$GAMENAME" (name (cfg w)) in
  let temp := string_replace (MAX_CMD_LEN * 2) temp "$HOME" (G_HOME_DIR (globals w)) in
  let temp := string_replace (MAX_CMD_LEN * 2) temp "$ISO" (iso_path (cfg w)) in
  strncpy temp (resolved_size - 1).

(** *** Tracked process management *)

(** [malloc] is taken to succeed. *)
Definition add_tracked_process (name : string) (pi : PROCESS_INFORMATION)
  (w : World) : World :=
  let tp := {| tp_name := strncpy name (MAX_NAME_LEN - 1); tp_pi := pi |} in
  with_globals (fun g => set_G_TRACKED_PROCESSES (tp :: G_TRACKED_PROCESSES g) g) w.

(** The walk of [remove_tracked_process] along the list: the first node
    whose name compares equal is unlinked. *)
Fixpoint unlink_first (name : string) (l : list TrackedProcess) : list TrackedProcess :=
  match l with
  | [] => []
  | tp :: rest =>
      if String.eqb (tp_name tp) name then rest
      else tp :: unlink_first name rest
  end.

Definition remove_tracked_process (name : string) (w : World) : World :=
  with_globals (fun g =>
    set_G_TRACKED_PROCESSES (unlink_first name (G_TRACKED_PROCESSES g)) g) w.

Fixpoint find_first (name : string) (l : list TrackedProcess) : option TrackedProcess :=
  match l with
  | [] => None
  | tp :: rest =>
      if String.eqb (tp_name tp) name then Some tp else find_first name rest
  end.

(** [NULL] is [None]. *)
Definition find_tracked_process (name : string) (w : World) : option TrackedProcess :=
  find_first name (tracked w).

(** *** Process management *)

Definition run_process (command : string) (working_dir : option string)
  (wait : bool) (w : World) : bool * PROCESS_INFORMATION * World :=
  let '(success, pi, w1) := CreateProcessA command working_dir w in
  if success && wait then
    (success, pi,
     CloseHandle (hThread pi)
       (CloseHandle (hProcess pi) (WaitForSingleObject (hProcess pi) w1)))
  else (success, pi, w1).

(** [child_pids[i] = v]; a write outside the array is a fault. *)
Definition store (child_pids : list DWORD) (i : nat) (v : DWORD) : option (list DWORD) :=
  if Nat.ltb i (List.length child_pids)
  then Some (firstn i child_pids ++ v :: skipn (S i) child_pids)%list
  else None.

(** First pass of [terminate_process_tree]: the walk over the snapshot
    that fills [child_pids] and counts in [child_count]. *)
Fixpoint collect_children (pid : DWORD) (snapshot : list PROCESSENTRY32)
  (child_pids : list DWORD) (child_count : nat) : option (list DWORD * nat) :=
  match snapshot with
  | [] => Some (child_pids, child_count)
  | pe :: rest =>
      if N.eqb (th32ParentProcessID pe) pid && Nat.ltb child_count 256 then
        match store child_pids child_count (th32ProcessID pe) with
        | Some child_pids' => collect_children pid rest child_pids' (S child_count)
        | None => None
        end
      else collect_children pid rest child_pids child_count
  end.

(** [DWORD child_pids[256]], not initialised. *)
Definition fresh_child_pids : list DWORD := repeat 0%N 256.

Fixpoint terminate_process_tree (fuel : nat) (pid : DWORD) (w : World) : result World :=
  match fuel with
  | O => OutOfFuel
  | S fuel' =>
      if negb (os_snapshot_ok (os w)) then Ok w
      else
        match collect_children pid (processes w) fresh_child_pids 0 with
        | None => Fault
        | Some (child_pids, child_count) =>
            for_each (terminate_process_tree fuel') (firstn child_count child_pids) w
            >>= fun w1 => Ok (open_and_terminate pid w1)
        end
  end.

(** The snapshot is taken once; the walk over it goes on while the
    matching trees are torn down. *)
Definition kill_process_by_name (fuel : nat) (process_name : string) (w : World)
  : result World :=
  if negb (os_snapshot_ok (os w)) then Ok w
  else
    for_each
      (fun pe w' =>
         if _stricmp (szExeFile pe) process_name
         then terminate_process_tree fuel (th32ProcessID pe) w'
         else Ok w')
      (processes w) w.

Definition kill_all_tracked_processes (fuel : nat) (w : World) : result World :=
  let w := show_message "Cleaning up background processes..." w in
  for_each
    (fun current w' =>
       terminate_process_tree fuel (dwProcessId (tp_pi current)) w' >>= fun w1 =>
       Ok (CloseHandle (hThread (tp_pi current))
             (CloseHandle (hProcess (tp_pi current)) w1)))
    (tracked w) w
  >>= fun w2 => Ok (with_globals (set_G_TRACKED_PROCESSES []) w2).

(** *** Taskbar control *)

Definition set_taskbar_visibility (show : bool) (w : World) : World :=
  let w1 :=
    if N.eqb (G_TASKBAR_HWND (globals w)) NULL
    then with_globals (set_G_TASKBAR_HWND (os_shell_traywnd (os w))) w
    else w in
  if N.eqb (G_TASKBAR_HWND (globals w1)) NULL then w1
  else
    let w2 := ShowWindow (G_TASKBAR_HWND (globals w1)) show w1 in
    if show then w2 else with_globals (set_G_TASKBAR_WAS_HIDDEN true) w2.

(** *** Action functions *)

Definition quoted (s : string) : string := dquote ++ s ++ dquote.

Definition action_run_controller_mapper (is_exit : bool) (w : World) : World :=
  let app := if is_exit then mediacenter_profile (cfg w) else controller_mapper_app (cfg w) in
  let p1 := if is_exit then mediacenter_profile (cfg w) else player1_profile (cfg w) in
  let p2 := if is_exit then mediacenter_profile (cfg w) else player2_profile (cfg w) in
  if str_empty app || str_empty p1 then
    show_message "  - Controller Mapper or P1 Profile not configured/found." w
  else if negb (file_exists app w) then
    show_message "  - Controller Mapper executable not found." w
  else if negb (file_exists p1 w) then
    show_message "  - Player 1 profile not found." w
  else
    let mapper_name := file_part app in
    let cmd :=
      if strstr mapper_name "antimicro" then
        let cmd := snprintf MAX_CMD_LEN
          (quoted app ++ " " ++ controller_mapper_options (cfg w) ++
           " --tray --hidden --profile " ++ quoted p1 ++ " " ++
           controller_mapper_arguments (cfg w)) in
        if str_empty p2 then cmd
        else
          strncat MAX_CMD_LEN cmd
            (snprintf MAX_CMD_LEN
               (" --next --profile-controller 2 --profile " ++ quoted p2))
      else if strstr mapper_name "joyxoff" || strstr mapper_name "joy2key" ||
              strstr mapper_name "keysticks" then
        snprintf MAX_CMD_LEN
          (quoted app ++ " -load " ++ quoted p1 ++ " " ++
           controller_mapper_options (cfg w) ++ " " ++
           controller_mapper_arguments (cfg w))
      else
        snprintf MAX_CMD_LEN
          (quoted app ++ " " ++ controller_mapper_options (cfg w) ++ " " ++
           controller_mapper_arguments (cfg w)) in
    let '(success, pi, w1) := run_process cmd None false w in
    if success then add_tracked_process "controller_mapper" pi w1 else w1.

Definition action_kill_controller_mapper (fuel : nat) (w : World) : result World :=
  match find_tracked_process "controller_mapper" w with
  | Some tp =>
      terminate_process_tree fuel (dwProcessId (tp_pi tp)) w >>= fun w1 =>
      Ok (remove_tracked_process "controller_mapper"
            (CloseHandle (hThread (tp_pi tp)) (CloseHandle (hProcess (tp_pi tp)) w1)))
  | None =>
      if negb (str_empty (controller_mapper_app (cfg w))) then
        kill_process_by_name fuel (file_part (controller_mapper_app (cfg w))) w
      else Ok w
  end.

Definition monitor_config_command (config : string) (w : World) : string :=
  snprintf MAX_CMD_LEN
    (quoted (multimonitor_tool (cfg w)) ++ " " ++ multimonitor_options (cfg w) ++
     " /load " ++ quoted config ++ " " ++ multimonitor_arguments (cfg w)).

Definition action_run_monitor_config_game (w : World) : World :=
  if str_empty (multimonitor_tool (cfg w)) || str_empty (mm_game_config (cfg w)) then w
  else if negb (file_exists (multimonitor_tool (cfg w)) w) then w
  else if negb (file_exists (mm_game_config (cfg w)) w) then w
  else snd (run_process (monitor_config_command (mm_game_config (cfg w)) w) None true w).

Definition action_run_monitor_config_desktop (w : World) : World :=
  if str_empty (multimonitor_tool (cfg w)) || str_empty (mm_desktop_config (cfg w)) then w
  else if negb (file_exists (multimonitor_tool (cfg w)) w) then w
  else if negb (file_exists (mm_desktop_config (cfg w)) w) then w
  else snd (run_process (monitor_config_command (mm_desktop_config (cfg w)) w) None true w).

Definition action_hide_taskbar (w : World) : World :=
  if hide_taskbar (cfg w) then set_taskbar_visibility false w else w.

Definition action_show_taskbar (w : World) : World :=
  set_taskbar_visibility true w.

Definition action_run_borderless (w : World) : World :=
  if (String.eqb (borderless (cfg w)) "E" || String.eqb (borderless (cfg w)) "K") &&
     negb (str_empty (borderless_windowing_app (cfg w))) then
    if negb (file_exists (borderless_windowing_app (cfg w)) w) then w
    else
      let cmd := snprintf MAX_CMD_LEN
        (quoted (borderless_windowing_app (cfg w)) ++ " " ++
         borderless_options (cfg w) ++ " " ++ borderless_arguments (cfg w)) in
      let '(success, pi, w1) := run_process cmd None false w in
      if success then
        CloseHandle (hThread pi)
          (with_globals (set_G_BORDERLESS_PROCESS (hProcess pi)) w1)
      else w1
  else w.

Definition action_kill_borderless (fuel : nat) (w : World) : result World :=
  if terminate_borderless_on_exit (cfg w) &&
     negb (N.eqb (G_BORDERLESS_PROCESS (globals w)) NULL) then
    terminate_process_tree fuel (GetProcessId (G_BORDERLESS_PROCESS (globals w)) w) w
    >>= fun w1 =>
    Ok (with_globals (set_G_BORDERLESS_PROCESS NULL)
          (CloseHandle (G_BORDERLESS_PROCESS (globals w1)) w1))
  else if terminate_borderless_on_exit (cfg w) &&
          negb (str_empty (borderless_windowing_app (cfg w))) then
    kill_process_by_name fuel (file_part (borderless_windowing_app (cfg w))) w
  else Ok w.

Definition action_run_cloud_sync (w : World) : World :=
  if str_empty (cloud_app (cfg w)) then w
  else if negb (file_exists (cloud_app (cfg w)) w) then w
  else
    let cmd := snprintf MAX_CMD_LEN
      (quoted (cloud_app (cfg w)) ++ " " ++ cloud_app_options (cfg w) ++ " " ++
       cloud_app_arguments (cfg w)) in
    snd (run_process cmd None true w).

(** [if (s && strlen(s) > 0) { strncat(cmd, " ", ...); strncat(cmd, s, ...); }] *)
Definition append_word (cmd s : string) : string :=
  if str_empty s then cmd
  else strncat MAX_CMD_LEN (strncat MAX_CMD_LEN cmd " ") s.

Definition action_run_generic_app (app_path : string) (wait : bool)
  (options args : string) (w : World) : World :=
  if str_empty app_path then w
  else
    let resolved := resolve_path app_path MAX_PATH_LEN w in
    if negb (file_exists resolved w) then w
    else
      let cmd := snprintf MAX_CMD_LEN (quoted resolved) in
      let cmd := append_word cmd options in
      let cmd := append_word cmd args in
      let '(_, pi, w1) := run_process cmd None wait w in
      if negb wait && negb (N.eqb (hProcess pi) NULL) then
        add_tracked_process (strncpy resolved (MAX_NAME_LEN - 1)) pi w1
      else w1.

Definition action_kill_game (fuel : nat) (w : World) : result World :=
  if negb (str_empty (executable (cfg w))) then
    kill_process_by_name fuel (file_part (executable (cfg w))) w
  else Ok w.

(** The loop shared by [execute_sequence] and [action_kill_process_list]:
    [while (token != NULL) { trim_whitespace(token);
       if (strlen(token) > 0) body(token);
       token = strtok_s(NULL, ",", &context); }].
    [n] bounds the number of iterations. *)
Fixpoint token_loop (n : nat) (body : string -> World -> result World)
  (token context : option string) (w : World) : result World :=
  match token with
  | None => Ok w
  | Some tok =>
      match n with
      | O => OutOfFuel
      | S n' =>
          let tok := trim_whitespace tok in
          (if str_empty tok then Ok w else body tok w) >>= fun w1 =>
          let (token', context') := strtok_s None "," context in
          token_loop n' body token' context' w1
      end
  end.

Definition action_kill_process_list (fuel : nat) (w : World) : result World :=
  if negb (use_kill_list (cfg w)) || str_empty (kill_list (cfg w)) then Ok w
  else
    let list_copy := strncpy (kill_list (cfg w)) (MAX_CMD_LEN - 1) in
    let (token, context) := strtok_s (Some list_copy) "," None in
    token_loop (S (String.length list_copy)) (kill_process_by_name fuel) token context w.

Definition action_mount_iso (w : World) : World :=
  if str_empty (iso_path (cfg w)) then w
  else
    let resolved := resolve_path (iso_path (cfg w)) MAX_PATH_LEN w in
    if negb (file_exists resolved w) then w
    else
      let w1 := show_message "Mounting ISO with native Windows..." w in
      let cmd := snprintf MAX_CMD_LEN
        ("powershell -Command " ++ dquote ++ "Mount-DiskImage -ImagePath '" ++
         resolved ++ "'" ++ dquote) in
      snd (run_process cmd None true w1).

Definition action_unmount_iso (w : World) : World :=
  if str_empty (iso_path (cfg w)) then w
  else
    let resolved := resolve_path (iso_path (cfg w)) MAX_PATH_LEN w in
    let w1 := show_message "Unmounting ISO with native Windows..." w in
    let cmd := snprintf MAX_CMD_LEN
      ("powershell -Command " ++ dquote ++ "Dismount-DiskImage -ImagePath '" ++
       resolved ++ "'" ++ dquote) in
    snd (run_process cmd None true w1).

Definition action_mount_disc_with_app (w : World) : World :=
  if str_empty (disc_mount_app (cfg w)) || str_empty (iso_path (cfg w)) then
    action_mount_iso w
  else
    let resolved_app := resolve_path (disc_mount_app (cfg w)) MAX_PATH_LEN w in
    let resolved_iso := resolve_path (iso_path (cfg w)) MAX_PATH_LEN w in
    if negb (file_exists resolved_app w) then action_mount_iso w
    else if negb (file_exists resolved_iso w) then w
    else
      let w1 := show_message "Mounting disc with external app..." w in
      let cmd := snprintf MAX_CMD_LEN (quoted resolved_app) in
      let cmd := append_word cmd (disc_mount_options (cfg w)) in
      let cmd := strncat MAX_CMD_LEN cmd (" " ++ dquote) in
      let cmd := strncat MAX_CMD_LEN cmd resolved_iso in
      let cmd := strncat MAX_CMD_LEN cmd dquote in
      let cmd := append_word cmd (disc_mount_arguments (cfg w)) in
      snd (run_process cmd None (disc_mount_wait (cfg w)) w1).

Definition action_unmount_disc_with_app (w : World) : World :=
  if str_empty (disc_unmount_app (cfg w)) || str_empty (iso_path (cfg w)) then
    action_unmount_iso w
  else
    let resolved_app := resolve_path (disc_unmount_app (cfg w)) MAX_PATH_LEN w in
    let resolved_iso := resolve_path (iso_path (cfg w)) MAX_PATH_LEN w in
    if negb (file_exists resolved_app w) then action_unmount_iso w
    else
      let w1 := show_message "Unmounting disc with external app..." w in
      let cmd := snprintf MAX_CMD_LEN (quoted resolved_app) in
      let cmd := append_word cmd (disc_unmount_options (cfg w)) in
      let cmd := strncat MAX_CMD_LEN cmd (" --unmount " ++ dquote) in
      let cmd := strncat MAX_CMD_LEN cmd resolved_iso in
      let cmd := strncat MAX_CMD_LEN cmd dquote in
      let cmd := append_word cmd (disc_unmount_arguments (cfg w)) in
      snd (run_process cmd None (disc_unmount_wait (cfg w)) w1).

(** *** Sequence execution *)

Definition execute_action (fuel : nat) (action : string) (is_exit_sequence : bool)
  (w : World) : result World :=
  let w := show_message action w in
  if String.eqb action "Kill-Game" then action_kill_game fuel w
  else if String.eqb action "Kill-List" then action_kill_process_list fuel w
  else if String.eqb action "Controller-Mapper" then
    if is_exit_sequence then action_kill_controller_mapper fuel w
    else Ok (action_run_controller_mapper false w)
  else if String.eqb action "Monitor-Config" then
    if is_exit_sequence then Ok (action_run_monitor_config_desktop w)
    else Ok (action_run_monitor_config_game w)
  else if String.eqb action "No-TB" then
    if negb is_exit_sequence then Ok (action_hide_taskbar w) else Ok w
  else if String.eqb action "Taskbar" then
    if is_exit_sequence then Ok (action_show_taskbar w) else Ok w
  else if String.eqb action "Borderless" then
    if is_exit_sequence then action_kill_borderless fuel w
    else Ok (action_run_borderless w)
  else if String.eqb action "Cloud-Sync" then Ok (action_run_cloud_sync w)
  else if String.eqb action "mount-disc" then
    if negb is_exit_sequence then Ok (action_mount_disc_with_app w) else Ok w
  else if String.eqb action "Unmount-disc" then
    if is_exit_sequence then Ok (action_unmount_disc_with_app w) else Ok w
  else if String.eqb action "Pre1" then
    Ok (action_run_generic_app (pre_launch_app_1 (cfg w)) (pre_launch_app_1_wait (cfg w))
          (pre_launch_app_1_options (cfg w)) (pre_launch_app_1_arguments (cfg w)) w)
  else if String.eqb action "Pre2" then
    Ok (action_run_generic_app (pre_launch_app_2 (cfg w)) (pre_launch_app_2_wait (cfg w))
          (pre_launch_app_2_options (cfg w)) (pre_launch_app_2_arguments (cfg w)) w)
  else if String.eqb action "Pre3" then
    Ok (action_run_generic_app (pre_launch_app_3 (cfg w)) (pre_launch_app_3_wait (cfg w))
          (pre_launch_app_3_options (cfg w)) (pre_launch_app_3_arguments (cfg w)) w)
  else if String.eqb action "Post1" then
    Ok (action_run_generic_app (post_launch_app_1 (cfg w)) (post_launch_app_1_wait (cfg w))
          (post_launch_app_1_options (cfg w)) (post_launch_app_1_arguments (cfg w)) w)
  else if String.eqb action "Post2" then
    Ok (action_run_generic_app (post_launch_app_2 (cfg w)) (post_launch_app_2_wait (cfg w))
          (post_launch_app_2_options (cfg w)) (post_launch_app_2_arguments (cfg w)) w)
  else if String.eqb action "Post3" then
    Ok (action_run_generic_app (post_launch_app_3 (cfg w)) (post_launch_app_3_wait (cfg w))
          (post_launch_app_3_options (cfg w)) (post_launch_app_3_arguments (cfg w)) w)
  else if String.eqb action "JustAfterLaunch" then
    Ok (action_run_generic_app (just_after_launch_app (cfg w)) (just_after_launch_wait (cfg w))
          (just_after_launch_options (cfg w)) (just_after_launch_arguments (cfg w)) w)
  else if String.eqb action "JustBeforeExit" then
    Ok (action_run_generic_app (just_before_exit_app (cfg w)) (just_before_exit_wait (cfg w))
          (just_before_exit_options (cfg w)) (just_before_exit_arguments (cfg w)) w)
  else
    Ok (show_message (snprintf 256 ("  - Unknown action: " ++ action)) w).

(** [_strdup] is taken to succeed. *)
Definition execute_sequence (fuel : nat) (sequence_str : string)
  (is_exit_sequence : bool) (w : World) : result World :=
  if str_empty sequence_str then Ok w
  else
    let (token, context) := strtok_s (Some sequence_str) "," None in
    token_loop (S (String.length sequence_str))
      (fun action => execute_action fuel action is_exit_sequence) token context w.

(** [ShellExecuteA(NULL, "runas", file, ...)]: when it succeeds the game
    runs, but the launcher holds no handle to it.  Whether the launcher
    may open the elevated process is what the two lists of refused
    processes say of its id. *)
Definition ShellExecute_runas (file : string) (w : World) : bool * World :=
  let w1 := emit (EvShellExecute "runas" file) w in
  if os_runas_ok (os w) then
    let id := os_next_id (os w1) in
    let pe := {| th32ProcessID := id;
                 th32ParentProcessID := os_current_pid (os w1);
                 szExeFile := file_part file |} in
    (true,
     with_os (fun o =>
       set_os_next_id (id + 4)%N
         (set_os_processes (os_processes o ++ [pe])%list o)) w1)
  else (false, w1).

Definition run_game_process (w : World) : World :=
  let w := show_message "Running game..." w in
  if str_empty (executable (cfg w)) then
    show_message "No game executable configured." w
  else
    let working_dir :=
      if negb (str_empty (directory (cfg w))) then Some (directory (cfg w)) else None in
    if run_as_admin (cfg w) then
      let (ok, w1) := ShellExecute_runas (executable (cfg w)) w in
      if negb ok then show_message "Failed to launch game as administrator." w1
      else
        with_globals (fun g =>
          set_G_GAME_PROCESS_INFO
            {| hProcess := NULL;
               hThread := hThread (G_GAME_PROCESS_INFO g);
               dwProcessId := dwProcessId (G_GAME_PROCESS_INFO g);
               dwThreadId := dwThreadId (G_GAME_PROCESS_INFO g) |} g) w1
    else
      let cmd := snprintf MAX_CMD_LEN (quoted (executable (cfg w))) in
      let '(success, pi, w1) := run_process cmd working_dir false w in
      let w2 := with_globals (set_G_GAME_PROCESS_INFO pi) w1 in
      if negb success then show_message "Failed to launch game." w2 else w2.

(** *** Instance management *)

Definition write_pid_file (w : World) : World :=
  if str_empty (G_PID_FILE (globals w)) then w
  else
    match write_file (G_PID_FILE (globals w)) (print_lu (os_current_pid (os w))) w with
    | Some w' => w'
    | None => w
    end.

Definition check_instances (w : World) : bool * World :=
  if str_empty (G_PID_FILE (globals w)) then (true, w)
  else
    match fopen_r (G_PID_FILE (globals w)) w with
    | Some text =>
        match scan_lu text with
        | Some old_pid =>
            match query_exit_code old_pid w with
            | Some exit_code =>
                if N.eqb exit_code STILL_ACTIVE then
                  (false, show_message "Another instance is already running." w)
                else (true, write_pid_file w)
            | None => (true, write_pid_file w)
            end
        | None => (true, write_pid_file w)
        end
    | None => (true, write_pid_file w)
    end.

Definition cleanup_pid_file (w : World) : World :=
  if str_empty (G_PID_FILE (globals w)) then w
  else DeleteFileA (G_PID_FILE (globals w)) w.

Definition ensure_cleanup (fuel : nat) (w : World) : result World :=
  let w := show_message "Ensuring cleanup..." w in
  let w := if G_TASKBAR_WAS_HIDDEN (globals w) then action_show_taskbar w else w in
  kill_all_tracked_processes fuel w >>= fun w1 =>
  let w2 :=
    if negb (N.eqb (G_BORDERLESS_PROCESS (globals w1)) NULL) then
      with_globals (set_G_BORDERLESS_PROCESS NULL)
        (CloseHandle (G_BORDERLESS_PROCESS (globals w1)) w1)
    else w1 in
  Ok (cleanup_pid_file w2).

(** *** Configuration and entry point *)

(** The directory part of a path, up to and including its last separator:
    [last_slash = strrchr(p, '\\'); if (!last_slash) last_slash = strrchr(p, '/');]
    [keep] is 1 where the code cuts after the separator and 0 where it cuts
    at it; a path without separator is left whole. *)
Definition cut_at_last_separator (p : string) (keep : nat) : string :=
  match strrchr p backslash with
  | Some r => substring 0 (String.length p - String.length r + keep) p
  | None =>
      match strrchr p slash with
      | Some r => substring 0 (String.length p - String.length r + keep) p
      | None => p
      end
  end.

Definition has_separator (p : string) : bool :=
  match strrchr p backslash, strrchr p slash with
  | None, None => false
  | _, _ => true
  end.

(** Returns 0 when the configuration was loaded and 1 otherwise. *)
Definition load_configuration (ini_path : string) (w : World) : nat * World :=
  let log_path := strncpy ini_path (MAX_PATH_LEN - 1) in
  let w :=
    if has_separator log_path then
      let log_path := strncat MAX_PATH_LEN (cut_at_last_separator log_path 1) "launcher.log" in
      with_globals (set_G_LOG_PATH (strncpy log_path (MAX_PATH_LEN - 1))) w
    else w in
  match assoc ini_path (os_ini (os w)) with
  | None => (1, show_message "Can't load 'Game.ini'" w)
  | Some loaded =>
      (0, show_message "Configuration loaded successfully."
            (with_globals (set_G_CONFIG loaded) w))
  end.

(** The paths [main] derives from the shortcut path: [Game.ini] next to
    the shortcut, the directory that holds it, and the lock file
    [rjpids.ini] in that directory. *)
Definition ini_path_of (shortcut_path : string) : string :=
  let ini_path := strncpy shortcut_path (MAX_PATH_LEN - 1) in
  let ini_path := cut_at_last_separator ini_path 1 in
  strncat MAX_PATH_LEN ini_path "Game.ini".

Definition home_dir_of (ini_path : string) : string :=
  cut_at_last_separator (strncpy ini_path (MAX_PATH_LEN - 1)) 0.

Definition pid_file_of (home : string) : string :=
  snprintf MAX_PATH_LEN (home ++ "\rjpids.ini").

(** [main]: [argv1] is [argv[1]], absent when [argc < 2].  The result is
    the exit code and the state the process leaves behind. *)
Definition main (fuel : nat) (argv1 : option string) (w : World) : result (nat * World) :=
  match argv1 with
  | None => Ok (1, show_message "Usage: launcher.exe <path_to_shortcut>" w)
  | Some shortcut_path =>
      let ini_path := ini_path_of shortcut_path in
      let w := with_globals (set_G_HOME_DIR (home_dir_of ini_path)) w in
      let w := with_globals
        (fun g => set_G_PID_FILE (pid_file_of (G_HOME_DIR g)) g) w in
      let w := show_message "Launcher starting..." w in
      let w := with_globals (set_G_IS_ADMIN (os_is_admin (os w))) w in
      let w := if G_IS_ADMIN (globals w)
               then show_message "Running with administrator privileges." w else w in
      let (free, w) := check_instances w in
      if negb free then
        Ok (1, show_message "Another instance is already running. Exiting." w)
      else
        let w := with_globals (set_G_CONFIG zero_config) w in
        let w := with_globals (set_G_GAME_PROCESS_INFO zero_pi) w in
        let (failed, w) := load_configuration ini_path w in
        if negb (Nat.eqb failed 0) then
          Ok (1, show_message "Failed to load configuration." w)
        else
          let w := with_globals (set_G_TASKBAR_HWND (os_shell_traywnd (os w))) w in
          execute_sequence fuel (launch_sequence (cfg w)) false w >>= fun w =>
          let w := run_game_process w in
          let w :=
            if negb (N.eqb (hProcess (G_GAME_PROCESS_INFO (globals w))) NULL) then
              CloseHandle (hThread (G_GAME_PROCESS_INFO (globals w)))
                (CloseHandle (hProcess (G_GAME_PROCESS_INFO (globals w)))
                   (WaitForSingleObject (hProcess (G_GAME_PROCESS_INFO (globals w))) w))
            else w in
          execute_sequence fuel (exit_sequence (cfg w)) true w >>= fun w =>
          ensure_cleanup fuel w >>= fun w =>
          Ok (0, show_message "Launcher finished." w)
  end.

(** ** tray_menu.c *)

Definition set_tray_running (v : bool) (t : TrayMenu) : TrayMenu :=
  {| tray_hwnd := tray_hwnd t; tray_running := v;
     tray_ini_path := tray_ini_path t; tray_lnk_path := tray_lnk_path t |}.

Definition tray_cleanup (w : World) : World :=
  if tray_running (G_TRAY_MENU (globals w)) then
    let w1 := emit EvNotifyIconDelete w in
    let w2 :=
      if negb (N.eqb (tray_hwnd (G_TRAY_MENU (globals w1))) NULL)
      then emit (EvDestroyWindow (tray_hwnd (G_TRAY_MENU (globals w1)))) w1
      else w1 in
    log_message "INFO" "Tray menu cleaned up"
      (with_globals (fun g => set_G_TRAY_MENU (set_tray_running false (G_TRAY_MENU g)) g) w2)
  else w.

Definition tray_stop_game (fuel : nat) (w : World) : result World :=
  let w := log_message "INFO" "Stop requested from tray menu" w in
  execute_sequence fuel (exit_sequence (cfg w)) true w >>= fun w =>
  if negb (N.eqb (hProcess (G_GAME_PROCESS_INFO (globals w))) NULL) then
    terminate_process_tree fuel (dwProcessId (G_GAME_PROCESS_INFO (globals w))) w
    >>= fun w1 =>
    Ok (log_message "INFO" "Game process terminated"
          (with_globals (set_G_GAME_PROCESS_INFO zero_pi)
             (CloseHandle (hThread (G_GAME_PROCESS_INFO (globals w1)))
                (CloseHandle (hProcess (G_GAME_PROCESS_INFO (globals w1))) w1))))
  else Ok w.

(** [ExitProcess(0)] ends the process: nothing of the program runs after
    the [EvExitProcess] event. *)
Definition tray_exit_launcher (fuel : nat) (w : World) : result World :=
  let w := log_message "INFO" "Exit requested from tray menu" w in
  tray_stop_game fuel w >>= fun w =>
  Ok (emit (EvExitProcess 0) (tray_cleanup w)).

Definition tray_kill_all (fuel : nat) (w : World) : result World :=
  let w := log_message "INFO" "Kill all requested from tray menu" w in
  let w :=
    if negb (N.eqb (hProcess (G_GAME_PROCESS_INFO (globals w))) NULL) then
      log_message "INFO" "Game process killed"
        (with_globals (set_G_GAME_PROCESS_INFO zero_pi)
           (CloseHandle (hThread (G_GAME_PROCESS_INFO (globals w)))
              (CloseHandle (hProcess (G_GAME_PROCESS_INFO (globals w)))
                 (TerminateProcess (hProcess (G_GAME_PROCESS_INFO (globals w))) w))))
    else w in
  action_kill_process_list fuel w >>= fun w =>
  ensure_cleanup fuel w >>= fun w =>
  tray_exit_launcher fuel w.

Definition tray_restart_launcher (fuel : nat) (w : World) : result World :=
  let w := log_message "INFO" "Restart requested from tray menu" w in
  if negb (str_empty (tray_lnk_path (G_TRAY_MENU (globals w)))) then
    tray_stop_game fuel w >>= fun w =>
    let w := emit (EvShellExecute "open" (tray_lnk_path (G_TRAY_MENU (globals w)))) w in
    let w := log_message "INFO" "Launcher restarted" w in
    tray_exit_launcher fuel w
  else Ok (show_message "No launcher link file found for restart" w).

(** The commands of the tray menu that reach the launcher's core
    ([WM_COMMAND] in [tray_wnd_proc]); the two configuration dialogs do
    not touch the state modelled here. *)
Inductive TrayCommand : Type :=
| ID_TRAY_RESTART
| ID_TRAY_STOP
| ID_TRAY_KILL
| ID_TRAY_EXIT.

Definition tray_wnd_proc (command : TrayCommand) (fuel : nat) (w : World) : result World :=
  match command with
  | ID_TRAY_RESTART => tray_restart_launcher fuel w
  | ID_TRAY_STOP => tray_stop_game fuel w
  | ID_TRAY_KILL => tray_kill_all fuel w
  | ID_TRAY_EXIT => tray_exit_launcher fuel w
  end.

(** ** Notions used to state the properties *)

(** *** Sequences: what the specification calls the tokens of a sequence *)

(** The fields of a comma-separated text, empty ones included. *)
Fixpoint split_commas (s : string) : list string :=
  match s with
  | EmptyString => [EmptyString]
  | String c s' =>
      if Ascii.eqb c comma then EmptyString :: split_commas s'
      else
        match split_commas s' with
        | field :: fields => String c field :: fields
        | [] => [String c EmptyString]
        end
  end.

(** A text without its trailing blanks. *)
Fixpoint strip_right (s : string) : string :=
  match s with
  | EmptyString => EmptyString
  | String c s' =>
      match strip_right s' with
      | EmptyString => if is_blank c then EmptyString else String c EmptyString
      | String c' r => String c (String c' r)
      end
  end.

(** A text without its leading blanks. *)
Fixpoint strip_left (s : string) : string :=
  match s with
  | EmptyString => EmptyString
  | String c s' => if is_blank c then strip_left s' else String c s'
  end.

Definition strip (s : string) : string := strip_right (strip_left s).

(** Specification of the tokens of a sequence: the comma-separated fields,
    each without leading and trailing blanks, the empty ones dropped, in
    the order of the text. *)
Definition trimmed_tokens (s : string) : list string :=
  filter (fun t => negb (str_empty t)) (map strip (split_commas s)).

Fixpoint all_blank (s : string) : bool :=
  match s with
  | EmptyString => true
  | String c s' => is_blank c && all_blank s'
  end.

Definition first_char (s : string) : option ascii :=
  match s with EmptyString => None | String c _ => Some c end.

Fixpoint last_char (s : string) : option ascii :=
  match s with
  | EmptyString => None
  | String c EmptyString => Some c
  | String _ s' => last_char s'
  end.

(** The fields [strtok_s] returns: the non-empty ones. *)
Definition nonempty_fields (s : string) : list string :=
  filter (fun f => negb (str_empty f)) (split_commas s).

Definition context_fields (context : option string) : list string :=
  match context with None => [] | Some r => nonempty_fields r end.

(** The current token of the loop and those still to come. *)
Definition pending_tokens (token context : option string) : list string :=
  match token with None => [] | Some t => t :: context_fields context end.

(** The action names [execute_action] has a branch for. *)
Definition known_actions : list string :=
  ["Kill-Game"; "Kill-List"; "Controller-Mapper"; "Monitor-Config"; "No-TB";
   "Taskbar"; "Borderless"; "Cloud-Sync"; "mount-disc"; "Unmount-disc";
   "Pre1"; "Pre2"; "Pre3"; "Post1"; "Post2"; "Post3";
   "JustAfterLaunch"; "JustBeforeExit"].

Definition run_actions (fuel : nat) (is_exit_sequence : bool) (actions : list string)
  (w : World) : result World :=
  for_each (fun action => execute_action fuel action is_exit_sequence) actions w.

(** The taskbar window exists and the cached handle, if any, is its handle. *)
Definition taskbar_found (w : World) : bool :=
  negb (N.eqb (os_shell_traywnd (os w)) NULL) &&
  (N.eqb (G_TASKBAR_HWND (globals w)) NULL ||
   N.eqb (G_TASKBAR_HWND (globals w)) (os_shell_traywnd (os w))).

(** *** Process trees *)

Definition pids (snapshot : list PROCESSENTRY32) : list DWORD :=
  map th32ProcessID snapshot.

(** The direct children of [pid] in a snapshot, in snapshot order. *)
Definition children (pid : DWORD) (snapshot : list PROCESSENTRY32) : list DWORD :=
  pids (filter (fun pe => N.eqb (th32ParentProcessID pe) pid) snapshot).

(** The processes terminated in a trace, in the order of termination. *)
Fixpoint terminated (t : list Event) : list DWORD :=
  match t with
  | [] => []
  | EvTerminateProcess pid :: t' => pid :: terminated t'
  | _ :: t' => terminated t'
  end.

(** The handles closed in a trace. *)
Fixpoint closed (t : list Event) : list HANDLE :=
  match t with
  | [] => []
  | EvCloseHandle h :: t' => h :: closed t'
  | _ :: t' => closed t'
  end.

(** [a] occurs in [l] before [b] does. *)
Definition before {A : Type} (a b : A) (l : list A) : Prop :=
  exists l1 l2 l3, l = (l1 ++ a :: l2 ++ b :: l3)%list.

Fixpoint distinct (l : list N) : bool :=
  match l with
  | [] => true
  | x :: rest => negb (existsb (N.eqb x) rest) && distinct rest
  end.

(** [h] bounds the depth of the process tree: wherever [h] is positive on
    a parent it is positive and smaller on each of its children.  A
    process with [h = 0] is outside the trees considered (the idle
    process of Windows is its own parent). *)
Definition tree_below (h : DWORD -> nat) (snapshot : list PROCESSENTRY32) : bool :=
  forallb
    (fun pe =>
       Nat.eqb (h (th32ParentProcessID pe)) 0 ||
       (Nat.ltb 0 (h (th32ProcessID pe)) &&
        Nat.ltb (h (th32ProcessID pe)) (h (th32ParentProcessID pe))))
    snapshot.

(** [descends snapshot a x]: [x] is [a] or is reached from [a] along
    parent links of the snapshot. *)
Inductive descends (snapshot : list PROCESSENTRY32) (a : DWORD) : DWORD -> Prop :=
| descends_self : descends snapshot a a
| descends_child pe :
    In pe snapshot ->
    descends snapshot a (th32ParentProcessID pe) ->
    descends snapshot a (th32ProcessID pe).

(** [collected snapshot a x]: [x] is [a] or is reached from [a] through
    the loops of [terminate_process_tree], each step going from a process
    to one of the children that fit in [child_pids], the first 256 of its
    children in the snapshot. *)
Inductive collected (snapshot : list PROCESSENTRY32) (a : DWORD) : DWORD -> Prop :=
| collected_self : collected snapshot a a
| collected_child p c :
    collected snapshot a p ->
    In c (firstn 256 (children p snapshot)) ->
    collected snapshot a c.

(** The state after the processes [killed] were terminated one by one. *)
Definition kill_now (pid : DWORD) (w : World) : World :=
  emit (EvTerminateProcess pid)
    (with_os (fun o =>
       set_os_processes
         (filter (fun pe => negb (N.eqb (th32ProcessID pe) pid)) (os_processes o)) o) w).

Definition after_kills (killed : list DWORD) (w : World) : World :=
  fold_left (fun w' pid => kill_now pid w') killed w.

(** *** Registry *)

Definition names_unique (registry : list TrackedProcess) : Prop :=
  NoDup (map tp_name registry).

(** Several [add_tracked_process] calls in a row. *)
Definition add_all (entries : list (string * PROCESS_INFORMATION)) (w : World) : World :=
  fold_left (fun w' e => add_tracked_process (fst e) (snd e) w') entries w.

(** *** Instance lock *)

(** What the lock file holds, if it exists. *)
Definition lock_file (w : World) : option string :=
  fopen_r (G_PID_FILE (globals w)) w.

(** The lock path is set and the file can be written. *)
Definition lock_usable (w : World) : bool :=
  negb (str_empty (G_PID_FILE (globals w))) &&
  negb (mem_string (G_PID_FILE (globals w)) (os_write_denied (os w))).



(** The lock was refused: failure, and no file was touched. *)
Definition lock_refused (w : World) : Prop :=
  fst (check_instances w) = false /\
  os_files (os (snd (check_instances w))) = os_files (os w) /\
  trace (snd (check_instances w)) = trace w.

(** The snapshot entries of processes not among [killed]. *)
Definition survives (killed : list DWORD) (pe : PROCESSENTRY32) : bool :=
  negb (existsb (N.eqb (th32ProcessID pe)) killed).

(** A process is terminated before the processes it descends from:
    children before their parent, and every subtree before its root. *)
Definition subtrees_first (snapshot : list PROCESSENTRY32) (killed : list DWORD) : Prop :=
  forall x y,
    In x killed -> In y killed -> x <> y -> descends snapshot y x ->
    before x y killed.

(** What one call [terminate_process_tree(root)] terminates, given the
    snapshot at the time of the call, the processes [OpenProcess] gives a
    handle of and the list [killed] of processes it terminated, in order:
    each once; exactly the running processes among [root] and what is
    collected below it that can be opened; [root] last; every subtree
    before its root. *)
Definition tree_killed (snapshot : list PROCESSENTRY32) (openable : DWORD -> bool)
  (root : DWORD) (killed : list DWORD) : Prop :=
  NoDup killed /\
  (forall x, In x killed <->
             In x (pids snapshot) /\ collected snapshot root x /\ openable x = true) /\
  (In root killed -> exists killed', killed = (killed' ++ [root])%list) /\
  subtrees_first snapshot killed.

(** Snapshots can be taken, no process id occurs twice in them, and [h]
    bounds the depth of the trees. *)
Definition snapshot_tree (h : DWORD -> nat) (w : World) : Prop :=
  os_snapshot_ok (os w) = true /\
  NoDup (pids (processes w)) /\
  tree_below h (processes w) = true.

(** With a budget of [fuel], what [terminate_process_tree] does on the
    trees of depth at most [fuel]. *)
Definition tree_done (h : DWORD -> nat) (fuel : nat) : Prop :=
  forall pid w,
    snapshot_tree h w -> 0 < h pid -> h pid <= fuel ->
    exists killed,
      terminate_process_tree fuel pid w = Ok (after_kills killed w) /\
      tree_killed (processes w) (fun x => can_terminate x w) pid killed.

(** The state with what was printed and logged blanked out: two states
    with the same [silent] image differ in their output only. *)
Definition silent (w : World) : World :=
  with_os (fun o => set_os_console [] (set_os_log [] o)) w.

(** ** Concrete states used in the examples *)

Definition quiet_os : OS :=
  {| os_processes := [];
     os_exited := [];
     os_snapshot_ok := true;
     os_handles := [];
     os_next_id := 5000%N;
     os_current_pid := 4242%N;
     os_programs := [];
     os_files := [];
     os_write_denied := [];
     os_ini := [];
     os_shell_traywnd := 77%N;
     os_taskbar_visible := true;
     os_is_admin := false;
     os_runas_ok := false;
     os_trace := [];
     os_console := [];
     os_log := [];
     os_query_denied := [];
     os_terminate_denied := [] |}.

Definition quiet_world : World := {| globals := initial_globals; os := quiet_os |}.

Definition entry (pid parent : N) (image : string) : PROCESSENTRY32 :=
  {| th32ProcessID := pid; th32ParentProcessID := parent; szExeFile := image |}.

Definition handle_info (h : N) : PROCESS_INFORMATION :=
  {| hProcess := h; hThread := (h + 1)%N; dwProcessId := (h + 2)%N; dwThreadId := (h + 3)%N |}.

(** The controller mapper was started once and is tracked. *)
Definition mapper_tracked : World :=
  add_tracked_process "controller_mapper" (handle_info 100) quiet_world.

(** The registry entry an [add_tracked_process] call stores. *)
Definition stored_entry (e : string * PROCESS_INFORMATION) : TrackedProcess :=
  {| tp_name := strncpy (fst e) (MAX_NAME_LEN - 1); tp_pi := snd e |}.

(** A launcher about to check for other instances: the lock path is set,
    [files] and [running] are what the system holds. *)
Definition at_lock_check (files : list (string * string))
  (running : list PROCESSENTRY32) : World :=
  with_os (fun o => set_os_files files (set_os_processes running o))
    (with_globals (set_G_PID_FILE "C:\Games\Doom\rjpids.ini") quiet_world).

Definition lock_absent : World := at_lock_check [] [].
Definition lock_held : World :=
  at_lock_check [("C:\Games\Doom\rjpids.ini", "3110")]
    [entry 4 0 "System"; entry 3110 900 "launcher.exe"].




(** A configuration that only sets the taskbar option and the two
    sequences. *)
Definition scenario_config (hide : bool) (launch exit : string) : GameConfiguration :=
  Build_GameConfiguration
    EmptyString EmptyString EmptyString EmptyString
    EmptyString EmptyString EmptyString EmptyString EmptyString EmptyString EmptyString EmptyString EmptyString EmptyString EmptyString EmptyString EmptyString EmptyString EmptyString EmptyString EmptyString
    EmptyString EmptyString EmptyString false EmptyString EmptyString EmptyString false
    false hide EmptyString false false EmptyString
    EmptyString EmptyString EmptyString EmptyString EmptyString EmptyString EmptyString EmptyString EmptyString false false false
    EmptyString EmptyString EmptyString EmptyString EmptyString EmptyString EmptyString EmptyString EmptyString EmptyString EmptyString EmptyString EmptyString EmptyString EmptyString
    false false false false false
    launch exit.

(** The launcher after its configuration was loaded and the taskbar
    window looked up, as [main] has it before the launch sequence. *)
Definition configured (c : GameConfiguration) : World :=
  with_globals (fun g => set_G_TASKBAR_HWND 77%N (set_G_CONFIG c g)) quiet_world.

Definition hide_option_off : World := configured (scenario_config false "No-TB" "Taskbar").
Definition hide_option_on : World := configured (scenario_config true "No-TB" "Taskbar").

(** The taskbar was hidden by an earlier launch sequence. *)
Definition taskbar_hidden : World :=
  with_os (set_os_taskbar_visible false)
    (with_globals (set_G_TASKBAR_WAS_HIDDEN true) hide_option_on).

(** The synthetic process graph root -> {A, B}, A -> {C}, next to the
    idle process, which is its own parent, and the system process:
    root is 10, A is 11, B is 12 and C is 13. *)
Definition synthetic_tree : World :=
  with_os
    (set_os_processes
       [entry 0 0 "[System Process]"; entry 4 0 "System";
        entry 10 4 "game.exe"; entry 11 10 "A.exe"; entry 12 10 "B.exe";
        entry 13 11 "C.exe"])
    quiet_world.

Definition synthetic_height (pid : DWORD) : nat :=
  if N.eqb pid 10 then 3
  else if N.eqb pid 11 then 2
  else if N.eqb pid 12 || N.eqb pid 13 then 1
  else 0.


(** A process, 10, with 300 children, 1000 to 1299. *)
Definition crowded : World :=
  with_os
    (set_os_processes
       (entry 4 0 "System" :: entry 10 4 "game.exe" ::
        map (fun i => entry (1000 + N.of_nat i) 10 "helper.exe") (seq 0 300)))
    quiet_world.

Definition crowded_height (pid : DWORD) : nat :=
  if N.eqb pid 10 then 2 else if N.leb 1000 pid then 1 else 0.

(** Two tracked helpers, the processes A and B of the synthetic graph. *)
Definition two_helpers : World :=
  with_os (set_os_handles [(501%N, 11%N); (601%N, 12%N)])
    (with_globals
       (set_G_TRACKED_PROCESSES
          [ {| tp_name := "controller_mapper";
               tp_pi := {| hProcess := 501%N; hThread := 502%N;
                           dwProcessId := 11%N; dwThreadId := 503%N |} |};
            {| tp_name := "C:\tools\sync.exe";
               tp_pi := {| hProcess := 601%N; hThread := 602%N;
                           dwProcessId := 12%N; dwThreadId := 603%N |} |} ])
       synthetic_tree).

(** The lock file path for a shortcut in [C:\Games\Doom]. *)
Definition doom_shortcut : string := "C:\Games\Doom\Doom.lnk".

(** A run in progress, started from [doom_shortcut]: the lock file is
    held, the controller mapper is tracked and running, the taskbar was
    hidden by the launch sequence, the game was started elevated so no
    handle is held, the tray icon is up and the exit sequence is empty. *)
Definition mid_run : World :=
  with_os
    (fun o =>
       set_os_taskbar_visible false
         (set_os_files [("C:\Games\Doom\rjpids.ini", "4242")]
            (set_os_handles [(501%N, 11%N)]
               (set_os_processes
                  [entry 4 0 "System"; entry 4242 900 "launcher.exe";
                   entry 11 4242 "antimicrox.exe"; entry 20 900 "doom.exe"] o))))
    (with_globals
       (fun g =>
          set_G_TRAY_MENU
            {| tray_hwnd := 88%N; tray_running := true;
               tray_ini_path := "C:\Games\Doom\Game.ini";
               tray_lnk_path := EmptyString |}
            (set_G_PID_FILE "C:\Games\Doom\rjpids.ini"
               (set_G_HOME_DIR "C:\Games\Doom"
                  (set_G_TASKBAR_WAS_HIDDEN true
                     (set_G_TASKBAR_HWND 77%N
                        (set_G_TRACKED_PROCESSES
                           [ {| tp_name := "controller_mapper";
                                tp_pi := {| hProcess := 501%N; hThread := 502%N;
                                            dwProcessId := 11%N; dwThreadId := 503%N |} |} ]
                           (set_G_CONFIG (scenario_config true "No-TB" EmptyString) g)))))))
       quiet_world).

(** A first start from [doom_shortcut]: no lock file, and a [Game.ini]
    that asks for the taskbar to be hidden at launch and names no game. *)
Definition doom_ready : World :=
  {| globals := initial_globals;
     os := Build_OS [entry 4 0 "System"; entry 4242 900 "launcher.exe"] [] true []
             5000%N 4242%N [] [] []
             [("C:\Games\Doom\Game.ini", scenario_config true "No-TB" EmptyString)]
             77%N true false false [] [] [] [] [] |}.

(** ** Further notions, for the properties beyond the sequence engine *)

(** Every character of [s] is one of [delim]. *)
Fixpoint all_delims (s delim : string) : bool :=
  match s with
  | EmptyString => true
  | String c s' => in_delim c delim && all_delims s' delim
  end.

(** No character of [s] is one of [delim]. *)
Fixpoint no_delims (s delim : string) : bool :=
  match s with
  | EmptyString => true
  | String c s' => negb (in_delim c delim) && no_delims s' delim
  end.

(** What is left to scan after a token: nothing, or a delimiter and the
    saved context. *)
Definition tail_of_context (context : option string) (delim tail : string) : Prop :=
  match context with
  | None => tail = EmptyString
  | Some r => exists d, in_delim d delim = true /\ tail = String d r
  end.

(** A text with its letters A to Z in lower case. *)
Fixpoint lower_string (s : string) : string :=
  match s with
  | EmptyString => EmptyString
  | String c s' => String (lower c) (lower_string s')
  end.

(** No process of the snapshot has more than 256 children, the capacity of
    [child_pids] in [terminate_process_tree]. *)
Definition fan_out_bounded (snapshot : list PROCESSENTRY32) : bool :=
  forallb
    (fun pe => Nat.leb (List.length (children (th32ParentProcessID pe) snapshot)) 256)
    snapshot.

(** With a budget of [fuel], [terminate_process_tree] terminates exactly
    the running descendants of its argument that can be opened, in the
    trees of depth at most [fuel] whose fan-out is bounded. *)
Definition whole_tree_done (h : DWORD -> nat) (fuel : nat) : Prop :=
  forall pid w,
    snapshot_tree h w -> fan_out_bounded (processes w) = true ->
    0 < h pid -> h pid <= fuel ->
    exists killed,
      terminate_process_tree fuel pid w = Ok (after_kills killed w) /\
      (forall x, In x killed <->
                 In x (pids (processes w)) /\ descends (processes w) pid x /\
                 can_terminate x w = true).


(** Every name of the registry fits [TrackedProcess.name]. *)
Definition names_fit (registry : list TrackedProcess) : Prop :=
  Forall (fun tp => String.length (tp_name tp) < MAX_NAME_LEN) registry.

(** A path of 300 characters. *)
Definition long_tool_path : string :=
  "C:\" ++ string_of_list_ascii (repeat "t"%char 293) ++ ".exe".

From Stdlib Require Numbers.DecimalN.

(** A text of blanks and commas only. *)
Fixpoint only_separators (s : string) : bool :=
  match s with
  | EmptyString => true
  | String c s' => (is_blank c || Ascii.eqb c comma) && only_separators s'
  end.

(** A configuration that sets the executable, the controller mapper and
    the profile of the first player, the elevation and kill list options,
    the kill list and the two sequences. *)
Definition game_config (exe mapper profile : string) (admin use_list : bool)
  (list launch exit : string) : GameConfiguration :=
  Build_GameConfiguration
    exe EmptyString EmptyString EmptyString
    mapper EmptyString EmptyString EmptyString EmptyString EmptyString EmptyString EmptyString EmptyString profile EmptyString EmptyString EmptyString EmptyString EmptyString EmptyString EmptyString
    EmptyString EmptyString EmptyString false EmptyString EmptyString EmptyString false
    admin false EmptyString use_list false list
    EmptyString EmptyString EmptyString EmptyString EmptyString EmptyString EmptyString EmptyString EmptyString false false false
    EmptyString EmptyString EmptyString EmptyString EmptyString EmptyString EmptyString EmptyString EmptyString EmptyString EmptyString EmptyString EmptyString EmptyString EmptyString
    false false false false false
    launch exit.




(** The two tracked helpers on a system where [OpenProcess] gives no
    handle for terminating the system process nor A. *)
Definition guarded_helpers : World :=
  with_os (set_os_terminate_denied [4; 11]%N) two_helpers.

(** The two tracked helpers on a system that refuses process snapshots. *)
Definition without_snapshots : World :=
  with_os
    (fun o =>
       Build_OS (os_processes o) (os_exited o) false (os_handles o) (os_next_id o)
         (os_current_pid o) (os_programs o) (os_files o) (os_write_denied o) (os_ini o)
         (os_shell_traywnd o) (os_taskbar_visible o) (os_is_admin o) (os_runas_ok o)
         (os_trace o) (os_console o) (os_log o) (os_query_denied o)
         (os_terminate_denied o))
    two_helpers.

(** A system on which the tool [C:\tools\sync.exe] exists and can be
    started with no arguments. *)
Definition sync_ready : World :=
  with_os
    (fun o =>
       Build_OS (os_processes o) (os_exited o) (os_snapshot_ok o) (os_handles o)
         (os_next_id o) (os_current_pid o)
         [(quoted "C:\tools\sync.exe", "sync.exe")]
         [("C:\tools\sync.exe", EmptyString)]
         (os_write_denied o) (os_ini o) (os_shell_traywnd o) (os_taskbar_visible o)
         (os_is_admin o) (os_runas_ok o) (os_trace o) (os_console o) (os_log o)
         (os_query_denied o) (os_terminate_denied o))
    quiet_world.

(** The next process id and the handles that come with it are not in use:
    no process of the snapshot has that id or that parent, the launcher
    is another process, and the two handles are not open. *)
Definition next_id_fresh (w : World) : bool :=
  forallb
    (fun pe =>
       negb (N.eqb (th32ProcessID pe) (os_next_id (os w))) &&
       negb (N.eqb (th32ParentProcessID pe) (os_next_id (os w))))
    (processes w) &&
  negb (N.eqb (os_current_pid (os w)) (os_next_id (os w))) &&
  forallb
    (fun hp =>
       negb (N.eqb (fst hp) (os_next_id (os w) + 1)) &&
       negb (N.eqb (fst hp) (os_next_id (os w) + 2)))
    (os_handles (os w)).

(** A system on which the controller mapper and the profile of the first
    player exist, and the mapper can be started on that profile. *)
Definition mapper_ready : World :=
  with_os
    (fun o =>
       Build_OS [entry 4 0 "System"; entry 4242 900 "launcher.exe"]
         (os_exited o) (os_snapshot_ok o) (os_handles o)
         (os_next_id o) (os_current_pid o)
         [(quoted "C:\tools\antimicrox.exe" ++ "  --tray --hidden --profile " ++
           quoted "C:\profiles\p1.amgp" ++ " ", "antimicrox.exe")]
         [("C:\tools\antimicrox.exe", EmptyString); ("C:\profiles\p1.amgp", EmptyString)]
         (os_write_denied o) (os_ini o) (os_shell_traywnd o) (os_taskbar_visible o)
         (os_is_admin o) (os_runas_ok o) (os_trace o) (os_console o) (os_log o)
         (os_query_denied o) (os_terminate_denied o))
    (with_globals
       (set_G_CONFIG
          (game_config "C:\Games\Doom\game.exe" "C:\tools\antimicrox.exe"
             "C:\profiles\p1.amgp" false false EmptyString
             "Controller-Mapper" "Controller-Mapper"))
       quiet_world).

(** [w] with other output: the console lines [c], the log lines [l] and
    the path [p] of the log file. *)
Definition loud (c : list string) (l : list (string * string)) (p : string) (w : World)
  : World :=
  with_globals (set_G_LOG_PATH p)
    (with_os (fun o => set_os_console c (set_os_log l o)) w).

(** The log after [log_message("INFO", m)] in the state [w] with the log
    file at [p], from [l]. *)
Definition logged (p m : string) (l : list (string * string)) (w : World)
  : list (string * string) :=
  if str_empty p then l
  else if mem_string p (os_write_denied (os w)) then l
  else (l ++ [("INFO", m)])%list.

(** A launcher about to start, next to a configuration that names a game
    and leaves both sequences without action. *)
Definition plain_config : GameConfiguration :=
  game_config "C:\Games\Doom\doom.exe" EmptyString EmptyString false false EmptyString
    " , " EmptyString.

Definition plain_game : World :=
  {| globals := initial_globals;
     os := Build_OS [entry 4 0 "System"; entry 4242 900 "launcher.exe"] [] true []
             5000%N 4242%N [(quoted "C:\Games\Doom\doom.exe", "doom.exe")] [] []
             [("C:\Games\Doom\Game.ini", plain_config)]
             77%N true false false [] [] [] [] [] |}.

(** The same launcher with a game that is to be started elevated, on a
    system where the elevation is granted. *)
Definition elevated_config : GameConfiguration :=
  game_config "C:\Games\Doom\doom.exe" EmptyString EmptyString true false EmptyString
    EmptyString " ".

Definition elevated_game : World :=
  {| globals := initial_globals;
     os := Build_OS [entry 4 0 "System"; entry 4242 900 "launcher.exe"] [] true []
             5000%N 4242%N [] [] []
             [("C:\Games\Doom\Game.ini", elevated_config)]
             77%N true false true [] [] [] [] [] |}.

(** The game of the synthetic process graph, process 10, was started by
    the launcher, which holds its handles. *)
Definition game_running : World :=
  with_globals
    (set_G_GAME_PROCESS_INFO
       {| hProcess := 701%N; hThread := 702%N; dwProcessId := 10%N; dwThreadId := 703%N |})
    (with_os (set_os_handles [(701%N, 10%N)]) synthetic_tree).

(** The same, on a system where [OpenProcess] gives no handle for
    terminating the system process nor A. *)
Definition guarded_game : World :=
  with_os (set_os_terminate_denied [4; 11]%N) game_running.

(** The launcher holds the handle of a borderless windowing tool, process
    12 of the synthetic graph. *)
Definition borderless_open : World :=
  with_globals (set_G_BORDERLESS_PROCESS 801%N)
    (with_os (set_os_handles [(801%N, 12%N)]) synthetic_tree).

(** The cached taskbar handle is not the handle of the taskbar. *)
Definition stale_taskbar : World :=
  with_globals (set_G_TASKBAR_HWND 55%N) quiet_world.

(** * Properties *)

Local Open Scope list_scope.

(** ** Process registry *)

Lemma tracked_add_tracked_process (n : string) (pi : PROCESS_INFORMATION) (w : World) :
  tracked (add_tracked_process n pi w) =
  {| tp_name := strncpy n (MAX_NAME_LEN - 1); tp_pi := pi |} :: tracked w.
Proof. reflexivity. Qed.

Lemma os_add_tracked_process (n : string) (pi : PROCESS_INFORMATION) (w : World) :
  os (add_tracked_process n pi w) = os w.
Proof. reflexivity. Qed.

Lemma find_first_head (n : string) (pi : PROCESS_INFORMATION) (l : list TrackedProcess) :
  find_first n ({| tp_name := n; tp_pi := pi |} :: l) = Some {| tp_name := n; tp_pi := pi |}.
Proof. simpl. rewrite String.eqb_refl. reflexivity. Qed.

Lemma unlink_first_head (n : string) (pi : PROCESS_INFORMATION) (l : list TrackedProcess) :
  unlink_first n ({| tp_name := n; tp_pi := pi |} :: l) = l.
Proof. simpl. rewrite String.eqb_refl. reflexivity. Qed.

Lemma find_first_skip (n : string) (front rest : list TrackedProcess) :
  (forall tp, In tp front -> tp_name tp <> n) ->
  find_first n (front ++ rest) = find_first n rest.
Proof.
  induction front as [|tp front IH]; intros Hfront; simpl.
  - reflexivity.
  - destruct (String.eqb_spec (tp_name tp) n) as [Heq|Hne].
    + exfalso. apply (Hfront tp); [left; reflexivity | exact Heq].
    + apply IH. intros tp' Hin. apply Hfront. right. exact Hin.
Qed.

Lemma unlink_first_skip (n : string) (front rest : list TrackedProcess) :
  (forall tp, In tp front -> tp_name tp <> n) ->
  unlink_first n (front ++ rest) = front ++ unlink_first n rest.
Proof.
  induction front as [|tp front IH]; intros Hfront; simpl.
  - reflexivity.
  - destruct (String.eqb_spec (tp_name tp) n) as [Heq|Hne].
    + exfalso. apply (Hfront tp); [left; reflexivity | exact Heq].
    + f_equal. apply IH. intros tp' Hin. apply Hfront. right. exact Hin.
Qed.

Lemma substring_whole (s : string) (k : nat) :
  String.length s <= k -> substring 0 k s = s.
Proof.
  revert k. induction s as [|c s IH]; intros k Hk.
  - destruct k; reflexivity.
  - destruct k as [|k]; simpl in Hk; [lia|].
    simpl. f_equal. apply IH. lia.
Qed.

Lemma strncpy_short (s : string) (k : nat) :
  String.length s <= k -> strncpy s k = s.
Proof. apply substring_whole. Qed.

Lemma tracked_remove_tracked_process (n : string) (w : World) :
  tracked (remove_tracked_process n w) = unlink_first n (tracked w).
Proof. reflexivity. Qed.

Lemma tracked_add_all (entries : list (string * PROCESS_INFORMATION)) (w : World) :
  tracked (add_all entries w) = rev (map stored_entry entries) ++ tracked w.
Proof.
  revert w. induction entries as [|e entries IH]; intros w.
  - reflexivity.
  - unfold add_all in *. simpl. rewrite IH.
    rewrite tracked_add_tracked_process. rewrite <- app_assoc. reflexivity.
Qed.

Lemma os_add_all (entries : list (string * PROCESS_INFORMATION)) (w : World) :
  os (add_all entries w) = os w.
Proof.
  revert w. induction entries as [|e entries IH]; intros w.
  - reflexivity.
  - unfold add_all in *. simpl. rewrite IH. reflexivity.
Qed.

(** C4, as the specification states it, fails: adding a name that is
    already tracked leaves two entries with that name in the registry; the
    earlier one is neither overwritten nor removed.  So [add] does not
    keep names unique. *)
Lemma add_tracked_process_keeps_duplicate :
  names_unique (tracked mapper_tracked) /\
  tracked (add_tracked_process "controller_mapper" (handle_info 200) mapper_tracked) =
    [ {| tp_name := "controller_mapper"; tp_pi := handle_info 200 |};
      {| tp_name := "controller_mapper"; tp_pi := handle_info 100 |} ] /\
  ~ (forall (n : string) (pi : PROCESS_INFORMATION) (w : World),
       names_unique (tracked w) ->
       names_unique (tracked (add_tracked_process n pi w))).
Proof.
  assert (Hbefore : names_unique (tracked mapper_tracked)).
  { unfold names_unique. simpl. constructor; [intros [] | constructor]. }
  split; [exact Hbefore|]. split; [reflexivity|].
  intros Hclaim.
  specialize (Hclaim "controller_mapper" (handle_info 200) mapper_tracked Hbefore).
  unfold names_unique in Hclaim. simpl in Hclaim.
  inversion Hclaim as [|x l Hnotin _]; subst.
  apply Hnotin. left. reflexivity.
Qed.

(** C4 (amended): [add_tracked_process] puts a new entry, named by the
    first 255 characters of the name, at the head of the registry; every
    entry tracked before is still tracked, nothing is overwritten and no
    handle is released, and a lookup of the stored name finds the new
    entry, whether or not the name was tracked already. *)
Theorem add_tracked_process_prepends (n : string) (pi : PROCESS_INFORMATION) (w : World) :
  let stored := strncpy n (MAX_NAME_LEN - 1) in
  tracked (add_tracked_process n pi w) = {| tp_name := stored; tp_pi := pi |} :: tracked w /\
  find_tracked_process stored (add_tracked_process n pi w) =
    Some {| tp_name := stored; tp_pi := pi |} /\
  (forall tp, In tp (tracked w) -> In tp (tracked (add_tracked_process n pi w))) /\
  List.length (tracked (add_tracked_process n pi w)) = S (List.length (tracked w)) /\
  os (add_tracked_process n pi w) = os w.
Proof.
  intros stored. repeat split.
  - unfold find_tracked_process. rewrite tracked_add_tracked_process.
    apply find_first_head.
  - intros tp Hin. rewrite tracked_add_tracked_process. right. exact Hin.
Qed.

(** C10: when a name is tracked twice, the lookup returns the entry added
    last, and [remove_tracked_process] unlinks that entry only: the entry
    added earlier under the same name is still tracked, is what the next
    lookup finds, and its handle has not been released (the system state
    is untouched). *)
Theorem same_name_newest_found_and_removed
  (w : World) (n : string) (pi_old pi_new : PROCESS_INFORMATION)
  (between : list (string * PROCESS_INFORMATION)) :
  String.length n < MAX_NAME_LEN ->
  (forall e, In e between -> strncpy (fst e) (MAX_NAME_LEN - 1) <> n) ->
  let w_old := add_all between (add_tracked_process n pi_old w) in
  let w_new := add_tracked_process n pi_new w_old in
  find_tracked_process n w_new = Some {| tp_name := n; tp_pi := pi_new |} /\
  tracked (remove_tracked_process n w_new) = tracked w_old /\
  In {| tp_name := n; tp_pi := pi_old |} (tracked (remove_tracked_process n w_new)) /\
  find_tracked_process n (remove_tracked_process n w_new) =
    Some {| tp_name := n; tp_pi := pi_old |} /\
  os (remove_tracked_process n w_new) = os w.
Proof.
  intros Hlen Hbetween w_old w_new.
  assert (Hstored : strncpy n (MAX_NAME_LEN - 1) = n).
  { apply strncpy_short. unfold MAX_NAME_LEN in *. lia. }
  assert (Hnew : tracked w_new = {| tp_name := n; tp_pi := pi_new |} :: tracked w_old).
  { unfold w_new. rewrite tracked_add_tracked_process, Hstored. reflexivity. }
  assert (Hold : tracked w_old =
                 rev (map stored_entry between) ++
                 {| tp_name := n; tp_pi := pi_old |} :: tracked w).
  { unfold w_old. rewrite tracked_add_all, tracked_add_tracked_process, Hstored.
    reflexivity. }
  assert (Hfront : forall tp, In tp (rev (map stored_entry between)) -> tp_name tp <> n).
  { intros tp Hin. apply in_rev in Hin. apply in_map_iff in Hin.
    destruct Hin as [e [<- Hin]]. simpl. apply Hbetween. exact Hin. }
  assert (Hremoved : tracked (remove_tracked_process n w_new) = tracked w_old).
  { rewrite tracked_remove_tracked_process, Hnew. apply unlink_first_head. }
  split; [|split; [|split; [|split]]].
  - unfold find_tracked_process. rewrite Hnew. apply find_first_head.
  - exact Hremoved.
  - rewrite Hremoved, Hold. apply in_or_app. right. left. reflexivity.
  - unfold find_tracked_process. rewrite Hremoved, Hold.
    rewrite find_first_skip by exact Hfront. apply find_first_head.
  - unfold remove_tracked_process, w_new, w_old. simpl.
    rewrite os_add_all. reflexivity.
Qed.

Lemma same_name_newest_found_and_removed_witness :
  let w_new :=
    add_tracked_process "controller_mapper" (handle_info 200)
      (add_all [("C:\tools\sync.exe", handle_info 300)] mapper_tracked) in
  find_tracked_process "controller_mapper" w_new =
    Some {| tp_name := "controller_mapper"; tp_pi := handle_info 200 |} /\
  tracked (remove_tracked_process "controller_mapper" w_new) =
    tracked (add_all [("C:\tools\sync.exe", handle_info 300)] mapper_tracked) /\
  In {| tp_name := "controller_mapper"; tp_pi := handle_info 100 |}
    (tracked (remove_tracked_process "controller_mapper" w_new)) /\
  find_tracked_process "controller_mapper"
    (remove_tracked_process "controller_mapper" w_new) =
    Some {| tp_name := "controller_mapper"; tp_pi := handle_info 100 |} /\
  os (remove_tracked_process "controller_mapper" w_new) = os quiet_world.
Proof.
  apply (same_name_newest_found_and_removed quiet_world "controller_mapper"
           (handle_info 100) (handle_info 200)
           [("C:\tools\sync.exe", handle_info 300)]).
  - unfold MAX_NAME_LEN. simpl. lia.
  - intros e [<- | []]. vm_compute. discriminate.
Defined.

(** ** Instance lock *)

Lemma assoc_head {A : Type} (k : string) (v : A) (l : list (string * A)) :
  assoc k ((k, v) :: l) = Some v.
Proof. simpl. rewrite String.eqb_refl. reflexivity. Qed.

Lemma lock_usable_path (w : World) :
  lock_usable w = true ->
  str_empty (G_PID_FILE (globals w)) = false /\
  mem_string (G_PID_FILE (globals w)) (os_write_denied (os w)) = false.
Proof.
  unfold lock_usable. intros H. apply andb_true_iff in H. destruct H as [H1 H2].
  apply negb_true_iff in H1. apply negb_true_iff in H2. split; assumption.
Qed.

Lemma write_pid_file_writes (w : World) :
  lock_usable w = true ->
  lock_file (write_pid_file w) = Some (print_lu (os_current_pid (os w))).
Proof.
  intros H. destruct (lock_usable_path w H) as [Hpath Hdenied].
  unfold write_pid_file, write_file. rewrite Hpath, Hdenied.
  unfold lock_file, fopen_r. simpl. rewrite String.eqb_refl. reflexivity.
Qed.

Lemma show_message_files (m : string) (w : World) :
  os_files (os (show_message m w)) = os_files (os w) /\
  trace (show_message m w) = trace w.
Proof.
  unfold show_message, log_message. simpl.
  destruct (str_empty (G_LOG_PATH (globals w))); [split; reflexivity|].
  destruct (mem_string _ _); split; reflexivity.
Qed.




(** The number written is the number the next instance reads. *)
Example lock_file_round_trip : scan_lu (print_lu 4242) = Some 4242%N.
Proof. reflexivity. Qed.

(** ** Sequence engine *)

(** *** Trimming *)

Lemma skip_blanks_strip_left (s : string) : skip_blanks s = strip_left s.
Proof.
  induction s as [|c s IH]; simpl; [reflexivity|].
  destruct (is_blank c); [exact IH | reflexivity].
Qed.

Lemma strip_right_snoc (x : string) (c : ascii) :
  strip_right (x ++ String c EmptyString) =
  if is_blank c then strip_right x else (x ++ String c EmptyString)%string.
Proof.
  induction x as [|a x IH].
  - simpl. destruct (is_blank c); reflexivity.
  - change (strip_right (String a (x ++ String c EmptyString))
            = if is_blank c then strip_right (String a x)
              else String a (x ++ String c EmptyString)).
    simpl. rewrite IH. destruct (is_blank c); [reflexivity|].
    destruct x; reflexivity.
Qed.

Lemma substring_snoc (s : string) (n : nat) (c : ascii) :
  get n s = Some c ->
  substring 0 (S n) s = (substring 0 n s ++ String c EmptyString)%string.
Proof.
  revert n. induction s as [|a s IH]; intros n Hget.
  - destruct n; discriminate.
  - destruct n as [|n].
    + simpl in Hget. injection Hget as ->. destruct s; reflexivity.
    + simpl in Hget. change (String a (substring 0 (S n) s)
                             = String a (substring 0 n s ++ String c EmptyString)).
      f_equal. apply IH. exact Hget.
Qed.

Lemma get_in_range (s : string) (n : nat) :
  n < String.length s -> exists c, get n s = Some c.
Proof.
  revert n. induction s as [|a s IH]; intros n Hn; simpl in Hn; [lia|].
  destruct n as [|n]; [exists a; reflexivity|].
  simpl. apply IH. lia.
Qed.

Lemma chop_blanks_strip_right (s : string) (n : nat) :
  n <= String.length s -> chop_blanks n s = strip_right (substring 0 n s).
Proof.
  induction n as [|n IH]; intros Hn.
  - destruct s; reflexivity.
  - destruct (get_in_range s n) as [c Hc]; [lia|].
    rewrite (substring_snoc s n c Hc), strip_right_snoc.
    cbn [chop_blanks]. rewrite Hc.
    destruct (is_blank c).
    + apply IH. lia.
    + apply substring_snoc. exact Hc.
Qed.

Lemma trim_whitespace_strip (s : string) : trim_whitespace s = strip s.
Proof.
  unfold trim_whitespace, strip. rewrite skip_blanks_strip_left.
  rewrite chop_blanks_strip_right by lia.
  rewrite substring_whole by lia. reflexivity.
Qed.

Lemma strip_left_first (s : string) :
  forall c, first_char (strip_left s) = Some c -> is_blank c = false.
Proof.
  induction s as [|a s IH]; intros c; simpl; [discriminate|].
  destruct (is_blank a) eqn:Ha; [apply IH|].
  simpl. intros H. injection H as <-. exact Ha.
Qed.

Lemma strip_right_first (s : string) :
  strip_right s <> EmptyString -> first_char (strip_right s) = first_char s.
Proof.
  destruct s as [|a s]; simpl; [reflexivity|].
  destruct (strip_right s); [|reflexivity].
  destruct (is_blank a); [intros H; contradiction|reflexivity].
Qed.

Lemma strip_right_last (s : string) :
  forall c, last_char (strip_right s) = Some c -> is_blank c = false.
Proof.
  induction s as [|a s IH]; intros c; simpl; [discriminate|].
  destruct (strip_right s) as [|b r] eqn:Hr.
  - destruct (is_blank a) eqn:Ha; simpl; [discriminate|].
    intros H. injection H as <-. exact Ha.
  - intros H. apply IH. exact H.
Qed.

(** A stripped text is its source without blanks at either end. *)
Lemma strip_ends (s : string) :
  forall c,
    (first_char (strip s) = Some c -> is_blank c = false) /\
    (last_char (strip s) = Some c -> is_blank c = false).
Proof.
  intros c. unfold strip. split.
  - intros H. apply (strip_left_first s).
    rewrite <- strip_right_first; [exact H|].
    intros Hempty. rewrite Hempty in H. discriminate.
  - apply strip_right_last.
Qed.

Lemma strip_right_decompose (s : string) :
  exists r, s = (strip_right s ++ r)%string /\ all_blank r = true.
Proof.
  induction s as [|a s [r [Hs Hr]]].
  - exists EmptyString. split; reflexivity.
  - simpl. destruct (strip_right s) as [|b t] eqn:Ht.
    + destruct (is_blank a) eqn:Ha.
      * exists (String a s). split; [reflexivity|].
        simpl. rewrite Ha. simpl in Hs. rewrite Hs. exact Hr.
      * exists r. split; [|exact Hr]. simpl in Hs. simpl. f_equal. exact Hs.
    + exists r. split; [|exact Hr]. simpl. f_equal. exact Hs.
Qed.

Lemma strip_left_decompose (s : string) :
  exists l, s = (l ++ strip_left s)%string /\ all_blank l = true.
Proof.
  induction s as [|a s [l [Hs Hl]]].
  - exists EmptyString. split; reflexivity.
  - simpl. destruct (is_blank a) eqn:Ha.
    + exists (String a l). split; [simpl; f_equal; exact Hs|].
      simpl. rewrite Ha. exact Hl.
    + exists EmptyString. split; reflexivity.
Qed.

(** Only blanks are removed, and only at the two ends. *)
Lemma strip_decompose (s : string) :
  exists l r, s = (l ++ strip s ++ r)%string /\ all_blank l = true /\ all_blank r = true.
Proof.
  destruct (strip_left_decompose s) as [l [Hs Hl]].
  destruct (strip_right_decompose (strip_left s)) as [r [Hs' Hr]].
  exists l, r. split; [|split; assumption].
  unfold strip. rewrite <- Hs'. exact Hs.
Qed.

(** *** Tokenising *)

Lemma in_delim_comma (c : ascii) : in_delim c "," = Ascii.eqb c comma.
Proof. simpl. apply orb_false_r. Qed.

Lemma cut_cspan_fields (s : string) :
  split_commas s =
  fst (cut_cspan s ",") ::
  match snd (cut_cspan s ",") with
  | None => []
  | Some r => split_commas r
  end.
Proof.
  induction s as [|c s IH].
  - reflexivity.
  - cbn [cut_cspan split_commas]. rewrite in_delim_comma.
    destruct (Ascii.eqb c comma); [reflexivity|].
    rewrite IH. destruct (cut_cspan s ",") as [tok rest]. reflexivity.
Qed.

Lemma skip_span_fields (s : string) :
  nonempty_fields (skip_span s ",") = nonempty_fields s.
Proof.
  induction s as [|c s IH]; [reflexivity|].
  cbn [skip_span]. rewrite in_delim_comma.
  destruct (Ascii.eqb c comma) eqn:Hc; [|reflexivity].
  rewrite IH. unfold nonempty_fields. cbn [split_commas]. rewrite Hc. reflexivity.
Qed.

Lemma skip_span_stops (s : string) (c : ascii) (s' : string) :
  skip_span s "," = String c s' -> Ascii.eqb c comma = false.
Proof.
  induction s as [|a s IH]; [discriminate|].
  cbn [skip_span]. rewrite in_delim_comma.
  destruct (Ascii.eqb a comma) eqn:Ha; [exact IH|].
  intros H. injection H as <- _. exact Ha.
Qed.

(** One call of [strtok_s] on the text [start], given directly or as the
    saved context, returns the first non-empty field and leaves the
    others for later calls. *)
Lemma strtok_s_start (start : string) :
  pending_tokens (fst (strtok_s (Some start) "," None))
                 (snd (strtok_s (Some start) "," None)) = nonempty_fields start.
Proof.
  unfold strtok_s. rewrite <- (skip_span_fields start).
  destruct (skip_span start ",") as [|c s'] eqn:Hskip; [reflexivity|].
  pose proof (skip_span_stops start c s' Hskip) as Hc.
  unfold nonempty_fields at 1. rewrite (cut_cspan_fields (String c s')).
  destruct (cut_cspan (String c s') ",") as [tok rest] eqn:Hcut.
  cbn [cut_cspan] in Hcut. rewrite in_delim_comma, Hc in Hcut.
  destruct (cut_cspan s' ",") as [tok' rest']. injection Hcut as <- <-.
  destruct rest'; reflexivity.
Qed.

Lemma strtok_s_next (context : option string) :
  pending_tokens (fst (strtok_s None "," context))
                 (snd (strtok_s None "," context)) = context_fields context.
Proof.
  destruct context as [start|]; [|reflexivity].
  exact (strtok_s_start start).
Qed.

Lemma for_each_app {A : Type} (body : A -> World -> result World) (l1 l2 : list A) (w : World) :
  for_each body (l1 ++ l2) w = for_each body l1 w >>= for_each body l2.
Proof.
  revert w. induction l1 as [|x l1 IH]; intros w; simpl; [reflexivity|].
  destruct (body x w); simpl; [apply IH | reflexivity | reflexivity].
Qed.

(** The token loop runs its body on the trimmed, non-empty tokens, in order. *)
Lemma token_loop_tokens (body : string -> World -> result World) (n : nat) :
  forall token context w,
    List.length (pending_tokens token context) <= n ->
    token_loop n body token context w =
    for_each body
      (filter (fun t => negb (str_empty t)) (map trim_whitespace (pending_tokens token context))) w.
Proof.
  induction n as [|n IH]; intros token context w Hn.
  - destruct token; [simpl in Hn; lia | reflexivity].
  - destruct token as [tok|]; [|reflexivity].
    cbn [token_loop pending_tokens map filter].
    pose proof (strtok_s_next context) as Hnext.
    destruct (strtok_s None "," context) as [token' context'].
    cbn [fst snd] in Hnext.
    assert (Hrest : forall w1,
               token_loop n body token' context' w1 =
               for_each body
                 (filter (fun t => negb (str_empty t))
                    (map trim_whitespace (context_fields context))) w1).
    { intros w1. rewrite <- Hnext. apply IH. rewrite Hnext.
      simpl in Hn. lia. }
    destruct (str_empty (trim_whitespace tok)); cbn [negb for_each bind].
    + apply Hrest.
    + destruct (body (trim_whitespace tok) w); cbn [bind]; [apply Hrest | reflexivity | reflexivity].
Qed.

Lemma split_commas_length (s : string) :
  List.length (split_commas s) <= S (String.length s).
Proof.
  induction s as [|c s IH]; simpl; [lia|].
  destruct (Ascii.eqb c comma); simpl; [lia|].
  destruct (split_commas s); simpl in *; lia.
Qed.

Lemma nonempty_fields_length (s : string) :
  List.length (nonempty_fields s) <= S (String.length s).
Proof.
  unfold nonempty_fields.
  pose proof (filter_length_le (fun f => negb (str_empty f)) (split_commas s)).
  pose proof (split_commas_length s). lia.
Qed.

Lemma trim_whitespace_empty : trim_whitespace EmptyString = EmptyString.
Proof. reflexivity. Qed.

Lemma trimmed_nonempty_fields (l : list string) :
  filter (fun t => negb (str_empty t))
    (map trim_whitespace (filter (fun f => negb (str_empty f)) l)) =
  filter (fun t => negb (str_empty t)) (map strip l).
Proof.
  induction l as [|f l IH]; [reflexivity|].
  cbn [filter map]. destruct f as [|c f].
  - cbn [str_empty negb strip strip_left strip_right filter]. exact IH.
  - cbn [str_empty negb map filter]. rewrite trim_whitespace_strip, IH. reflexivity.
Qed.

(** The loop over a comma-separated text [s] runs [body] on
    [trimmed_tokens s]. *)
Lemma token_loop_of_text (body : string -> World -> result World) (s : string) (w : World) :
  token_loop (S (String.length s)) body
    (fst (strtok_s (Some s) "," None)) (snd (strtok_s (Some s) "," None)) w =
  for_each body (trimmed_tokens s) w.
Proof.
  rewrite token_loop_tokens.
  - rewrite strtok_s_start. unfold nonempty_fields, trimmed_tokens.
    rewrite trimmed_nonempty_fields. reflexivity.
  - rewrite strtok_s_start. apply nonempty_fields_length.
Qed.

Lemma execute_sequence_run_actions (fuel : nat) (s : string) (is_exit : bool) (w : World) :
  execute_sequence fuel s is_exit w = run_actions fuel is_exit (trimmed_tokens s) w.
Proof.
  unfold execute_sequence, run_actions.
  destruct s as [|c s]; [reflexivity|].
  cbn [str_empty].
  rewrite <- token_loop_of_text.
  destruct (strtok_s (Some (String c s)) "," None). reflexivity.
Qed.

Lemma trimmed_tokens_nonempty (s t : string) :
  In t (trimmed_tokens s) -> t <> EmptyString.
Proof.
  unfold trimmed_tokens. intros Hin. apply filter_In in Hin.
  destruct Hin as [_ Hne]. intros ->. discriminate.
Qed.

Lemma split_commas_not_nil (s : string) : split_commas s <> [].
Proof.
  destruct s as [|c s]; cbn [split_commas]; [discriminate|].
  destruct (Ascii.eqb c comma); [discriminate|].
  destruct (split_commas s); discriminate.
Qed.

(** The fields, joined by commas again, are the text. *)
Lemma split_commas_concat (s : string) : String.concat "," (split_commas s) = s.
Proof.
  induction s as [|c s IH]; [reflexivity|].
  cbn [split_commas]. destruct (Ascii.eqb_spec c comma) as [->|Hc].
  - pose proof (split_commas_not_nil s) as Hne.
    destruct (split_commas s) as [|f fs]; [contradiction|].
    change (String.concat "," (EmptyString :: f :: fs))
      with (EmptyString ++ "," ++ String.concat "," (f :: fs))%string.
    rewrite IH. reflexivity.
  - destruct (split_commas s) as [|f fs] eqn:Hsplit.
    + exfalso. exact (split_commas_not_nil s Hsplit).
    + destruct fs as [|g fs]; cbn [String.concat] in *; rewrite <- IH; reflexivity.
Qed.

(** No field holds a comma. *)
Lemma split_commas_fields (s f : string) :
  In f (split_commas s) -> in_delim comma f = false.
Proof.
  revert f. induction s as [|c s IH]; intros f Hin.
  - destruct Hin as [<-|[]]. reflexivity.
  - cbn [split_commas] in Hin. destruct (Ascii.eqb c comma) eqn:Hc.
    + destruct Hin as [<-|Hin]; [reflexivity | apply IH; exact Hin].
    + destruct (split_commas s) as [|g gs].
      * destruct Hin as [<-|[]]. cbn [in_delim]. rewrite Ascii.eqb_sym, Hc. reflexivity.
      * destruct Hin as [<-|Hin].
        -- cbn [in_delim]. rewrite Ascii.eqb_sym, Hc. cbn [orb].
           apply IH. left. reflexivity.
        -- apply IH. right. exact Hin.
Qed.

(** C6: [execute_sequence] runs [execute_action] on the comma-separated
    fields of the sequence, each without its leading and trailing blanks,
    in the order of the text, leaving out the fields that are empty or all
    blank; no dispatched action is empty or starts or ends with a blank.
    The fields are those of the text (joined by commas they give it back,
    and none holds a comma), and stripping a field removes blanks at its
    two ends and nothing else. *)
Theorem execute_sequence_dispatches_trimmed_tokens
  (fuel : nat) (s : string) (is_exit : bool) (w : World) :
  execute_sequence fuel s is_exit w =
    for_each (fun action => execute_action fuel action is_exit)
      (filter (fun t => negb (str_empty t)) (map strip (split_commas s))) w /\
  (String.concat "," (split_commas s) = s /\
   forall field, In field (split_commas s) -> in_delim comma field = false) /\
  (forall field, exists l r,
     field = (l ++ strip field ++ r)%string /\ all_blank l = true /\ all_blank r = true) /\
  (forall t, In t (trimmed_tokens s) ->
     t <> EmptyString /\
     (forall c, first_char t = Some c -> is_blank c = false) /\
     (forall c, last_char t = Some c -> is_blank c = false)) /\
  trimmed_tokens "Pre1, Controller-Mapper ,Taskbar" = ["Pre1"; "Controller-Mapper"; "Taskbar"].
Proof.
  split; [|split; [|split; [|split]]].
  - apply execute_sequence_run_actions.
  - split; [apply split_commas_concat | apply split_commas_fields].
  - apply strip_decompose.
  - intros t Hin. split; [exact (trimmed_tokens_nonempty s t Hin)|].
    unfold trimmed_tokens in Hin. apply filter_In in Hin.
    destruct Hin as [Hin _]. apply in_map_iff in Hin.
    destruct Hin as [f [<- _]].
    split; intros c; apply (strip_ends f c).
  - reflexivity.
Qed.

(** *** Unknown actions *)

Lemma execute_action_unknown (fuel : nat) (a : string) (is_exit : bool) (w : World) :
  mem_string a known_actions = false ->
  execute_action fuel a is_exit w =
  Ok (show_message (snprintf 256 ("  - Unknown action: " ++ a)) (show_message a w)).
Proof.
  intros Hunknown. unfold mem_string, known_actions in Hunknown.
  cbn [existsb] in Hunknown.
  repeat (apply orb_false_elim in Hunknown;
          let H := fresh "Hne" in destruct Hunknown as [H Hunknown]).
  unfold execute_action.
  repeat match goal with
         | H : String.eqb a _ = false |- _ => rewrite H; clear H
         end.
  reflexivity.
Qed.

(** *** Taskbar *)

Lemma taskbar_found_show_message (m : string) (w : World) :
  taskbar_found (show_message m w) = taskbar_found w.
Proof.
  unfold show_message, log_message. simpl.
  destruct (str_empty (G_LOG_PATH (globals w))); [reflexivity|].
  destruct (mem_string _ _); reflexivity.
Qed.

Lemma console_show_message (m : string) (w : World) :
  console (show_message m w) = console w ++ [m].
Proof.
  unfold show_message, log_message. simpl.
  destruct (str_empty (G_LOG_PATH (globals w))); [reflexivity|].
  destruct (mem_string _ _); reflexivity.
Qed.

Lemma cfg_show_message (m : string) (w : World) : cfg (show_message m w) = cfg w.
Proof.
  unfold show_message, log_message. simpl.
  destruct (str_empty (G_LOG_PATH (globals w))); [reflexivity|].
  destruct (mem_string _ _); reflexivity.
Qed.

Lemma set_taskbar_visibility_effect (show : bool) (w : World) :
  taskbar_found w = true ->
  os_taskbar_visible (os (set_taskbar_visibility show w)) = show /\
  (show = false -> G_TASKBAR_WAS_HIDDEN (globals (set_taskbar_visibility show w)) = true) /\
  console (set_taskbar_visibility show w) = console w /\
  trace (set_taskbar_visibility show w) = trace w ++ [EvShowWindow (os_shell_traywnd (os w)) show].
Proof.
  unfold taskbar_found. intros Hfound.
  apply andb_true_iff in Hfound. destruct Hfound as [Hwnd Hcached].
  apply negb_true_iff in Hwnd.
  unfold set_taskbar_visibility.
  destruct (N.eqb (G_TASKBAR_HWND (globals w)) NULL) eqn:Hnull.
  - cbn [with_globals globals set_G_TASKBAR_HWND G_TASKBAR_HWND]. rewrite Hwnd.
    unfold ShowWindow. cbn [with_globals globals os]. rewrite N.eqb_refl.
    destruct show; repeat split; try reflexivity; discriminate.
  - rewrite Hnull. cbn [orb] in Hcached. apply N.eqb_eq in Hcached.
    rewrite Hcached. unfold ShowWindow. rewrite N.eqb_refl.
    destruct show; repeat split; try reflexivity; discriminate.
Qed.

Lemma execute_action_Taskbar_exit (fuel : nat) (w : World) :
  execute_action fuel "Taskbar" true w = Ok (action_show_taskbar (show_message "Taskbar" w)).
Proof. reflexivity. Qed.

Lemma execute_action_No_TB_launch (fuel : nat) (w : World) :
  execute_action fuel "No-TB" false w = Ok (action_hide_taskbar (show_message "No-TB" w)).
Proof. reflexivity. Qed.

(** C7: a token that names no action only prints itself and the
    diagnostic ["  - Unknown action: <token>"]; the tokens after it are
    dispatched as they would be without it.  The sequence "Bogus,Taskbar"
    run as exit sequence prints the diagnostic and shows the taskbar. *)
Theorem unknown_action_does_not_abort :
  (forall (fuel : nat) (s : string) (is_exit : bool) (w : World)
          (done : list string) (a : string) (rest : list string),
      trimmed_tokens s = done ++ a :: rest ->
      mem_string a known_actions = false ->
      execute_sequence fuel s is_exit w =
      (run_actions fuel is_exit done w >>= fun w1 =>
       run_actions fuel is_exit rest
         (show_message (snprintf 256 ("  - Unknown action: " ++ a)) (show_message a w1)))) /\
  (forall (fuel : nat) (w : World),
      taskbar_found w = true ->
      exists w', execute_sequence fuel "Bogus,Taskbar" true w = Ok w' /\
                 In "  - Unknown action: Bogus" (console w') /\
                 os_taskbar_visible (os w') = true).
Proof.
  split.
  - intros fuel s is_exit w done a rest Htokens Hunknown.
    rewrite execute_sequence_run_actions, Htokens.
    unfold run_actions. rewrite for_each_app.
    destruct (for_each _ done w) as [w1| |]; cbn [bind]; try reflexivity.
    cbn [for_each]. rewrite (execute_action_unknown fuel a is_exit w1 Hunknown).
    reflexivity.
  - intros fuel w Hfound.
    rewrite execute_sequence_run_actions.
    change (trimmed_tokens "Bogus,Taskbar") with ["Bogus"; "Taskbar"].
    unfold run_actions. cbn [for_each].
    rewrite (execute_action_unknown fuel "Bogus" true w) by reflexivity.
    cbn [bind]. rewrite execute_action_Taskbar_exit. cbn [bind for_each].
    eexists. split; [reflexivity|].
    unfold action_show_taskbar.
    set (w3 := show_message "Taskbar" _).
    assert (Hfound3 : taskbar_found w3 = true).
    { unfold w3. rewrite !taskbar_found_show_message. exact Hfound. }
    destruct (set_taskbar_visibility_effect true w3 Hfound3) as [Hvis [_ [Hcon _]]].
    split; [|exact Hvis].
    rewrite Hcon. unfold w3. rewrite !console_show_message.
    apply in_or_app. left. apply in_or_app. right. left. reflexivity.
Qed.

Lemma unknown_action_does_not_abort_witness :
  execute_sequence 0 "Bogus,Taskbar" true taskbar_hidden =
    (run_actions 0 true [] taskbar_hidden >>= fun w1 =>
     run_actions 0 true ["Taskbar"]
       (show_message (snprintf 256 ("  - Unknown action: " ++ "Bogus"))
          (show_message "Bogus" w1))) /\
  exists w', execute_sequence 0 "Bogus,Taskbar" true taskbar_hidden = Ok w' /\
             In "  - Unknown action: Bogus" (console w') /\
             os_taskbar_visible (os w') = true.
Proof.
  split.
  - apply (proj1 unknown_action_does_not_abort 0 "Bogus,Taskbar" true taskbar_hidden
             [] "Bogus" ["Taskbar"]); reflexivity.
  - apply (proj2 unknown_action_does_not_abort 0 taskbar_hidden). reflexivity.
Defined.

(** C9, as the specification states it, fails: with the [HideTaskbar]
    option off (its value when the ini file does not set it), the launch
    sequence "No-TB" leaves the taskbar visible and makes no call.  So
    the launch sequence "No-TB" does not hide the taskbar in every run. *)
Lemma no_tb_with_hide_option_off :
  launch_sequence (cfg hide_option_off) = "No-TB" /\
  exit_sequence (cfg hide_option_off) = "Taskbar" /\
  taskbar_found hide_option_off = true /\
  os_taskbar_visible (os hide_option_off) = true /\
  (exists w1,
     execute_sequence 1 (launch_sequence (cfg hide_option_off)) false hide_option_off = Ok w1 /\
     os_taskbar_visible (os w1) = true /\
     trace w1 = []) /\
  ~ (forall (fuel : nat) (w w1 : World),
       launch_sequence (cfg w) = "No-TB" ->
       exit_sequence (cfg w) = "Taskbar" ->
       taskbar_found w = true ->
       execute_sequence fuel (launch_sequence (cfg w)) false w = Ok w1 ->
       os_taskbar_visible (os w1) = false).
Proof.
  split; [reflexivity|]. split; [reflexivity|]. split; [reflexivity|].
  split; [reflexivity|]. split.
  - eexists. repeat split.
  - intros Hclaim.
    assert (Hrun : exists w1,
               execute_sequence 1 (launch_sequence (cfg hide_option_off)) false
                 hide_option_off = Ok w1 /\ os_taskbar_visible (os w1) = true).
    { eexists. split; reflexivity. }
    destruct Hrun as [w1 [Hrun Hvisible]].
    specialize (Hclaim 1 hide_option_off w1 eq_refl eq_refl eq_refl Hrun).
    congruence.
Qed.

(** C9 (amended): with the [HideTaskbar] option on and the taskbar window
    found, the launch sequence "No-TB" hides the taskbar and records that
    it did; the exit sequence "Taskbar", run in whatever state the run has
    reached by then, shows it again. *)
Theorem no_tb_hides_and_taskbar_shows (fuel : nat) (w w_exit : World) :
  hide_taskbar (cfg w) = true ->
  taskbar_found w = true ->
  taskbar_found w_exit = true ->
  exists w1 w2,
    execute_sequence fuel "No-TB" false w = Ok w1 /\
    os_taskbar_visible (os w1) = false /\
    G_TASKBAR_WAS_HIDDEN (globals w1) = true /\
    execute_sequence fuel "Taskbar" true w_exit = Ok w2 /\
    os_taskbar_visible (os w2) = true.
Proof.
  intros Hhide Hfound Hfound_exit.
  rewrite !execute_sequence_run_actions.
  change (trimmed_tokens "No-TB") with ["No-TB"].
  change (trimmed_tokens "Taskbar") with ["Taskbar"].
  unfold run_actions. cbn [for_each].
  rewrite execute_action_No_TB_launch, execute_action_Taskbar_exit. cbn [bind for_each].
  unfold action_hide_taskbar, action_show_taskbar.
  rewrite cfg_show_message, Hhide.
  assert (H1 : taskbar_found (show_message "No-TB" w) = true)
    by (rewrite taskbar_found_show_message; exact Hfound).
  assert (H2 : taskbar_found (show_message "Taskbar" w_exit) = true)
    by (rewrite taskbar_found_show_message; exact Hfound_exit).
  destruct (set_taskbar_visibility_effect false _ H1) as [Hvis1 [Hwas _]].
  destruct (set_taskbar_visibility_effect true _ H2) as [Hvis2 _].
  eexists. eexists. repeat split; try reflexivity; auto.
Qed.

Lemma no_tb_hides_and_taskbar_shows_witness :
  exists w1 w2,
    execute_sequence 1 "No-TB" false hide_option_on = Ok w1 /\
    os_taskbar_visible (os w1) = false /\
    G_TASKBAR_WAS_HIDDEN (globals w1) = true /\
    execute_sequence 1 "Taskbar" true taskbar_hidden = Ok w2 /\
    os_taskbar_visible (os w2) = true.
Proof.
  apply (no_tb_hides_and_taskbar_shows 1 hide_option_on taskbar_hidden); reflexivity.
Defined.

(** ** Process tree controller *)

(** *** The child buffer *)

Lemma store_in_bounds (buf : list DWORD) (i : nat) (v : DWORD) :
  i < List.length buf ->
  exists buf', store buf i v = Some buf' /\
               List.length buf' = List.length buf /\
               firstn (S i) buf' = firstn i buf ++ [v].
Proof.
  intros Hi. unfold store.
  destruct (Nat.ltb_spec i (List.length buf)) as [_|Hge]; [|lia].
  eexists. split; [reflexivity|]. split.
  - rewrite length_app. cbn [List.length]. rewrite length_firstn, length_skipn. lia.
  - assert (Hlen : List.length (firstn i buf) = i) by (rewrite length_firstn; lia).
    replace (S i) with (List.length (firstn i buf) + 1) by lia.
    rewrite firstn_app_2. reflexivity.
Qed.

Lemma firstn_full_app {A : Type} (n : nat) (l1 l2 : list A) :
  List.length l1 = n -> firstn n (l1 ++ l2) = l1.
Proof.
  intros <-. rewrite firstn_app, Nat.sub_diag, firstn_all. cbn [firstn].
  apply app_nil_r.
Qed.

Lemma collect_children_general (pid : DWORD) (snapshot : list PROCESSENTRY32) :
  forall (buf : list DWORD) (count : nat),
    List.length buf = 256 -> count <= 256 ->
    exists buf' count',
      collect_children pid snapshot buf count = Some (buf', count') /\
      List.length buf' = 256 /\ count' <= 256 /\
      firstn count' buf' = firstn 256 (firstn count buf ++ children pid snapshot).
Proof.
  induction snapshot as [|pe rest IH]; intros buf count Hlen Hcount.
  - exists buf, count. cbn [collect_children]. repeat split; try assumption.
    unfold children. cbn [filter pids map]. rewrite app_nil_r.
    rewrite firstn_firstn. f_equal. lia.
  - cbn [collect_children]. unfold children. cbn [filter].
    destruct (N.eqb (th32ParentProcessID pe) pid) eqn:Hparent; cbn [andb].
    + destruct (Nat.ltb_spec count 256) as [Hlt|Hge].
      * destruct (store_in_bounds buf count (th32ProcessID pe)) as [buf' [Hstore [Hlen' Hfirst]]];
          [lia|].
        rewrite Hstore.
        destruct (IH buf' (S count)) as [buf'' [count'' [Hrun [Hl [Hc Hf]]]]]; [lia | lia |].
        exists buf'', count''. repeat split; try assumption.
        rewrite Hf, Hfirst. unfold children, pids. cbn [map].
        rewrite <- app_assoc. reflexivity.
      * destruct (IH buf count Hlen Hcount) as [buf'' [count'' [Hrun [Hl [Hc Hf]]]]].
        exists buf'', count''. repeat split; try assumption.
        rewrite Hf. unfold children, pids. cbn [map].
        assert (Hfull : List.length (firstn count buf) = 256)
          by (rewrite length_firstn; lia).
        rewrite !firstn_full_app by exact Hfull. reflexivity.
    + apply IH; assumption.
Qed.

(** The first pass never writes outside [child_pids]; it collects the
    first 256 children of the snapshot, in snapshot order. *)
Lemma collect_children_safe (pid : DWORD) (snapshot : list PROCESSENTRY32) :
  exists child_pids child_count,
    collect_children pid snapshot fresh_child_pids 0 = Some (child_pids, child_count) /\
    List.length child_pids = 256 /\ child_count <= 256 /\
    firstn child_count child_pids = firstn 256 (children pid snapshot).
Proof.
  destruct (collect_children_general pid snapshot fresh_child_pids 0)
    as [buf [count [Hrun [Hl [Hc Hf]]]]].
  - unfold fresh_child_pids. apply repeat_length.
  - lia.
  - exists buf, count. repeat split; assumption.
Qed.

(** *** Snapshots and what terminating processes does to them *)

Lemma pid_running_In (pid : DWORD) (w : World) :
  pid_running pid w = true <-> In pid (pids (processes w)).
Proof.
  unfold pid_running, pids. rewrite existsb_exists, in_map_iff.
  split; intros [pe [H1 H2]]; exists pe.
  - apply N.eqb_eq in H2. split; assumption.
  - split; [assumption | apply N.eqb_eq; assumption].
Qed.

Lemma open_and_terminate_running (pid : DWORD) (w : World) :
  pid_running pid w = true -> can_terminate pid w = true ->
  open_and_terminate pid w = kill_now pid w.
Proof.
  intros Hrun Hopen. unfold open_and_terminate, terminate_pid.
  rewrite Hopen, Hrun. reflexivity.
Qed.

Lemma open_and_terminate_gone (pid : DWORD) (w : World) :
  pid_running pid w = false -> open_and_terminate pid w = w.
Proof.
  intros H. unfold open_and_terminate, terminate_pid. rewrite H.
  destruct (can_terminate pid w); reflexivity.
Qed.

Lemma open_and_terminate_refused (pid : DWORD) (w : World) :
  can_terminate pid w = false -> open_and_terminate pid w = w.
Proof. intros H. unfold open_and_terminate. rewrite H. reflexivity. Qed.

Lemma after_kills_app (k1 k2 : list DWORD) (w : World) :
  after_kills (k1 ++ k2) w = after_kills k2 (after_kills k1 w).
Proof. unfold after_kills. apply fold_left_app. Qed.

Lemma filter_filter {A : Type} (f g : A -> bool) (l : list A) :
  filter f (filter g l) = filter (fun x => g x && f x) l.
Proof.
  induction l as [|x l IH]; [reflexivity|].
  cbn [filter]. destruct (g x); cbn [filter andb]; [|exact IH].
  destruct (f x); rewrite IH; reflexivity.
Qed.

Lemma processes_after_kills (killed : list DWORD) (w : World) :
  processes (after_kills killed w) = filter (survives killed) (processes w).
Proof.
  revert w. induction killed as [|k killed IH]; intros w.
  - cbn [after_kills fold_left]. unfold survives. cbn [existsb negb].
    symmetry. apply forallb_filter_id. apply forallb_forall. reflexivity.
  - change (after_kills (k :: killed) w) with (after_kills killed (kill_now k w)).
    rewrite IH. unfold kill_now, processes. cbn [emit with_os os set_os_trace
      set_os_processes os_processes].
    rewrite filter_filter. apply filter_ext. intros pe.
    unfold survives. cbn [existsb]. rewrite negb_orb. reflexivity.
Qed.

Lemma trace_after_kills (killed : list DWORD) (w : World) :
  trace (after_kills killed w) = trace w ++ map EvTerminateProcess killed.
Proof.
  revert w. induction killed as [|k killed IH]; intros w.
  - cbn [after_kills fold_left map]. rewrite app_nil_r. reflexivity.
  - change (after_kills (k :: killed) w) with (after_kills killed (kill_now k w)).
    rewrite IH. unfold kill_now, trace. cbn [emit with_os os set_os_trace
      set_os_processes os_trace map]. rewrite <- app_assoc. reflexivity.
Qed.

Lemma globals_after_kills (killed : list DWORD) (w : World) :
  globals (after_kills killed w) = globals w.
Proof.
  revert w. induction killed as [|k killed IH]; intros w; [reflexivity|].
  change (after_kills (k :: killed) w) with (after_kills killed (kill_now k w)).
  rewrite IH. reflexivity.
Qed.

Lemma snapshot_ok_after_kills (killed : list DWORD) (w : World) :
  os_snapshot_ok (os (after_kills killed w)) = os_snapshot_ok (os w).
Proof.
  revert w. induction killed as [|k killed IH]; intros w; [reflexivity|].
  change (after_kills (k :: killed) w) with (after_kills killed (kill_now k w)).
  rewrite IH. reflexivity.
Qed.

Lemma can_terminate_after_kills (killed : list DWORD) (w : World) (x : DWORD) :
  can_terminate x (after_kills killed w) = can_terminate x w.
Proof.
  revert w. induction killed as [|k killed IH]; intros w; [reflexivity|].
  change (after_kills (k :: killed) w) with (after_kills killed (kill_now k w)).
  rewrite IH. reflexivity.
Qed.

Lemma terminated_app (t1 t2 : list Event) :
  terminated (t1 ++ t2) = terminated t1 ++ terminated t2.
Proof.
  induction t1 as [|e t1 IH]; [reflexivity|].
  destruct e; cbn [app terminated]; rewrite IH; reflexivity.
Qed.


Lemma closed_app (t1 t2 : list Event) :
  closed (t1 ++ t2) = closed t1 ++ closed t2.
Proof.
  induction t1 as [|e t1 IH]; [reflexivity|].
  destruct e; cbn [app closed]; rewrite IH; reflexivity.
Qed.

Lemma survives_In (killed : list DWORD) (pe : PROCESSENTRY32) :
  survives killed pe = true <-> ~ In (th32ProcessID pe) killed.
Proof.
  unfold survives. rewrite negb_true_iff. split.
  - intros Hnone Hin.
    assert (Hsome : existsb (N.eqb (th32ProcessID pe)) killed = true).
    { apply existsb_exists. exists (th32ProcessID pe). split; [exact Hin|apply N.eqb_refl]. }
    congruence.
  - intros Hnotin. destruct (existsb (N.eqb (th32ProcessID pe)) killed) eqn:Hex; [|reflexivity].
    exfalso. apply existsb_exists in Hex. destruct Hex as [x [Hx Heq]].
    apply N.eqb_eq in Heq. subst x. contradiction.
Qed.

Lemma In_pids_filter_survives (killed : list DWORD) (l : list PROCESSENTRY32) (x : DWORD) :
  In x (pids (filter (survives killed) l)) <-> In x (pids l) /\ ~ In x killed.
Proof.
  unfold pids. rewrite !in_map_iff. split.
  - intros [pe [Hpid Hin]]. apply filter_In in Hin. destruct Hin as [Hin Hs].
    apply survives_In in Hs. subst x. split; [exists pe; auto | exact Hs].
  - intros [[pe [Hpid Hin]] Hnot]. exists pe. split; [exact Hpid|].
    apply filter_In. split; [exact Hin|]. apply survives_In. subst x. exact Hnot.
Qed.

Lemma NoDup_pids_filter (f : PROCESSENTRY32 -> bool) (l : list PROCESSENTRY32) :
  NoDup (pids l) -> NoDup (pids (filter f l)).
Proof.
  unfold pids. induction l as [|pe l IH]; intros Hnd; [constructor|].
  cbn [map] in Hnd. inversion Hnd as [|x xs Hnotin Hnd']; subst.
  cbn [filter]. destruct (f pe); [|apply IH; exact Hnd'].
  cbn [map]. constructor; [|apply IH; exact Hnd'].
  intros Hin. apply Hnotin. apply in_map_iff in Hin.
  destruct Hin as [pe' [Hpid Hin]]. apply filter_In in Hin.
  apply in_map_iff. exists pe'. split; [exact Hpid | apply Hin].
Qed.

Lemma unique_entry (l : list PROCESSENTRY32) (pe1 pe2 : PROCESSENTRY32) :
  NoDup (pids l) -> In pe1 l -> In pe2 l ->
  th32ProcessID pe1 = th32ProcessID pe2 -> pe1 = pe2.
Proof.
  unfold pids. induction l as [|pe l IH]; intros Hnd H1 H2 Heq; [contradiction|].
  cbn [map] in Hnd. inversion Hnd as [|x xs Hnotin Hnd']; subst.
  destruct H1 as [->|H1], H2 as [->|H2].
  - reflexivity.
  - exfalso. apply Hnotin. rewrite Heq. apply in_map. exact H2.
  - exfalso. apply Hnotin. rewrite <- Heq. apply in_map. exact H1.
  - apply IH; assumption.
Qed.

Lemma distinct_NoDup (l : list N) : distinct l = true -> NoDup l.
Proof.
  induction l as [|x l IH]; intros H; [constructor|].
  cbn [distinct] in H. apply andb_true_iff in H. destruct H as [Hx Hl].
  constructor; [|apply IH; exact Hl].
  intros Hin. apply negb_true_iff in Hx.
  assert (Hex : existsb (N.eqb x) l = true).
  { apply existsb_exists. exists x. split; [exact Hin | apply N.eqb_refl]. }
  congruence.
Qed.

(** *** Depth of the tree *)

Lemma tree_below_entry (h : DWORD -> nat) (l : list PROCESSENTRY32) (pe : PROCESSENTRY32) :
  tree_below h l = true -> In pe l ->
  h (th32ParentProcessID pe) <> 0 ->
  0 < h (th32ProcessID pe) /\ h (th32ProcessID pe) < h (th32ParentProcessID pe).
Proof.
  unfold tree_below. intros Htree Hin Hparent.
  rewrite forallb_forall in Htree. specialize (Htree pe Hin).
  apply orb_true_iff in Htree. destruct Htree as [Hzero|Hlt].
  - apply Nat.eqb_eq in Hzero. contradiction.
  - apply andb_true_iff in Hlt. destruct Hlt as [H1 H2].
    apply Nat.ltb_lt in H1. apply Nat.ltb_lt in H2. split; assumption.
Qed.

Lemma tree_below_filter (h : DWORD -> nat) (f : PROCESSENTRY32 -> bool)
  (l : list PROCESSENTRY32) :
  tree_below h l = true -> tree_below h (filter f l) = true.
Proof.
  unfold tree_below. rewrite !forallb_forall. intros H pe Hin.
  apply H. apply filter_In in Hin. apply Hin.
Qed.

Lemma descends_height (h : DWORD -> nat) (l : list PROCESSENTRY32) (a x : DWORD) :
  tree_below h l = true -> descends l a x -> h a <> 0 ->
  0 < h x /\ h x <= h a.
Proof.
  intros Htree Hdesc Ha. induction Hdesc as [|pe Hin Hdesc IH].
  - lia.
  - destruct (tree_below_entry h l pe Htree Hin) as [H1 H2]; lia.
Qed.

Lemma descends_incl (l l' : list PROCESSENTRY32) (a x : DWORD) :
  incl l l' -> descends l a x -> descends l' a x.
Proof.
  intros Hincl Hdesc. induction Hdesc as [|pe Hin Hdesc IH].
  - constructor.
  - apply descends_child; [apply Hincl; exact Hin | exact IH].
Qed.

Lemma descends_inv (l : list PROCESSENTRY32) (a x : DWORD) :
  descends l a x ->
  x = a \/ exists pe, In pe l /\ th32ProcessID pe = x /\ descends l a (th32ParentProcessID pe).
Proof.
  intros Hdesc. destruct Hdesc as [|pe Hin Hdesc].
  - left. reflexivity.
  - right. exists pe. repeat split; assumption.
Qed.

Lemma descends_trans (l : list PROCESSENTRY32) (a b x : DWORD) :
  descends l a b -> descends l b x -> descends l a x.
Proof.
  intros Hab Hbx. induction Hbx as [|pe Hin Hbx IH].
  - exact Hab.
  - apply descends_child; assumption.
Qed.

Lemma In_children (pid c : DWORD) (l : list PROCESSENTRY32) :
  In c (children pid l) <->
  exists pe, In pe l /\ th32ProcessID pe = c /\ th32ParentProcessID pe = pid.
Proof.
  unfold children, pids. rewrite in_map_iff. split.
  - intros [pe [Hpid Hin]]. apply filter_In in Hin. destruct Hin as [Hin Hp].
    apply N.eqb_eq in Hp. exists pe. auto.
  - intros [pe [Hin [Hpid Hp]]]. exists pe. split; [exact Hpid|].
    apply filter_In. split; [exact Hin | apply N.eqb_eq; exact Hp].
Qed.

Lemma before_app_r {A : Type} (a b : A) (l l' : list A) :
  before a b l -> before a b (l ++ l').
Proof.
  intros [l1 [l2 [l3 ->]]]. exists l1, l2, (l3 ++ l').
  rewrite <- app_assoc. cbn [app]. rewrite <- app_assoc. reflexivity.
Qed.

Lemma before_app_l {A : Type} (a b : A) (l l' : list A) :
  before a b l' -> before a b (l ++ l').
Proof.
  intros [l1 [l2 [l3 ->]]]. exists (l ++ l1), l2, l3.
  rewrite <- app_assoc. reflexivity.
Qed.

Lemma before_split {A : Type} (a b : A) (l l' : list A) :
  In a l -> In b l' -> before a b (l ++ l').
Proof.
  intros Ha Hb. apply in_split in Ha. apply in_split in Hb.
  destruct Ha as [l1 [l2 ->]]. destruct Hb as [l3 [l4 ->]].
  exists l1, (l2 ++ l3), l4. rewrite <- app_assoc. cbn [app].
  rewrite <- app_assoc. reflexivity.
Qed.

Lemma NoDup_app_disjoint {A : Type} (l1 l2 : list A) (x : A) :
  NoDup (l1 ++ l2) -> In x l1 -> In x l2 -> False.
Proof.
  induction l1 as [|a l1 IH]; intros Hnd H1 H2; [contradiction|].
  cbn [app] in Hnd. inversion Hnd as [|y ys Hnotin Hnd']; subst.
  destruct H1 as [->|H1].
  - apply Hnotin. apply in_or_app. right. exact H2.
  - apply IH; assumption.
Qed.

Lemma In_firstn_In {A : Type} (n : nat) (l : list A) (x : A) :
  In x (firstn n l) -> In x l.
Proof.
  intros H. rewrite <- (firstn_skipn n l). apply in_or_app. left. exact H.
Qed.

Lemma In_skipn_In {A : Type} (n : nat) (l : list A) (x : A) :
  In x (skipn n l) -> In x l.
Proof.
  intros H. rewrite <- (firstn_skipn n l). apply in_or_app. right. exact H.
Qed.

Lemma NoDup_firstn_of {A : Type} (n : nat) (l : list A) :
  NoDup l -> NoDup (firstn n l).
Proof.
  intros H. rewrite <- (firstn_skipn n l) in H.
  apply NoDup_app_remove_r in H. exact H.
Qed.

Lemma NoDup_children (pid : DWORD) (l : list PROCESSENTRY32) :
  NoDup (pids l) -> NoDup (children pid l).
Proof. unfold children. apply NoDup_pids_filter. Qed.

Lemma snapshot_tree_after_kills (h : DWORD -> nat) (killed : list DWORD) (w : World) :
  snapshot_tree h w -> snapshot_tree h (after_kills killed w).
Proof.
  intros [Hok [Hnd Htree]]. unfold snapshot_tree.
  rewrite snapshot_ok_after_kills, processes_after_kills.
  split; [exact Hok|]. split.
  - apply NoDup_pids_filter. exact Hnd.
  - apply tree_below_filter. exact Htree.
Qed.

Lemma processes_after_kills_incl (killed : list DWORD) (w : World) :
  incl (processes (after_kills killed w)) (processes w).
Proof.
  rewrite processes_after_kills. intros pe Hin.
  apply filter_In in Hin. apply Hin.
Qed.

(** A child of [parent] is not below another child of [parent]. *)
Lemma sibling_not_below (h : DWORD -> nat) (l : list PROCESSENTRY32)
  (parent c c' : DWORD) :
  tree_below h l = true -> NoDup (pids l) -> h parent <> 0 ->
  In c (children parent l) -> In c' (children parent l) ->
  descends l c' c -> c = c'.
Proof.
  intros Htree Hnd Hparent Hc Hc' Hdesc.
  apply In_children in Hc. destruct Hc as [pe [Hpe [Hpid Hppid]]].
  apply In_children in Hc'. destruct Hc' as [pe' [Hpe' [Hpid' Hppid']]].
  apply descends_inv in Hdesc.
  destruct Hdesc as [Heq|[pe0 [Hpe0 [Hpid0 Hdesc]]]]; [exact Heq|].
  assert (pe0 = pe) by (apply (unique_entry l); try assumption; congruence).
  subst pe0. rewrite Hppid in Hdesc.
  destruct (tree_below_entry h l pe' Htree Hpe') as [Hpos Hlt];
    [rewrite Hppid'; exact Hparent|].
  rewrite Hpid', Hppid' in *.
  destruct (descends_height h l c' parent Htree Hdesc); lia.
Qed.

(** The subtrees of two children of [parent] do not meet. *)
Lemma siblings_disjoint (h : DWORD -> nat) (l : list PROCESSENTRY32)
  (parent c c' y : DWORD) :
  tree_below h l = true -> NoDup (pids l) -> h parent <> 0 ->
  In c (children parent l) -> In c' (children parent l) ->
  descends l c y -> descends l c' y -> c = c'.
Proof.
  intros Htree Hnd Hparent Hc Hc' Hdesc.
  induction Hdesc as [|pe Hpe Hdesc IH]; intros Hdesc'.
  - apply (sibling_not_below h l parent); assumption.
  - apply descends_inv in Hdesc'.
    destruct Hdesc' as [Heq|[pe0 [Hpe0 [Hpid0 Hdesc0]]]].
    + symmetry. apply (sibling_not_below h l parent); try assumption.
      rewrite <- Heq. apply descends_child; assumption.
    + assert (pe0 = pe) by (apply (unique_entry l); assumption).
      subst pe0. apply IH. exact Hdesc0.
Qed.

(** A path whose processes are not terminated is still there. *)
Lemma descends_filter_path (killed : list DWORD) (l : list PROCESSENTRY32) (a x : DWORD) :
  descends l a x ->
  (forall y, descends l a y -> descends l y x -> ~ In y killed) ->
  descends (filter (survives killed) l) a x.
Proof.
  intros Hdesc. induction Hdesc as [|pe Hpe Hdesc IH]; intros Hclear; [constructor|].
  apply descends_child.
  - apply filter_In. split; [exact Hpe|]. apply survives_In.
    apply Hclear; [apply descends_child; assumption | constructor].
  - apply IH. intros y Hy Hyx. apply Hclear; [exact Hy|].
    apply descends_child; assumption.
Qed.

(** *** What the loops collect *)

Lemma collected_descends (l : list PROCESSENTRY32) (a x : DWORD) :
  collected l a x -> descends l a x.
Proof.
  induction 1 as [|p c Hp IH Hc]; [constructor|].
  apply In_firstn_In in Hc. apply In_children in Hc.
  destruct Hc as [pe [Hpe [<- Hppid]]].
  apply descends_child; [exact Hpe|]. rewrite Hppid. exact IH.
Qed.

Lemma collected_trans (l : list PROCESSENTRY32) (a b x : DWORD) :
  collected l a b -> collected l b x -> collected l a x.
Proof.
  intros Hab Hbx. induction Hbx as [|p c Hp IH Hc]; [exact Hab|].
  apply (collected_child l a p); assumption.
Qed.

Lemma collected_via_child (l : list PROCESSENTRY32) (a x : DWORD) :
  collected l a x ->
  x = a \/ exists c, In c (firstn 256 (children a l)) /\ collected l c x.
Proof.
  induction 1 as [|p c Hp IH Hc]; [left; reflexivity|]. right.
  destruct IH as [->|[c0 [Hc0 Hc0p]]].
  - exists c. split; [exact Hc | constructor].
  - exists c0. split; [exact Hc0|]. apply (collected_child l c0 p); assumption.
Qed.

(** The children of a process none of whose children is terminated are
    listed as before. *)
Lemma children_filter_clear (killed : list DWORD) (l : list PROCESSENTRY32) (p : DWORD) :
  (forall c, In c (children p l) -> ~ In c killed) ->
  children p (filter (survives killed) l) = children p l.
Proof.
  unfold children, pids. induction l as [|pe l IH]; intros Hclear; [reflexivity|].
  cbn [filter] in *.
  destruct (N.eqb (th32ParentProcessID pe) p) eqn:Hp.
  - cbn [map] in Hclear.
    assert (Hs : survives killed pe = true).
    { apply survives_In. apply Hclear. left. reflexivity. }
    rewrite Hs. cbn [filter]. rewrite Hp. cbn [map]. f_equal.
    apply IH. intros c Hc. apply Hclear. right. exact Hc.
  - destruct (survives killed pe); cbn [filter]; [rewrite Hp|]; apply IH; exact Hclear.
Qed.

(** What is collected below [a] is not changed by the termination of
    processes that are not below [a]. *)
Lemma collected_filter (killed : list DWORD) (l : list PROCESSENTRY32) (a x : DWORD) :
  (forall y, descends l a y -> ~ In y killed) ->
  collected (filter (survives killed) l) a x <-> collected l a x.
Proof.
  intros Hclear.
  assert (Hsame : forall p, descends l a p ->
            children p (filter (survives killed) l) = children p l).
  { intros p Hp. apply children_filter_clear. intros c Hc. apply Hclear.
    apply In_children in Hc. destruct Hc as [pe [Hpe [<- Hppid]]].
    apply descends_child; [exact Hpe|]. rewrite Hppid. exact Hp. }
  split.
  - induction 1 as [|p c Hp IH Hc]; [constructor|].
    apply (collected_child l a p); [exact IH|].
    rewrite <- Hsame; [exact Hc|]. apply collected_descends. exact IH.
  - induction 1 as [|p c Hp IH Hc]; [constructor|].
    apply (collected_child _ a p); [exact IH|].
    rewrite Hsame; [exact Hc|]. apply collected_descends. exact Hp.
Qed.

(** A child beyond the 256th is not collected. *)
Lemma skipped_not_collected (h : DWORD -> nat) (l : list PROCESSENTRY32)
  (pid c : DWORD) :
  NoDup (pids l) -> tree_below h l = true -> 0 < h pid ->
  In c (skipn 256 (children pid l)) -> ~ collected l pid c.
Proof.
  intros Hnd Htree Hpos Hc Hcollected.
  pose proof (In_skipn_In _ _ _ Hc) as Hc_child.
  apply collected_via_child in Hcollected.
  destruct Hcollected as [->|[ck [Hck Hcollected]]].
  - apply In_children in Hc_child. destruct Hc_child as [pe [Hpe [Hpid Hppid]]].
    destruct (tree_below_entry h l pe Htree Hpe) as [_ Hlt]; [rewrite Hppid; lia|].
    rewrite Hpid, Hppid in Hlt. lia.
  - assert (c = ck).
    { apply (sibling_not_below h l pid); try assumption; [lia | |].
      - apply (In_firstn_In 256). exact Hck.
      - apply collected_descends. exact Hcollected. }
    subst ck.
    apply (NoDup_app_disjoint (firstn 256 (children pid l))
             (skipn 256 (children pid l)) c); try assumption.
    rewrite firstn_skipn. apply NoDup_children. exact Hnd.
Qed.

(** *** The recursion *)

Section ProcessTree.

Variable h : DWORD -> nat.

(** The loop over the collected children [cs] of [parent]; [L] is the
    snapshot the children were collected from. *)
Lemma children_loop (fuel : nat) (L : list PROCESSENTRY32) (parent : DWORD) :
  tree_done h fuel ->
  NoDup (pids L) -> tree_below h L = true -> h parent <> 0 -> h parent <= S fuel ->
  forall cs w,
    snapshot_tree h w -> incl (processes w) L -> NoDup cs ->
    (forall c, In c cs -> In c (children parent L)) ->
    exists killed,
      for_each (terminate_process_tree fuel) cs w = Ok (after_kills killed w) /\
      NoDup killed /\
      (forall x, In x killed <->
         In x (pids (processes w)) /\ can_terminate x w = true /\
         exists c, In c cs /\ collected (processes w) c x) /\
      subtrees_first (processes w) killed.
Proof.
  intros IHtree HndL HtreeL Hparent Hfuel.
  induction cs as [|c rest IHloop]; intros w Hshape Hincl Hndcs Hsiblings.
  - exists []. split; [reflexivity|]. split; [constructor|].
    split; [|intros x y []]. intros x. split; [intros []|].
    intros [_ [_ [c [[] _]]]].
  - pose proof (Hsiblings c (or_introl eq_refl)) as Hc.
    pose proof Hc as Hc_entry. apply In_children in Hc_entry.
    destruct Hc_entry as [pe_c [Hpe_c [Hpid_c Hppid_c]]].
    destruct (tree_below_entry h L pe_c HtreeL Hpe_c) as [Hc_pos Hc_lt];
      [rewrite Hppid_c; exact Hparent|].
    rewrite Hpid_c in Hc_pos. rewrite Hpid_c, Hppid_c in Hc_lt.
    inversion Hndcs as [|c0 rest0 Hc_notin Hndrest]; subst c0 rest0.
    destruct (IHtree c w Hshape Hc_pos) as [killed_c [Hrun_c Hkilled_c]]; [lia|].
    destruct Hkilled_c as [Hnd_c [Hiff_c [Hlast_c Hfirst_c]]].
    assert (Hin_c : forall x, In x killed_c ->
              In x (pids (processes w)) /\ descends (processes w) c x).
    { intros x Hx. apply Hiff_c in Hx. destruct Hx as [Halive [Hcol _]].
      split; [exact Halive | apply collected_descends; exact Hcol]. }
    set (w1 := after_kills killed_c w) in *.
    assert (Hshape1 : snapshot_tree h w1) by (apply snapshot_tree_after_kills; exact Hshape).
    assert (Hsub1 : incl (processes w1) (processes w)) by apply processes_after_kills_incl.
    assert (Hincl1 : incl (processes w1) L).
    { intros pe Hin. apply Hincl, Hsub1. exact Hin. }
    destruct (IHloop w1 Hshape1 Hincl1 Hndrest) as [killed_r [Hrun_r [Hnd_r [Hiff_r Hfirst_r]]]].
    { intros c' Hc'. apply Hsiblings. right. exact Hc'. }
    assert (Halive1 : forall x, In x (pids (processes w1)) <->
                                In x (pids (processes w)) /\ ~ In x killed_c).
    { intros x. unfold w1. rewrite processes_after_kills.
      apply In_pids_filter_survives. }
    assert (Hclear : forall c' y, In c' rest -> descends (processes w) c' y ->
                                  ~ In y killed_c).
    { intros c' y Hc' Hdesc' Hkilled.
      destruct (Hin_c y Hkilled) as [_ Hdesc].
      assert (c = c').
      { apply (siblings_disjoint h L parent c c' y); try assumption.
        - apply Hsiblings. right. exact Hc'.
        - apply (descends_incl (processes w)); assumption.
        - apply (descends_incl (processes w)); assumption. }
      subst c'. contradiction. }
    assert (Hcollected1 : forall c' x, In c' rest ->
              (collected (processes w1) c' x <-> collected (processes w) c' x)).
    { intros c' x Hc'. unfold w1. rewrite processes_after_kills.
      apply collected_filter. intros y Hy. exact (Hclear c' y Hc' Hy). }
    assert (Hin_r : forall x, In x killed_r ->
              In x (pids (processes w1)) /\
              exists c', In c' rest /\ descends (processes w1) c' x).
    { intros x Hx. apply Hiff_r in Hx. destruct Hx as [Halive [_ [c' [Hc' Hcol]]]].
      split; [exact Halive|]. exists c'. split; [exact Hc'|].
      apply collected_descends. exact Hcol. }
    assert (Hnot_c : forall x, In x killed_r -> ~ descends (processes w) c x).
    { intros x Hx Hdesc. destruct (Hin_r x Hx) as [_ [c' [Hc' Hdesc']]].
      assert (c = c').
      { apply (siblings_disjoint h L parent c c' x); try assumption.
        - apply Hsiblings. right. exact Hc'.
        - apply (descends_incl (processes w)); assumption.
        - apply (descends_incl (processes w1)); assumption. }
      subst c'. contradiction. }
    exists (killed_c ++ killed_r).
    split; [|split; [|split]].
    + cbn [for_each]. rewrite Hrun_c. cbn [bind]. fold w1. rewrite Hrun_r.
      unfold w1. rewrite after_kills_app. reflexivity.
    + apply NoDup_app; try assumption.
      intros x Hx_c Hx_r. apply Hin_r in Hx_r. destruct Hx_r as [Hx_r _].
      apply Halive1 in Hx_r. destruct Hx_r as [_ Hnot]. contradiction.
    + intros x. split.
      * intros Hx. apply in_app_or in Hx. destruct Hx as [Hx|Hx].
        -- apply Hiff_c in Hx. destruct Hx as [Halive [Hcol Hopen]].
           split; [exact Halive|]. split; [exact Hopen|].
           exists c. split; [left; reflexivity | exact Hcol].
        -- apply Hiff_r in Hx. destruct Hx as [Halive [Hopen [c' [Hc' Hcol]]]].
           split; [apply Halive1 in Halive; apply Halive|].
           split; [unfold w1 in Hopen; rewrite can_terminate_after_kills in Hopen;
                   exact Hopen|].
           exists c'. split; [right; exact Hc'|].
           apply (Hcollected1 c' x Hc'). exact Hcol.
      * intros [Halive [Hopen [c' [[<-|Hc'] Hcol]]]]; apply in_or_app.
        -- left. apply Hiff_c. repeat split; assumption.
        -- right. apply Hiff_r. split; [|split].
           ++ apply Halive1. split; [exact Halive|].
              apply (Hclear c' x Hc'). apply collected_descends. exact Hcol.
           ++ unfold w1. rewrite can_terminate_after_kills. exact Hopen.
           ++ exists c'. split; [exact Hc'|]. apply (Hcollected1 c' x Hc'). exact Hcol.
    + intros x y Hx Hy Hne Hdesc.
      apply in_app_or in Hx. apply in_app_or in Hy.
      destruct Hx as [Hx|Hx], Hy as [Hy|Hy].
      * apply before_app_r. apply Hfirst_c; assumption.
      * apply before_split; assumption.
      * exfalso. apply (Hnot_c x Hx).
        apply (descends_trans _ _ y); [apply (Hin_c y Hy) | exact Hdesc].
      * apply before_app_l. apply Hfirst_r; try assumption.
        unfold w1. rewrite processes_after_kills.
        apply descends_filter_path; [exact Hdesc|].
        intros z Hyz Hzx Hz. apply (Hnot_c x Hx).
        apply (descends_trans _ _ z); [apply (Hin_c z Hz) | exact Hzx].
Qed.

Lemma terminate_process_tree_done (fuel : nat) : tree_done h fuel.
Proof.
  induction fuel as [|fuel IHtree]; intros pid w Hshape Hpos Hfuel; [lia|].
  pose proof Hshape as [Hok [Hnd Htree]].
  cbn [terminate_process_tree]. rewrite Hok. cbn [negb].
  destruct (collect_children_safe pid (processes w))
    as [child_pids [child_count [Hcollect [_ [_ Hfirst]]]]].
  rewrite Hcollect, Hfirst.
  set (cs := firstn 256 (children pid (processes w))).
  assert (Hchild : forall c, In c (children pid (processes w)) ->
            exists pe, In pe (processes w) /\ th32ProcessID pe = c /\
                       th32ParentProcessID pe = pid).
  { intros c Hc. apply In_children. exact Hc. }
  assert (Hchild_h : forall c, In c (children pid (processes w)) -> 0 < h c /\ h c < h pid).
  { intros c Hc. destruct (Hchild c Hc) as [pe [Hpe [<- Hppid]]].
    rewrite <- Hppid. apply (tree_below_entry h (processes w)); try assumption.
    rewrite Hppid. lia. }
  destruct (children_loop fuel (processes w) pid IHtree Hnd Htree) with (cs := cs) (w := w)
    as [killed_l [Hrun [Hnd_l [Hiff_l Hfirst_l]]]]; try lia.
  { exact Hshape. }
  { apply incl_refl. }
  { apply NoDup_firstn_of, NoDup_children. exact Hnd. }
  { intros c Hc. apply (In_firstn_In 256). exact Hc. }
  rewrite Hrun. cbn [bind].
  assert (Hbelow : forall x, In x killed_l ->
            0 < h x /\ h x < h pid /\ collected (processes w) pid x).
  { intros x Hx. apply Hiff_l in Hx. destruct Hx as [_ [_ [c [Hc Hcol]]]].
    pose proof (In_firstn_In _ _ _ Hc) as Hc_child.
    destruct (Hchild_h c Hc_child) as [Hc1 Hc2].
    destruct (descends_height h (processes w) c x Htree (collected_descends _ _ _ Hcol));
      [lia|].
    split; [lia|]. split; [lia|].
    apply (collected_trans _ _ c); [|exact Hcol].
    apply (collected_child _ _ pid); [constructor | exact Hc]. }
  assert (Hroot_notin : ~ In pid killed_l).
  { intros Hin. destruct (Hbelow pid Hin). lia. }
  assert (Hreached : forall x,
            In x (pids (processes w)) -> collected (processes w) pid x ->
            can_terminate x w = true -> x = pid \/ In x killed_l).
  { intros x Halive Hcol Hopen. apply collected_via_child in Hcol.
    destruct Hcol as [Heq|[c [Hc Hcol]]]; [left; exact Heq|].
    right. apply Hiff_l. split; [exact Halive|]. split; [exact Hopen|].
    exists c. split; assumption. }
  assert (Hstill : In pid (pids (processes w)) ->
                   pid_running pid (after_kills killed_l w) = true).
  { intros Halive. apply pid_running_In. rewrite processes_after_kills.
    apply In_pids_filter_survives. split; assumption. }
  destruct (pid_running pid (after_kills killed_l w) &&
            can_terminate pid (after_kills killed_l w)) eqn:Hends.
  - apply andb_true_iff in Hends. destruct Hends as [Hrunning Hopen].
    rewrite open_and_terminate_running by assumption.
    rewrite can_terminate_after_kills in Hopen.
    assert (Halive : In pid (pids (processes w))).
    { apply pid_running_In in Hrunning. rewrite processes_after_kills in Hrunning.
      apply In_pids_filter_survives in Hrunning. apply Hrunning. }
    exists (killed_l ++ [pid]). split.
    { rewrite after_kills_app. reflexivity. }
    split; [|split; [|split]].
    + apply NoDup_app; [exact Hnd_l | constructor; [intros []|constructor] |].
      intros x Hx [<-|[]]. contradiction.
    + intros x. split.
      * intros Hx. apply in_app_or in Hx. destruct Hx as [Hx|[<-|[]]].
        -- split; [apply (Hiff_l x); exact Hx|].
           split; [apply (Hbelow x Hx) | apply (Hiff_l x); exact Hx].
        -- split; [exact Halive|]. split; [constructor | exact Hopen].
      * intros [Hx_alive [Hx_col Hx_open]]. apply in_or_app.
        destruct (Hreached x Hx_alive Hx_col Hx_open) as [->|Hx];
          [right; left; reflexivity | left; exact Hx].
    + intros _. exists killed_l. reflexivity.
    + intros x y Hx Hy Hne Hdesc.
      apply in_app_or in Hx. apply in_app_or in Hy.
      destruct Hx as [Hx|[<-|[]]], Hy as [Hy|[<-|[]]].
      * apply before_app_r. apply Hfirst_l; assumption.
      * apply before_split; [exact Hx | left; reflexivity].
      * exfalso. destruct (Hbelow y Hy) as [Hy_pos [Hy_lt _]].
        destruct (descends_height h (processes w) y pid Htree Hdesc); lia.
      * contradiction.
  - assert (Hsame : open_and_terminate pid (after_kills killed_l w) = after_kills killed_l w).
    { apply andb_false_iff in Hends. destruct Hends as [Hgone|Hrefused].
      - apply open_and_terminate_gone. exact Hgone.
      - apply open_and_terminate_refused. exact Hrefused. }
    rewrite Hsame.
    exists killed_l. split; [reflexivity|].
    split; [exact Hnd_l|]. split; [|split].
    + intros x. split.
      * intros Hx. split; [apply (Hiff_l x); exact Hx|].
        split; [apply (Hbelow x Hx) | apply (Hiff_l x); exact Hx].
      * intros [Hx_alive [Hx_col Hx_open]].
        destruct (Hreached x Hx_alive Hx_col Hx_open) as [->|Hx]; [|exact Hx].
        exfalso. rewrite (Hstill Hx_alive) in Hends.
        rewrite can_terminate_after_kills, Hx_open in Hends. discriminate.
    + intros Hin. contradiction.
    + exact Hfirst_l.
Qed.

End ProcessTree.

Lemma snapshot_tree_of_checks (h : DWORD -> nat) (w : World) :
  os_snapshot_ok (os w) = true ->
  distinct (pids (processes w)) = true ->
  tree_below h (processes w) = true ->
  snapshot_tree h w.
Proof.
  intros Hok Hdistinct Htree. split; [exact Hok|]. split; [|exact Htree].
  apply distinct_NoDup. exact Hdistinct.
Qed.




(** C8: the first pass of [terminate_process_tree] never writes outside
    its 256-entry buffer, whatever the snapshot: it ends with at most 256
    children collected, the first 256 of the snapshot in snapshot order.
    The call returns normally, and a child of [pid] beyond the 256th in
    the snapshot is not terminated: it is still running afterwards. *)
Theorem terminate_process_tree_fan_out_cap :
  (forall (pid : DWORD) (snapshot : list PROCESSENTRY32),
      exists child_pids child_count,
        collect_children pid snapshot fresh_child_pids 0 = Some (child_pids, child_count) /\
        List.length child_pids = 256 /\
        child_count <= 256 /\
        firstn child_count child_pids = firstn 256 (children pid snapshot)) /\
  (forall (h : DWORD -> nat) (fuel : nat) (pid : DWORD) (w : World),
      os_snapshot_ok (os w) = true ->
      distinct (pids (processes w)) = true ->
      tree_below h (processes w) = true ->
      0 < h pid -> h pid <= fuel ->
      exists w',
        terminate_process_tree fuel pid w = Ok w' /\
        forall c, In c (skipn 256 (children pid (processes w))) ->
                  pid_running c w' = true /\
                  ~ In (EvTerminateProcess c) (skipn (List.length (trace w)) (trace w'))).
Proof.
  split.
  - apply collect_children_safe.
  - intros h fuel pid w Hok Hdistinct Htree Hpos Hfuel.
    pose proof (snapshot_tree_of_checks h w Hok Hdistinct Htree) as Hshape.
    destruct (terminate_process_tree_done h fuel pid w Hshape Hpos Hfuel)
      as [killed [Hrun [_ [Hiff _]]]].
    assert (Hskipped : forall c, In c (skipn 256 (children pid (processes w))) ->
                                 ~ In c killed).
    { intros c Hc Hkilled. apply Hiff in Hkilled. destruct Hkilled as [_ [Hcol _]].
      destruct Hshape as [_ [Hnd _]].
      exact (skipped_not_collected h (processes w) pid c Hnd Htree Hpos Hc Hcol). }
    exists (after_kills killed w). split; [exact Hrun|].
    intros c Hc. split.
    + apply pid_running_In. rewrite processes_after_kills.
      apply In_pids_filter_survives. split; [|exact (Hskipped c Hc)].
      apply In_skipn_In in Hc. apply In_children in Hc.
      destruct Hc as [pe [Hpe [<- _]]]. apply in_map. exact Hpe.
    + rewrite trace_after_kills, skipn_app, Nat.sub_diag, skipn_all. cbn [app skipn].
      intros Hin. apply in_map_iff in Hin. destruct Hin as [x [Heq Hx]].
      injection Heq as ->. exact (Hskipped c Hc Hx).
Qed.

Lemma terminate_process_tree_fan_out_cap_witness :
  (exists child_pids child_count,
      collect_children 10%N (processes crowded) fresh_child_pids 0
        = Some (child_pids, child_count) /\
      List.length child_pids = 256 /\
      child_count <= 256 /\
      firstn child_count child_pids = firstn 256 (children 10%N (processes crowded))) /\
  (exists w',
      terminate_process_tree 2 10%N crowded = Ok w' /\
      forall c, In c (skipn 256 (children 10%N (processes crowded))) ->
                pid_running c w' = true /\
                ~ In (EvTerminateProcess c) (skipn (List.length (trace crowded)) (trace w'))) /\
  In 1256%N (skipn 256 (children 10%N (processes crowded))).
Proof.
  split; [|split].
  - apply (proj1 terminate_process_tree_fan_out_cap 10%N (processes crowded)).
  - apply (proj2 terminate_process_tree_fan_out_cap crowded_height 2 10%N crowded).
    + reflexivity.
    + vm_compute. reflexivity.
    + vm_compute. reflexivity.
    + vm_compute. lia.
    + vm_compute. lia.
  - vm_compute. left. reflexivity.
Defined.

(** ** Output does not change anything else *)

Lemma silent_log_message (level m : string) (w : World) :
  silent (log_message level m w) = silent w.
Proof.
  unfold log_message.
  destruct (str_empty (G_LOG_PATH (globals w))); [reflexivity|].
  destruct (mem_string (G_LOG_PATH (globals w)) (os_write_denied (os w))); reflexivity.
Qed.

Lemma silent_show_message (m : string) (w : World) :
  silent (show_message m w) = silent w.
Proof. unfold show_message. rewrite silent_log_message. reflexivity. Qed.

Lemma silent_eq_fields (w w' : World) :
  silent w' = silent w ->
  globals w' = globals w /\ processes w' = processes w /\ trace w' = trace w /\
  os_snapshot_ok (os w') = os_snapshot_ok (os w) /\
  os_handles (os w') = os_handles (os w) /\
  os_files (os w') = os_files (os w) /\
  os_taskbar_visible (os w') = os_taskbar_visible (os w) /\
  os_write_denied (os w') = os_write_denied (os w) /\
  os_ini (os w') = os_ini (os w) /\
  os_current_pid (os w') = os_current_pid (os w) /\
  os_is_admin (os w') = os_is_admin (os w) /\
  os_query_denied (os w') = os_query_denied (os w) /\
  os_terminate_denied (os w') = os_terminate_denied (os w).
Proof.
  intros H.
  change (globals (silent w') = globals (silent w) /\
          processes (silent w') = processes (silent w) /\
          trace (silent w') = trace (silent w) /\
          os_snapshot_ok (os (silent w')) = os_snapshot_ok (os (silent w)) /\
          os_handles (os (silent w')) = os_handles (os (silent w)) /\
          os_files (os (silent w')) = os_files (os (silent w)) /\
          os_taskbar_visible (os (silent w')) = os_taskbar_visible (os (silent w)) /\
          os_write_denied (os (silent w')) = os_write_denied (os (silent w)) /\
          os_ini (os (silent w')) = os_ini (os (silent w)) /\
          os_current_pid (os (silent w')) = os_current_pid (os (silent w)) /\
          os_is_admin (os (silent w')) = os_is_admin (os (silent w)) /\
          os_query_denied (os (silent w')) = os_query_denied (os (silent w)) /\
          os_terminate_denied (os (silent w')) = os_terminate_denied (os (silent w))).
  rewrite H. repeat split.
Qed.

Lemma snapshot_tree_silent (h : DWORD -> nat) (w w' : World) :
  silent w' = silent w -> snapshot_tree h w -> snapshot_tree h w'.
Proof.
  intros H Hshape. destruct (silent_eq_fields w w' H) as [_ [Hp [_ [Hok _]]]].
  unfold snapshot_tree. rewrite Hp, Hok. exact Hshape.
Qed.

(** ** Draining the registry *)

Lemma frame_after_kills (killed : list DWORD) (w : World) :
  os_files (os (after_kills killed w)) = os_files (os w) /\
  os_taskbar_visible (os (after_kills killed w)) = os_taskbar_visible (os w) /\
  console (after_kills killed w) = console w.
Proof.
  revert w. induction killed as [|k killed IH]; intros w; [repeat split|].
  change (after_kills (k :: killed) w) with (after_kills killed (kill_now k w)).
  destruct (IH (kill_now k w)) as [Hf [Hv Hc]]. rewrite Hf, Hv, Hc. repeat split.
Qed.

Lemma tracked_loop (h : DWORD -> nat) (fuel : nat) (l : list TrackedProcess) :
  forall w,
    snapshot_tree h w ->
    (forall tp, In tp l ->
       0 < h (dwProcessId (tp_pi tp)) /\ h (dwProcessId (tp_pi tp)) <= fuel) ->
    exists w',
      for_each
        (fun current w' =>
           terminate_process_tree fuel (dwProcessId (tp_pi current)) w' >>= fun w1 =>
           Ok (CloseHandle (hThread (tp_pi current))
                 (CloseHandle (hProcess (tp_pi current)) w1)))
        l w = Ok w' /\
      snapshot_tree h w' /\
      globals w' = globals w /\
      closed (trace w') =
        closed (trace w) ++ flat_map (fun tp => [hProcess (tp_pi tp); hThread (tp_pi tp)]) l /\
      os_files (os w') = os_files (os w) /\
      os_taskbar_visible (os w') = os_taskbar_visible (os w) /\
      console w' = console w.
Proof.
  induction l as [|tp l IH]; intros w Hshape Hdepth.
  - exists w. cbn [for_each flat_map]. rewrite app_nil_r.
    split; [reflexivity|]. split; [exact Hshape|]. repeat split.
  - destruct (Hdepth tp (or_introl eq_refl)) as [Hpos Hle].
    destruct (terminate_process_tree_done h fuel _ w Hshape Hpos Hle)
      as [killed [Hrun _]].
    cbn [for_each]. rewrite Hrun. cbn [bind].
    set (w1 := CloseHandle (hThread (tp_pi tp))
                 (CloseHandle (hProcess (tp_pi tp)) (after_kills killed w))).
    assert (Hshape1 : snapshot_tree h w1).
    { exact (snapshot_tree_after_kills h killed w Hshape). }
    destruct (IH w1 Hshape1) as [w' [Hloop [Hshape' [Hglobals [Hclosed [Hf [Hv Hc]]]]]]].
    { intros tp' Hin. apply Hdepth. right. exact Hin. }
    destruct (frame_after_kills killed w) as [Hf0 [Hv0 Hc0]].
    exists w'. split; [exact Hloop|]. split; [exact Hshape'|].
    split; [|split; [|split; [|split]]].
    + rewrite Hglobals. unfold w1. cbn [CloseHandle emit with_os globals].
      apply globals_after_kills.
    + rewrite Hclosed. unfold w1, CloseHandle, emit, trace.
      cbn [with_os os set_os_trace set_os_handles os_trace].
      change (os_trace (os (after_kills killed w))) with (trace (after_kills killed w)).
      rewrite trace_after_kills, !closed_app.
      assert (Hnone : closed (map EvTerminateProcess killed) = []).
      { clear. induction killed as [|k killed IHk]; [reflexivity | exact IHk]. }
      rewrite Hnone. cbn [closed flat_map app]. rewrite app_nil_r, <- !app_assoc.
      reflexivity.
    + rewrite Hf. exact Hf0.
    + rewrite Hv. exact Hv0.
    + rewrite Hc. exact Hc0.
Qed.

(** The first call: the registry is drained. *)
Lemma kill_all_tracked_processes_drains (h : DWORD -> nat) (fuel : nat) (w : World) :
  snapshot_tree h w ->
  (forall tp, In tp (tracked w) ->
     0 < h (dwProcessId (tp_pi tp)) /\ h (dwProcessId (tp_pi tp)) <= fuel) ->
  exists w1,
    kill_all_tracked_processes fuel w = Ok w1 /\
    globals w1 = set_G_TRACKED_PROCESSES [] (globals w) /\
    closed (trace w1) =
      closed (trace w) ++
      flat_map (fun tp => [hProcess (tp_pi tp); hThread (tp_pi tp)]) (tracked w) /\
    os_files (os w1) = os_files (os w) /\
    os_taskbar_visible (os w1) = os_taskbar_visible (os w) /\
    console w1 = console w ++ ["Cleaning up background processes..."].
Proof.
  intros Hshape Hdepth.
  set (m := "Cleaning up background processes...").
  pose proof (silent_show_message m w) as Hsilent.
  destruct (silent_eq_fields _ _ Hsilent) as [Hg [_ [Ht [_ [_ [Hf [Hv _]]]]]]].
  assert (Htracked : tracked (show_message m w) = tracked w)
    by (unfold tracked; rewrite Hg; reflexivity).
  destruct (tracked_loop h fuel (tracked w) (show_message m w))
    as [w' [Hloop [_ [Hg' [Hclosed [Hf' [Hv' Hc']]]]]]].
  { exact (snapshot_tree_silent h w _ Hsilent Hshape). }
  { exact Hdepth. }
  exists (with_globals (set_G_TRACKED_PROCESSES []) w').
  split; [|split; [|split; [|split; [|split]]]].
  - unfold kill_all_tracked_processes. fold m. rewrite Htracked, Hloop. reflexivity.
  - cbn [with_globals globals]. rewrite Hg', Hg. reflexivity.
  - change (trace (with_globals (set_G_TRACKED_PROCESSES []) w')) with (trace w').
    rewrite Hclosed, Ht. reflexivity.
  - cbn [with_globals os]. rewrite Hf', Hf. reflexivity.
  - cbn [with_globals os]. rewrite Hv', Hv. reflexivity.
  - change (console (with_globals (set_G_TRACKED_PROCESSES []) w')) with (console w').
    rewrite Hc'. apply console_show_message.
Qed.

(** A call on an empty registry only prints its message. *)
Lemma kill_all_tracked_processes_empty (fuel : nat) (w : World) :
  tracked w = [] ->
  exists w2,
    kill_all_tracked_processes fuel w = Ok w2 /\
    tracked w2 = [] /\
    trace w2 = trace w /\
    processes w2 = processes w /\
    os_handles (os w2) = os_handles (os w).
Proof.
  intros Hempty.
  set (m := "Cleaning up background processes...").
  pose proof (silent_show_message m w) as Hsilent.
  destruct (silent_eq_fields _ _ Hsilent) as [Hg [Hp [Ht [_ [Hh _]]]]].
  exists (with_globals (set_G_TRACKED_PROCESSES []) (show_message m w)).
  split; [|split; [reflexivity|split; [exact Ht|split; [exact Hp|exact Hh]]]].
  unfold kill_all_tracked_processes. fold m.
  assert (Hnone : tracked (show_message m w) = [])
    by (unfold tracked; rewrite Hg; exact Hempty).
  rewrite Hnone. reflexivity.
Qed.

(** C5: when the trees below the tracked processes have a depth within
    the recursion budget, [kill_all_tracked_processes] returns with the
    registry empty, having closed both handles of every entry; called
    again, with any budget, it returns with the registry still empty and
    makes no system call at all: no process is terminated, no handle is
    closed. *)
Theorem kill_all_tracked_processes_idempotent
  (h : DWORD -> nat) (fuel : nat) (w : World) :
  os_snapshot_ok (os w) = true ->
  distinct (pids (processes w)) = true ->
  tree_below h (processes w) = true ->
  (forall tp, In tp (tracked w) ->
     0 < h (dwProcessId (tp_pi tp)) /\ h (dwProcessId (tp_pi tp)) <= fuel) ->
  exists w1,
    kill_all_tracked_processes fuel w = Ok w1 /\
    tracked w1 = [] /\
    closed (trace w1) =
      closed (trace w) ++
      flat_map (fun tp => [hProcess (tp_pi tp); hThread (tp_pi tp)]) (tracked w) /\
    forall fuel2,
      exists w2,
        kill_all_tracked_processes fuel2 w1 = Ok w2 /\
        tracked w2 = [] /\
        trace w2 = trace w1 /\
        processes w2 = processes w1 /\
        os_handles (os w2) = os_handles (os w1).
Proof.
  intros Hok Hdistinct Htree Hdepth.
  pose proof (snapshot_tree_of_checks h w Hok Hdistinct Htree) as Hshape.
  destruct (kill_all_tracked_processes_drains h fuel w Hshape Hdepth)
    as [w1 [Hrun [Hg [Hclosed _]]]].
  assert (Hempty : tracked w1 = []) by (unfold tracked; rewrite Hg; reflexivity).
  exists w1. split; [exact Hrun|]. split; [exact Hempty|]. split; [exact Hclosed|].
  intros fuel2. apply kill_all_tracked_processes_empty. exact Hempty.
Qed.

Lemma kill_all_tracked_processes_idempotent_witness :
  exists w1,
    kill_all_tracked_processes 2 two_helpers = Ok w1 /\
    tracked w1 = [] /\
    closed (trace w1) =
      closed (trace two_helpers) ++
      flat_map (fun tp => [hProcess (tp_pi tp); hThread (tp_pi tp)]) (tracked two_helpers) /\
    forall fuel2,
      exists w2,
        kill_all_tracked_processes fuel2 w1 = Ok w2 /\
        tracked w2 = [] /\
        trace w2 = trace w1 /\
        processes w2 = processes w1 /\
        os_handles (os w2) = os_handles (os w1).
Proof.
  apply (kill_all_tracked_processes_idempotent synthetic_height 2 two_helpers).
  - reflexivity.
  - reflexivity.
  - reflexivity.
  - intros tp [<-|[<-|[]]]; vm_compute; lia.
Defined.

(** ** Exit paths *)

Lemma console_log_message (level m : string) (w : World) :
  console (log_message level m w) = console w.
Proof.
  unfold log_message.
  destruct (str_empty (G_LOG_PATH (globals w))); [reflexivity|].
  destruct (mem_string (G_LOG_PATH (globals w)) (os_write_denied (os w))); reflexivity.
Qed.

Lemma pid_file_of_not_empty (home : string) : str_empty (pid_file_of home) = false.
Proof.
  unfold pid_file_of, snprintf.
  change (MAX_PATH_LEN - 1) with (S 1022).
  destruct home; reflexivity.
Qed.

Lemma check_instances_no_file (w : World) :
  str_empty (G_PID_FILE (globals w)) = false ->
  lock_file w = None ->
  check_instances w = (true, write_pid_file w).
Proof.
  unfold lock_file, check_instances. intros Hpath Hnone. rewrite Hpath, Hnone. reflexivity.
Qed.

Lemma write_pid_file_effect (w : World) :
  lock_usable w = true ->
  exists w',
    write_pid_file w = w' /\
    globals w' = globals w /\
    console w' = console w /\
    os_ini (os w') = os_ini (os w) /\
    lock_file w' = Some (print_lu (os_current_pid (os w))) /\
    trace w' =
      trace w ++ [EvWriteFile (G_PID_FILE (globals w)) (print_lu (os_current_pid (os w)))].
Proof.
  intros Husable. destruct (lock_usable_path w Husable) as [Hpath Hdenied].
  eexists. split; [reflexivity|].
  pose proof (write_pid_file_writes w Husable) as Hwritten.
  unfold write_pid_file, write_file in *. rewrite Hpath, Hdenied in *.
  repeat split. exact Hwritten.
Qed.

(** When the ini file cannot be read, [main] returns 1 after having taken
    the lock: the lock file stays behind and [ensure_cleanup] never ran. *)
Lemma main_leaves_lock_on_configuration_failure
  (fuel : nat) (shortcut : string) (w : World) :
  let ini := ini_path_of shortcut in
  let lock := pid_file_of (home_dir_of ini) in
  assoc lock (os_files (os w)) = None ->
  mem_string lock (os_write_denied (os w)) = false ->
  assoc ini (os_ini (os w)) = None ->
  exists w',
    main fuel (Some shortcut) w = Ok (1, w') /\
    G_PID_FILE (globals w') = lock /\
    lock_file w' = Some (print_lu (os_current_pid (os w))) /\
    trace w' = trace w ++ [EvWriteFile lock (print_lu (os_current_pid (os w)))] /\
    ~ In "Ensuring cleanup..." (skipn (List.length (console w)) (console w')).
Proof.
  intros ini lock Hnolock Hwritable Hnoini.
  unfold main. fold ini. cbv zeta.
  set (w_b := with_globals (fun g => set_G_PID_FILE (pid_file_of (G_HOME_DIR g)) g)
                (with_globals (set_G_HOME_DIR (home_dir_of ini)) w)).
  set (w_c := show_message "Launcher starting..." w_b).
  set (w_d := with_globals (set_G_IS_ADMIN (os_is_admin (os w_c))) w_c).
  match goal with |- context [check_instances ?x] => set (w_e := x) end.
  set (admin_note := if G_IS_ADMIN (globals w_d)
                     then ["Running with administrator privileges."] else []).
  assert (He : silent w_e = silent w_d /\ console w_e = console w_d ++ admin_note).
  { unfold w_e, admin_note. destruct (G_IS_ADMIN (globals w_d)).
    - split; [apply silent_show_message | apply console_show_message].
    - split; [reflexivity | symmetry; apply app_nil_r]. }
  destruct He as [Hsilent_e Hconsole_e].
  assert (Hsilent_c : silent w_c = silent w_b) by apply silent_show_message.
  destruct (silent_eq_fields _ _ Hsilent_c)
    as [Hg_c [_ [Ht_c [_ [_ [Hf_c [_ [Hd_c [Hi_c [Hp_c _]]]]]]]]]].
  assert (Hsilent_d : silent w_d = silent (with_globals (set_G_IS_ADMIN (os_is_admin (os w_c))) w_b)).
  { unfold w_d. change (with_globals (set_G_IS_ADMIN (os_is_admin (os w_c))) (silent w_c)
                        = with_globals (set_G_IS_ADMIN (os_is_admin (os w_c))) (silent w_b)).
    rewrite Hsilent_c. reflexivity. }
  rewrite Hsilent_d in Hsilent_e.
  destruct (silent_eq_fields _ _ Hsilent_e)
    as [Hg_e [_ [Ht_e [_ [_ [Hf_e [_ [Hd_e [Hi_e [Hp_e _]]]]]]]]]].
  assert (Hpath_e : G_PID_FILE (globals w_e) = lock) by (rewrite Hg_e; reflexivity).
  assert (Husable_e : lock_usable w_e = true).
  { unfold lock_usable. rewrite Hpath_e, Hd_e. unfold lock at 1.
    rewrite pid_file_of_not_empty. cbn [negb andb os w_b with_globals].
    apply negb_true_iff. exact Hwritable. }
  rewrite check_instances_no_file.
  2:{ rewrite Hpath_e. apply pid_file_of_not_empty. }
  2:{ unfold lock_file, fopen_r. rewrite Hpath_e, Hf_e. exact Hnolock. }
  cbn [negb].
  destruct (write_pid_file_effect w_e Husable_e)
    as [w_f [-> [Hg_f [Hc_f [Hi_f [Hlock_f Ht_f]]]]]].
  unfold load_configuration.
  match goal with |- context [assoc ini (os_ini (os ?x))] => set (w_i := x) end.
  assert (Hframe_i : os w_i = os w_f /\ G_PID_FILE (globals w_i) = G_PID_FILE (globals w_f)).
  { unfold w_i. destruct (has_separator _); split; try reflexivity; rewrite Hg_f; reflexivity. }
  destruct Hframe_i as [Hos_i Hpath_i].
  assert (Hnoini_i : assoc ini (os_ini (os w_i)) = None).
  { rewrite Hos_i, Hi_f, Hi_e. exact Hnoini. }
  rewrite Hnoini_i. cbn [Nat.eqb negb].
  set (m1 := "Can't load 'Game.ini'"). set (m2 := "Failed to load configuration.").
  exists (show_message m2 (show_message m1 w_i)).
  split; [reflexivity|].
  assert (Hs1 : silent (show_message m2 (show_message m1 w_i)) = silent w_i)
    by (rewrite !silent_show_message; reflexivity).
  destruct (silent_eq_fields _ _ Hs1) as [Hg_1 [_ [Ht_1 [_ [_ [Hf_1 _]]]]]].
  assert (Hpath_1 : G_PID_FILE (globals (show_message m2 (show_message m1 w_i))) = lock).
  { rewrite Hg_1, Hpath_i, Hg_f. exact Hpath_e. }
  split; [exact Hpath_1|]. split; [|split].
  - unfold lock_file, fopen_r in *. rewrite Hpath_1, Hf_1, Hos_i.
    rewrite Hg_f, Hpath_e in Hlock_f. rewrite Hlock_f, Hp_e. reflexivity.
  - rewrite Ht_1. unfold trace in *. rewrite Hos_i, Ht_f, Hpath_e, Ht_e, Hp_e. reflexivity.
  - assert (Hcon_i : console w_i = console w_f)
      by (unfold console; rewrite Hos_i; reflexivity).
    assert (Hconsole : console (show_message m2 (show_message m1 w_i)) =
                       console w ++ ("Launcher starting..." :: admin_note ++ [m1; m2])).
    { rewrite !console_show_message, Hcon_i, Hc_f, Hconsole_e.
      change (console w_d) with (console w_c). unfold w_c.
      rewrite console_show_message. change (console w_b) with (console w).
      rewrite <- !app_assoc. reflexivity. }
    rewrite Hconsole, skipn_app, Nat.sub_diag, skipn_all. cbn [app skipn].
    unfold admin_note, m1, m2.
    destruct (G_IS_ADMIN (globals w_d)); cbn [app];
      intros Hin; repeat (destruct Hin as [Hin|Hin]; [discriminate Hin|]); exact Hin.
Qed.

Lemma tray_cleanup_frame (w : World) :
  os_files (os (tray_cleanup w)) = os_files (os w) /\
  tracked (tray_cleanup w) = tracked w /\
  processes (tray_cleanup w) = processes w /\
  os_taskbar_visible (os (tray_cleanup w)) = os_taskbar_visible (os w) /\
  G_BORDERLESS_PROCESS (globals (tray_cleanup w)) = G_BORDERLESS_PROCESS (globals w) /\
  console (tray_cleanup w) = console w.
Proof.
  unfold tray_cleanup.
  destruct (tray_running (G_TRAY_MENU (globals w))); [|repeat split].
  match goal with |- context [log_message ?l ?m ?x] =>
    pose proof (silent_log_message l m x) as Hsilent;
    pose proof (console_log_message l m x) as Hconsole;
    set (w' := log_message l m x) in *
  end.
  destruct (silent_eq_fields _ _ Hsilent) as [Hg [Hp [_ [_ [_ [Hf [Hv _]]]]]]].
  unfold tracked. rewrite Hf, Hp, Hv, Hg, Hconsole.
  destruct (negb (N.eqb (tray_hwnd (G_TRAY_MENU (globals (emit EvNotifyIconDelete w)))) NULL));
    repeat split.
Qed.

(** The tray command "Exit Launcher" ends the process without
    [ensure_cleanup]: with an empty exit sequence and no game handle, the
    only calls made are those that remove the tray icon. *)
Lemma tray_exit_launcher_skips_cleanup (fuel : nat) (w : World) :
  exit_sequence (cfg w) = EmptyString ->
  hProcess (G_GAME_PROCESS_INFO (globals w)) = NULL ->
  exists w',
    tray_exit_launcher fuel w = Ok w' /\
    (exists t, trace w' = t ++ [EvExitProcess 0]) /\
    os_files (os w') = os_files (os w) /\
    tracked w' = tracked w /\
    processes w' = processes w /\
    os_taskbar_visible (os w') = os_taskbar_visible (os w) /\
    G_BORDERLESS_PROCESS (globals w') = G_BORDERLESS_PROCESS (globals w) /\
    console w' = console w.
Proof.
  intros Hseq Hgame.
  unfold tray_exit_launcher, tray_stop_game. cbv zeta.
  set (w_a := log_message "INFO" "Exit requested from tray menu" w).
  set (w_b := log_message "INFO" "Stop requested from tray menu" w_a).
  assert (Hsilent : silent w_b = silent w).
  { unfold w_b, w_a. rewrite !silent_log_message. reflexivity. }
  assert (Hconsole : console w_b = console w).
  { unfold w_b, w_a. rewrite !console_log_message. reflexivity. }
  destruct (silent_eq_fields _ _ Hsilent) as [Hg [Hp [_ [_ [_ [Hf [Hv _]]]]]]].
  assert (Hseq_b : exit_sequence (cfg w_b) = EmptyString).
  { unfold cfg. rewrite Hg. exact Hseq. }
  rewrite Hseq_b. cbn [execute_sequence str_empty bind].
  rewrite Hg, Hgame. cbn [N.eqb NULL negb bind].
  destruct (tray_cleanup_frame w_b) as [Hf' [Ht' [Hp' [Hv' [Hb' Hc']]]]].
  eexists. split; [reflexivity|]. split; [eexists; reflexivity|].
  cbn [emit with_os os globals set_os_trace os_files os_taskbar_visible].
  change (tracked (emit (EvExitProcess 0) (tray_cleanup w_b))) with (tracked (tray_cleanup w_b)).
  change (processes (emit (EvExitProcess 0) (tray_cleanup w_b))) with (processes (tray_cleanup w_b)).
  change (console (emit (EvExitProcess 0) (tray_cleanup w_b))) with (console (tray_cleanup w_b)).
  rewrite Hf', Ht', Hp', Hv', Hb', Hc', Hf, Hp, Hv, Hconsole.
  unfold tracked. rewrite Hg. repeat split.
Qed.

(** *** What the cleanup guard does when it runs *)

Lemma assoc_removed {A : Type} (k : string) (l : list (string * A)) :
  assoc k (filter (fun kv => negb (String.eqb (fst kv) k)) l) = None.
Proof.
  induction l as [|[k' v] l IH]; [reflexivity|].
  cbn [filter fst]. destruct (String.eqb k' k) eqn:Hk; cbn [negb]; [exact IH|].
  cbn [assoc]. rewrite Hk. exact IH.
Qed.

Lemma set_taskbar_visibility_frame (show : bool) (w : World) :
  tracked (set_taskbar_visibility show w) = tracked w /\
  processes (set_taskbar_visibility show w) = processes w /\
  os_snapshot_ok (os (set_taskbar_visibility show w)) = os_snapshot_ok (os w) /\
  os_files (os (set_taskbar_visibility show w)) = os_files (os w) /\
  G_PID_FILE (globals (set_taskbar_visibility show w)) = G_PID_FILE (globals w) /\
  G_BORDERLESS_PROCESS (globals (set_taskbar_visibility show w)) =
    G_BORDERLESS_PROCESS (globals w).
Proof.
  unfold set_taskbar_visibility, ShowWindow.
  destruct (N.eqb (G_TASKBAR_HWND (globals w)) NULL) eqn:Hnull.
  - cbn [with_globals globals set_G_TASKBAR_HWND G_TASKBAR_HWND os].
    destruct (N.eqb (os_shell_traywnd (os w)) NULL); [repeat split|].
    rewrite N.eqb_refl. destruct show; repeat split.
  - rewrite Hnull.
    destruct (N.eqb (G_TASKBAR_HWND (globals w)) (os_shell_traywnd (os w)));
      destruct show; repeat split.
Qed.

(** [ensure_cleanup] returns with the registry empty, the borderless
    handle released, the lock file gone, and the taskbar shown again if
    this run had hidden it. *)
Lemma ensure_cleanup_effects (h : DWORD -> nat) (fuel : nat) (w : World) :
  snapshot_tree h w ->
  (forall tp, In tp (tracked w) ->
     0 < h (dwProcessId (tp_pi tp)) /\ h (dwProcessId (tp_pi tp)) <= fuel) ->
  exists w',
    ensure_cleanup fuel w = Ok w' /\
    tracked w' = [] /\
    G_BORDERLESS_PROCESS (globals w') = NULL /\
    (str_empty (G_PID_FILE (globals w)) = false -> lock_file w' = None) /\
    (G_TASKBAR_WAS_HIDDEN (globals w) = true -> taskbar_found w = true ->
     os_taskbar_visible (os w') = true).
Proof.
  intros Hshape Hdepth.
  unfold ensure_cleanup. cbv zeta.
  set (w1 := show_message "Ensuring cleanup..." w).
  pose proof (silent_show_message "Ensuring cleanup..." w) as Hsilent. fold w1 in Hsilent.
  destruct (silent_eq_fields _ _ Hsilent) as [Hg1 [Hp1 [_ [Hok1 [_ [Hf1 [Hv1 _]]]]]]].
  match goal with |- context [kill_all_tracked_processes fuel ?x] => set (w2 := x) end.
  assert (H2 : tracked w2 = tracked w /\ snapshot_tree h w2 /\
               G_PID_FILE (globals w2) = G_PID_FILE (globals w) /\
               os_files (os w2) = os_files (os w) /\
               (G_TASKBAR_WAS_HIDDEN (globals w) = true -> taskbar_found w = true ->
                os_taskbar_visible (os w2) = true)).
  { unfold w2. rewrite Hg1.
    destruct (G_TASKBAR_WAS_HIDDEN (globals w)).
    - unfold action_show_taskbar.
      destruct (set_taskbar_visibility_frame true w1) as [Ht [Hp [Hok [Hf [Hpath _]]]]].
      rewrite Ht, Hpath, Hf, Hg1, Hf1. unfold tracked. rewrite Hg1.
      split; [reflexivity|]. split.
      + unfold snapshot_tree. rewrite Hp, Hok, Hp1, Hok1. exact Hshape.
      + split; [reflexivity|]. split; [reflexivity|].
        intros _ Hfound.
        apply (set_taskbar_visibility_effect true w1).
        unfold w1. rewrite taskbar_found_show_message. exact Hfound.
    - unfold tracked. rewrite Hg1, Hf1.
      split; [reflexivity|]. split; [exact (snapshot_tree_silent h w w1 Hsilent Hshape)|].
      split; [reflexivity|]. split; [reflexivity|]. intros Habsurd. discriminate. }
  destruct H2 as [Ht2 [Hshape2 [Hpath2 [Hf2 Hv2]]]].
  destruct (kill_all_tracked_processes_drains h fuel w2 Hshape2)
    as [w3 [Hrun [Hg3 [_ [Hf3 [Hv3 _]]]]]].
  { rewrite Ht2. exact Hdepth. }
  rewrite Hrun. cbn [bind].
  match goal with |- context [cleanup_pid_file ?x] => set (w4 := x) end.
  assert (H4 : tracked w4 = [] /\ G_BORDERLESS_PROCESS (globals w4) = NULL /\
               G_PID_FILE (globals w4) = G_PID_FILE (globals w) /\
               os_taskbar_visible (os w4) = os_taskbar_visible (os w3)).
  { unfold w4.
    destruct (N.eqb (G_BORDERLESS_PROCESS (globals w3)) NULL) eqn:Hb; cbn [negb].
    - apply N.eqb_eq in Hb. unfold tracked. rewrite Hb, Hg3.
      repeat split. exact Hpath2.
    - unfold tracked. cbn [with_globals CloseHandle emit with_os globals os
        set_G_BORDERLESS_PROCESS G_TRACKED_PROCESSES G_BORDERLESS_PROCESS G_PID_FILE
        set_os_trace set_os_handles os_taskbar_visible].
      rewrite Hg3. repeat split. exact Hpath2. }
  destruct H4 as [Ht4 [Hb4 [Hpath4 Hv4]]].
  exists (cleanup_pid_file w4). split; [reflexivity|].
  unfold cleanup_pid_file.
  destruct (str_empty (G_PID_FILE (globals w4))) eqn:Hempty.
  - split; [exact Ht4|]. split; [exact Hb4|]. split.
    + rewrite Hpath4 in Hempty. intros Hne. congruence.
    + intros Hwas Hfound. rewrite Hv4, Hv3. exact (Hv2 Hwas Hfound).
  - split; [exact Ht4|]. split; [exact Hb4|]. split.
    + intros _. unfold lock_file, fopen_r, DeleteFileA.
      cbn [emit with_os globals os set_os_trace set_os_files os_files].
      apply assoc_removed.
    + intros Hwas Hfound.
      change (os_taskbar_visible (os (DeleteFileA (G_PID_FILE (globals w4)) w4)))
        with (os_taskbar_visible (os w4)).
      rewrite Hv4, Hv3. exact (Hv2 Hwas Hfound).
Qed.

(** The two exit paths that do reach the guard: a run to the normal end
    of [main], and the tray command "Kill". *)
Example normal_run_reaches_ensure_cleanup :
  match main 3 (Some doom_shortcut) doom_ready with
  | Ok (code, w') =>
      code = 0 /\
      In "Ensuring cleanup..." (console w') /\
      os_files (os w') = [] /\
      os_taskbar_visible (os w') = true /\
      trace w' =
        [EvWriteFile "C:\Games\Doom\rjpids.ini" "4242";
         EvShowWindow 77%N false; EvShowWindow 77%N true;
         EvDeleteFile "C:\Games\Doom\rjpids.ini"]
  | _ => False
  end.
Proof. vm_compute. repeat split. tauto. Qed.

Example tray_kill_reaches_ensure_cleanup :
  match tray_wnd_proc ID_TRAY_KILL 3 mid_run with
  | Ok w' =>
      In "Ensuring cleanup..." (console w') /\
      os_files (os w') = [] /\
      tracked w' = [] /\
      os_taskbar_visible (os w') = true
  | _ => False
  end.
Proof. vm_compute. repeat split. tauto. Qed.

(** C1 does not hold of the code.  Two exit paths end the process without
    [ensure_cleanup]: [main] returns 1 when the configuration cannot be
    loaded, after [check_instances] has written the lock file, which is
    left behind; and the tray command "Exit Launcher" calls
    [tray_stop_game], [tray_cleanup] and [ExitProcess] only, so the lock
    file, the registry, the borderless handle and a hidden taskbar are
    left as they were. *)
Theorem exit_paths_without_ensure_cleanup :
  (forall (fuel : nat) (shortcut : string) (w : World),
      let ini := ini_path_of shortcut in
      let lock := pid_file_of (home_dir_of ini) in
      assoc lock (os_files (os w)) = None ->
      mem_string lock (os_write_denied (os w)) = false ->
      assoc ini (os_ini (os w)) = None ->
      exists w',
        main fuel (Some shortcut) w = Ok (1, w') /\
        G_PID_FILE (globals w') = lock /\
        lock_file w' = Some (print_lu (os_current_pid (os w))) /\
        trace w' = trace w ++ [EvWriteFile lock (print_lu (os_current_pid (os w)))] /\
        ~ In "Ensuring cleanup..." (skipn (List.length (console w)) (console w'))) /\
  (forall (fuel : nat) (w : World),
      exit_sequence (cfg w) = EmptyString ->
      hProcess (G_GAME_PROCESS_INFO (globals w)) = NULL ->
      exists w',
        tray_wnd_proc ID_TRAY_EXIT fuel w = Ok w' /\
        (exists t, trace w' = t ++ [EvExitProcess 0]) /\
        os_files (os w') = os_files (os w) /\
        tracked w' = tracked w /\
        processes w' = processes w /\
        os_taskbar_visible (os w') = os_taskbar_visible (os w) /\
        G_BORDERLESS_PROCESS (globals w') = G_BORDERLESS_PROCESS (globals w) /\
        console w' = console w).
Proof.
  split.
  - exact main_leaves_lock_on_configuration_failure.
  - exact tray_exit_launcher_skips_cleanup.
Qed.

Lemma exit_paths_without_ensure_cleanup_witness :
  (exists w',
      main 1 (Some doom_shortcut) quiet_world = Ok (1, w') /\
      G_PID_FILE (globals w') = "C:\Games\Doom\rjpids.ini" /\
      lock_file w' = Some "4242" /\
      trace w' = [EvWriteFile "C:\Games\Doom\rjpids.ini" "4242"] /\
      ~ In "Ensuring cleanup..." (skipn (List.length (console quiet_world)) (console w'))) /\
  (exists w',
      tray_wnd_proc ID_TRAY_EXIT 1 mid_run = Ok w' /\
      (exists t, trace w' = t ++ [EvExitProcess 0]) /\
      os_files (os w') = [("C:\Games\Doom\rjpids.ini", "4242")] /\
      tracked w' = tracked mid_run /\
      processes w' = processes mid_run /\
      os_taskbar_visible (os w') = false /\
      G_BORDERLESS_PROCESS (globals w') = G_BORDERLESS_PROCESS (globals mid_run) /\
      console w' = console mid_run).
Proof.
  split.
  - apply (proj1 exit_paths_without_ensure_cleanup 1 doom_shortcut quiet_world);
      reflexivity.
  - apply (proj2 exit_paths_without_ensure_cleanup 1 mid_run); reflexivity.
Defined.

(** * Further properties of the code *)

(** ** String helpers *)

Lemma strip_left_fixed (t : string) :
  (forall c, first_char t = Some c -> is_blank c = false) -> strip_left t = t.
Proof.
  destruct t as [|c t]; [reflexivity|].
  intros H. simpl. rewrite (H c eq_refl). reflexivity.
Qed.

Lemma strip_right_idempotent (t : string) : strip_right (strip_right t) = strip_right t.
Proof.
  induction t as [|c t IH]; [reflexivity|].
  cbn [strip_right]. destruct (strip_right t) as [|c' r] eqn:Hr.
  - destruct (is_blank c) eqn:Hc; [reflexivity|].
    cbn [strip_right]. rewrite Hc. reflexivity.
  - change (strip_right (String c (String c' r)))
      with (match strip_right (String c' r) with
            | EmptyString => if is_blank c then EmptyString else String c EmptyString
            | String c2 r2 => String c (String c2 r2)
            end).
    rewrite IH. reflexivity.
Qed.

Lemma strip_idempotent (s : string) : strip (strip s) = strip s.
Proof.
  unfold strip.
  rewrite (strip_left_fixed (strip_right (strip_left s))).
  - apply strip_right_idempotent.
  - intros c Hc. apply (strip_left_first s).
    rewrite <- strip_right_first; [exact Hc|].
    intros Hempty. rewrite Hempty in Hc. discriminate.
Qed.

Lemma all_blank_strip (s : string) : all_blank s = true -> strip s = EmptyString.
Proof.
  unfold strip. induction s as [|c s IH]; [reflexivity|].
  cbn [all_blank strip_left]. intros H. apply andb_true_iff in H.
  destruct H as [Hc Hs]. rewrite Hc. apply IH. exact Hs.
Qed.

(** [trim_whitespace] removes blanks (space, tab, line feed, carriage
    return) at the two ends and nothing else: the text is the result
    between two runs of blanks, the result neither starts nor ends with a
    blank, an all-blank text gives the empty text, and trimming a trimmed
    text changes nothing. *)
Theorem trim_whitespace_characterised (s : string) :
  (exists l r,
     s = (l ++ trim_whitespace s ++ r)%string /\ all_blank l = true /\ all_blank r = true) /\
  (forall c, first_char (trim_whitespace s) = Some c -> is_blank c = false) /\
  (forall c, last_char (trim_whitespace s) = Some c -> is_blank c = false) /\
  (all_blank s = true -> trim_whitespace s = EmptyString) /\
  trim_whitespace (trim_whitespace s) = trim_whitespace s.
Proof.
  rewrite !trim_whitespace_strip.
  split; [apply strip_decompose|].
  split; [intros c; apply (strip_ends s c)|].
  split; [intros c; apply (strip_ends s c)|].
  split; [apply all_blank_strip | apply strip_idempotent].
Qed.

(** *** [compat_strtok_s] *)

Lemma skip_span_decompose (s delim : string) :
  exists skipped,
    s = (skipped ++ skip_span s delim)%string /\ all_delims skipped delim = true.
Proof.
  induction s as [|c s [skipped [Hs Hd]]].
  - exists EmptyString. split; reflexivity.
  - cbn [skip_span]. destruct (in_delim c delim) eqn:Hc.
    + exists (String c skipped). split.
      * cbn [append]. f_equal. exact Hs.
      * cbn [all_delims]. rewrite Hc. exact Hd.
    + exists EmptyString. split; reflexivity.
Qed.

Lemma skip_span_first (s delim : string) (c : ascii) (s' : string) :
  skip_span s delim = String c s' -> in_delim c delim = false.
Proof.
  induction s as [|a s IH]; [discriminate|].
  cbn [skip_span]. destruct (in_delim a delim) eqn:Ha; [exact IH|].
  intros H. injection H as <- _. exact Ha.
Qed.

Lemma cut_cspan_decompose (s delim : string) :
  no_delims (fst (cut_cspan s delim)) delim = true /\
  exists tail,
    s = (fst (cut_cspan s delim) ++ tail)%string /\
    tail_of_context (snd (cut_cspan s delim)) delim tail.
Proof.
  induction s as [|c s [Hno [tail [Hs Htail]]]].
  - split; [reflexivity|]. exists EmptyString. split; reflexivity.
  - cbn [cut_cspan]. destruct (in_delim c delim) eqn:Hc.
    + split; [reflexivity|]. exists (String c s). split; [reflexivity|].
      exists c. split; [exact Hc | reflexivity].
    + destruct (cut_cspan s delim) as [tok rest]. cbn [fst snd] in *. split.
      * cbn [no_delims]. rewrite Hc. exact Hno.
      * exists tail. split; [|exact Htail]. cbn [append]. f_equal. exact Hs.
Qed.

(** [compat_strtok_s], for any set of delimiters: a token that is returned
    is not empty and holds no delimiter; it sits in the scanned text after
    a run of delimiters only, and the new context is what follows the
    delimiter that ended it, or [NULL] when the text ended.  No token is
    returned exactly when the scanned text holds delimiters only, or when
    there is nothing to scan, and then the next call returns none
    either. *)
Theorem strtok_s_token (str context : option string) (delim : string) :
  let start := match str with Some s => Some s | None => context end in
  match strtok_s str delim context with
  | (Some tok, context') =>
      tok <> EmptyString /\
      no_delims tok delim = true /\
      exists text skipped tail,
        start = Some text /\
        text = (skipped ++ tok ++ tail)%string /\
        all_delims skipped delim = true /\
        tail_of_context context' delim tail
  | (None, context') =>
      match start with
      | Some text => all_delims text delim = true /\ context' = None
      | None => context' = context
      end /\
      fst (strtok_s None delim context') = None
  end.
Proof.
  intros start. unfold strtok_s. fold start.
  destruct start as [text|] eqn:Hstart.
  - destruct (skip_span_decompose text delim) as [skipped [Htext Hskipped]].
    destruct (skip_span text delim) as [|c s'] eqn:Hskip.
    + split; [|reflexivity]. split; [|reflexivity].
      rewrite Htext. clear -Hskipped.
      induction skipped as [|a skipped IH]; [reflexivity|].
      cbn [all_delims append] in *. apply andb_true_iff in Hskipped.
      destruct Hskipped as [Ha Hrest]. rewrite Ha. apply IH. exact Hrest.
    + pose proof (skip_span_first text delim c s' Hskip) as Hc.
      destruct (cut_cspan_decompose (String c s') delim) as [Hno [tail [Hs Htail]]].
      destruct (cut_cspan (String c s') delim) as [tok rest] eqn:Hcut.
      cbn [fst snd] in *.
      split; [|split; [exact Hno|]].
      * cbn [cut_cspan] in Hcut. rewrite Hc in Hcut.
        destruct (cut_cspan s' delim). injection Hcut as <- _. discriminate.
      * exists text, skipped, tail. split; [reflexivity|].
        split; [rewrite <- Hs; exact Htext|]. split; [exact Hskipped | exact Htail].
  - split; [|destruct str; [discriminate | subst start; rewrite Hstart; reflexivity]].
    destruct str; [discriminate | reflexivity].
Qed.

(** *** [compat_stricmp] *)

Lemma _stricmp_lower (a b : string) :
  _stricmp a b = true <-> lower_string a = lower_string b.
Proof.
  revert b. induction a as [|ca a IH]; intros [|cb b]; cbn [_stricmp lower_string].
  - tauto.
  - split; discriminate.
  - split; discriminate.
  - destruct (Ascii.eqb_spec (lower ca) (lower cb)) as [Heq|Hne].
    + rewrite IH. split.
      * intros ->. rewrite Heq. reflexivity.
      * intros H. injection H as _ H. exact H.
    + split; [discriminate|]. intros H. injection H as H _. contradiction.
Qed.

Lemma lower_idempotent (c : ascii) : lower (lower c) = lower c.
Proof.
  unfold lower.
  destruct (Nat.leb 65 (nat_of_ascii c) && Nat.leb (nat_of_ascii c) 90) eqn:Hc.
  - apply andb_true_iff in Hc. destruct Hc as [H1 H2].
    apply Nat.leb_le in H1. apply Nat.leb_le in H2.
    assert (Hn : nat_of_ascii (ascii_of_nat (nat_of_ascii c + 32)) = nat_of_ascii c + 32).
    { apply nat_ascii_embedding. lia. }
    rewrite Hn.
    destruct (Nat.leb_spec 65 (nat_of_ascii c + 32)); cbn [andb]; [|reflexivity].
    destruct (Nat.leb_spec (nat_of_ascii c + 32) 90); [lia | reflexivity].
  - rewrite Hc. reflexivity.
Qed.

Lemma lower_string_idempotent (s : string) : lower_string (lower_string s) = lower_string s.
Proof.
  induction s as [|c s IH]; [reflexivity|].
  cbn [lower_string]. rewrite lower_idempotent, IH. reflexivity.
Qed.

(** [compat_stricmp] reports two names equal exactly when they agree once
    the letters A to Z are put in lower case; so it is reflexive,
    symmetric and transitive, and a name matches its lower-case form. *)
Theorem _stricmp_ignores_case :
  (forall a b, _stricmp a b = true <-> lower_string a = lower_string b) /\
  (forall a, _stricmp a a = true) /\
  (forall a b, _stricmp a b = _stricmp b a) /\
  (forall a b c, _stricmp a b = true -> _stricmp b c = true -> _stricmp a c = true) /\
  (forall a, _stricmp a (lower_string a) = true).
Proof.
  split; [exact _stricmp_lower|]. split; [|split; [|split]].
  - intros a. apply _stricmp_lower. reflexivity.
  - intros a b. destruct (_stricmp a b) eqn:Hab, (_stricmp b a) eqn:Hba; try reflexivity.
    + apply _stricmp_lower in Hab. symmetry in Hab. apply _stricmp_lower in Hab. congruence.
    + apply _stricmp_lower in Hba. symmetry in Hba. apply _stricmp_lower in Hba. congruence.
  - intros a b c Hab Hbc. apply _stricmp_lower in Hab. apply _stricmp_lower in Hbc.
    apply _stricmp_lower. congruence.
  - intros a. apply _stricmp_lower. symmetry. apply lower_string_idempotent.
Qed.

Lemma _stricmp_ignores_case_witness :
  _stricmp "AntiMicroX.EXE" "antimicrox.exe" = true /\
  _stricmp "antimicrox.exe" "AntiMicroX.EXE" = true /\
  _stricmp "AntiMicroX.EXE" "ANTIMICROX.exe" = true.
Proof.
  assert (H1 : _stricmp "AntiMicroX.EXE" "antimicrox.exe" = true).
  { apply (proj1 _stricmp_ignores_case). reflexivity. }
  assert (H2 : _stricmp "antimicrox.exe" "ANTIMICROX.exe" = true).
  { apply (proj1 _stricmp_ignores_case). reflexivity. }
  split; [exact H1|]. split.
  - rewrite (proj1 (proj2 (proj2 _stricmp_ignores_case))). exact H1.
  - exact (proj1 (proj2 (proj2 (proj2 _stricmp_ignores_case))) _ _ _ H1 H2).
Defined.

(** *** Paths *)

Lemma length_append (a b : string) :
  String.length (a ++ b) = String.length a + String.length b.
Proof. induction a as [|c a IH]; [reflexivity|]. cbn [append String.length]. rewrite IH. reflexivity. Qed.

Lemma append_assoc (a b c : string) : ((a ++ b) ++ c = a ++ (b ++ c))%string.
Proof. induction a as [|x a IH]; [reflexivity|]. cbn [append]. rewrite IH. reflexivity. Qed.

Lemma append_empty_r (a : string) : (a ++ EmptyString)%string = a.
Proof. induction a as [|x a IH]; [reflexivity|]. cbn [append]. rewrite IH. reflexivity. Qed.

Lemma substring_length_le (n : nat) (s : string) : String.length (substring 0 n s) <= n.
Proof.
  revert s. induction n as [|n IH]; intros s.
  - destruct s; cbn; lia.
  - destruct s as [|c s]; [cbn; lia|].
    change (substring 0 (S n) (String c s)) with (String c (substring 0 n s)).
    cbn [String.length]. specialize (IH s). lia.
Qed.

Lemma substring_app_prefix (d x : string) (k : nat) :
  substring 0 (String.length d + k) (d ++ x) = (d ++ substring 0 k x)%string.
Proof.
  induction d as [|c d IH]; [reflexivity|].
  cbn [append].
  change (String.length (String c d) + k) with (S (String.length d + k)).
  cbn [substring]. rewrite IH. reflexivity.
Qed.

Lemma substring_skip_prefix (a b : string) (m : nat) :
  substring (String.length a) m (a ++ b) = substring 0 m b.
Proof.
  induction a as [|c a IH]; [reflexivity|].
  cbn [String.length append]. destruct m; exact IH.
Qed.

Lemma in_delim_append (c : ascii) (a b : string) :
  in_delim c (a ++ b) = in_delim c a || in_delim c b.
Proof.
  induction a as [|x a IH]; [reflexivity|].
  cbn [append in_delim]. rewrite IH. apply orb_assoc.
Qed.

Lemma strrchr_absent (s : string) (c : ascii) :
  in_delim c s = false -> strrchr s c = None.
Proof.
  induction s as [|a s IH]; [reflexivity|].
  cbn [in_delim strrchr]. intros H. apply orb_false_elim in H. destruct H as [Ha Hs].
  rewrite (IH Hs), Ascii.eqb_sym, Ha. reflexivity.
Qed.

Lemma strrchr_last (d f : string) (c : ascii) :
  in_delim c f = false -> strrchr (d ++ String c f) c = Some (String c f).
Proof.
  intros Hf. induction d as [|a d IH].
  - cbn [append strrchr]. rewrite (strrchr_absent f c Hf), Ascii.eqb_refl. reflexivity.
  - cbn [append strrchr]. rewrite IH. reflexivity.
Qed.

(** [file_part], the idiom that takes the executable name out of a path:
    after the last backslash if there is one (forward slashes after it
    are kept), else after the last forward slash, else the whole text. *)
Theorem file_part_is_last_component :
  (forall d f,
      in_delim backslash f = false ->
      file_part (d ++ String backslash f) = f) /\
  (forall d f,
      in_delim backslash d = false -> in_delim backslash f = false ->
      in_delim slash f = false ->
      file_part (d ++ String slash f) = f) /\
  (forall p,
      in_delim backslash p = false -> in_delim slash p = false ->
      file_part p = p).
Proof.
  split; [|split].
  - intros d f Hf. unfold file_part. rewrite (strrchr_last d f backslash Hf). reflexivity.
  - intros d f Hd Hfb Hfs. unfold file_part.
    rewrite strrchr_absent.
    + rewrite (strrchr_last d f slash Hfs). reflexivity.
    + rewrite in_delim_append. cbn [in_delim]. rewrite Hd, Hfb. reflexivity.
  - intros p Hb Hs. unfold file_part.
    rewrite (strrchr_absent p backslash Hb), (strrchr_absent p slash Hs). reflexivity.
Qed.

Lemma file_part_is_last_component_witness :
  file_part "C:\Games\Doom\bin/doom.exe" = "bin/doom.exe" /\
  file_part "tools/antimicrox.exe" = "antimicrox.exe" /\
  file_part "doom.exe" = "doom.exe".
Proof.
  split; [|split].
  - apply (proj1 file_part_is_last_component "C:\Games\Doom" "bin/doom.exe"). reflexivity.
  - apply (proj1 (proj2 file_part_is_last_component) "tools" "antimicrox.exe"); reflexivity.
  - apply (proj2 (proj2 file_part_is_last_component) "doom.exe"); reflexivity.
Defined.

Lemma cut_at_last_backslash (d f : string) (keep : nat) :
  in_delim backslash f = false ->
  cut_at_last_separator (d ++ String backslash f) keep =
  (d ++ substring 0 keep (String backslash f))%string.
Proof.
  intros Hf. unfold cut_at_last_separator. rewrite (strrchr_last d f backslash Hf).
  rewrite length_append.
  replace (String.length d + String.length (String backslash f)
           - String.length (String backslash f) + keep)
    with (String.length d + keep) by lia.
  apply substring_app_prefix.
Qed.

(** The files [main] works with sit in the directory of the shortcut: for
    a shortcut [d\f] (no backslash in [f]) whose directory leaves room in
    the path buffers, the ini file is [d\Game.ini], the home directory is
    [d] and the lock file is [d\rjpids.ini]. *)
Theorem main_paths_in_shortcut_directory (d f : string) :
  in_delim backslash f = false ->
  String.length (d ++ String backslash f) < MAX_PATH_LEN ->
  String.length d + 12 <= MAX_PATH_LEN ->
  ini_path_of (d ++ String backslash f) = (d ++ "\Game.ini")%string /\
  home_dir_of (ini_path_of (d ++ String backslash f)) = d /\
  pid_file_of (home_dir_of (ini_path_of (d ++ String backslash f))) =
    (d ++ "\rjpids.ini")%string.
Proof.
  intros Hf Hlen Hroom.
  assert (Hini : ini_path_of (d ++ String backslash f) = (d ++ "\Game.ini")%string).
  { unfold ini_path_of. rewrite strncpy_short by lia.
    rewrite (cut_at_last_backslash d f 1 Hf).
    replace (substring 0 1 (String backslash f)) with (String backslash EmptyString)
      by (destruct f; reflexivity).
    unfold strncat. rewrite substring_whole.
    - rewrite append_assoc. reflexivity.
    - rewrite length_append. cbn [String.length]. unfold MAX_PATH_LEN in *. lia. }
  assert (Hhome : home_dir_of (d ++ "\Game.ini") = d).
  { unfold home_dir_of. rewrite strncpy_short.
    - change (d ++ "\Game.ini")%string with (d ++ String backslash "Game.ini")%string.
      rewrite cut_at_last_backslash by reflexivity.
      apply append_empty_r.
    - rewrite length_append. cbn [String.length]. unfold MAX_PATH_LEN in *. lia. }
  rewrite Hini, Hhome. split; [reflexivity|]. split; [reflexivity|].
  unfold pid_file_of, snprintf. apply substring_whole.
  rewrite length_append. cbn [String.length]. unfold MAX_PATH_LEN in *. lia.
Qed.

Lemma main_paths_in_shortcut_directory_witness :
  ini_path_of doom_shortcut = "C:\Games\Doom\Game.ini" /\
  home_dir_of (ini_path_of doom_shortcut) = "C:\Games\Doom" /\
  pid_file_of (home_dir_of (ini_path_of doom_shortcut)) = "C:\Games\Doom\rjpids.ini".
Proof.
  apply (main_paths_in_shortcut_directory "C:\Games\Doom" "Doom.lnk").
  - reflexivity.
  - unfold MAX_PATH_LEN. cbn [append String.length]. lia.
  - unfold MAX_PATH_LEN. cbn [String.length]. lia.
Defined.

(** *** [string_replace] and [resolve_path] *)

Lemma string_replace_loop_length (find replace : string) (budget : nat) :
  forall pos remaining,
    String.length (string_replace_loop budget pos find replace remaining) <= remaining.
Proof.
  induction budget as [|budget IH]; intros pos remaining; [cbn; lia|].
  cbn [string_replace_loop]. destruct pos as [|c pos]; [cbn; lia|].
  destruct (Nat.eqb_spec remaining 0) as [->|Hpos]; [cbn; lia|].
  destruct (prefix find (String c pos)).
  - rewrite length_append.
    pose proof (substring_length_le (Nat.min (String.length replace) remaining) replace).
    match goal with |- context [string_replace_loop budget ?p find replace ?r] =>
      specialize (IH p r) end.
    lia.
  - cbn [String.length]. specialize (IH pos (remaining - 1)). lia.
Qed.

(** Neither the temporary buffer of [string_replace] nor its destination
    is ever overrun, whatever the texts: the loop writes at most
    [remaining] characters, the result has fewer than [dest_size]
    characters, and a resolved path fewer than [resolved_size]. *)
Theorem string_replace_within_bounds :
  (forall budget pos find replace remaining,
      String.length (string_replace_loop budget pos find replace remaining) <= remaining) /\
  (forall dest_size src find replace,
      String.length (string_replace dest_size src find replace) <= dest_size - 1) /\
  (forall path resolved_size w,
      String.length (resolve_path path resolved_size w) <= resolved_size - 1).
Proof.
  split; [|split].
  - intros. apply string_replace_loop_length.
  - intros. unfold string_replace, strncpy. apply substring_length_le.
  - intros. unfold resolve_path, strncpy. apply substring_length_le.
Qed.

Lemma prefix_dollar_other (find' pos : string) (c : ascii) :
  Ascii.eqb "$"%char c = false -> prefix (String "$"%char find') (String c pos) = false.
Proof.
  intros Hc. cbn [prefix]. destruct (ascii_dec "$"%char c) as [Heq|Hne]; [|reflexivity].
  rewrite Heq, Ascii.eqb_refl in Hc. discriminate.
Qed.

Lemma prefix_append (a b : string) : prefix a (a ++ b) = true.
Proof.
  induction a as [|c a IH]; [destruct b; reflexivity|].
  cbn [append prefix]. destruct (ascii_dec c c); [exact IH | contradiction].
Qed.

(** Text without a dollar sign is copied as it is, while there is room. *)
Lemma string_replace_loop_plain (find' replace : string) (budget : nat) :
  forall pos remaining,
    in_delim "$"%char pos = false ->
    String.length pos <= budget -> String.length pos <= remaining ->
    string_replace_loop budget pos (String "$"%char find') replace remaining = pos.
Proof.
  induction budget as [|budget IH]; intros pos remaining Hplain Hbudget Hroom.
  - destruct pos; [reflexivity | cbn in Hbudget; lia].
  - destruct pos as [|c pos]; [reflexivity|].
    cbn [in_delim] in Hplain. apply orb_false_elim in Hplain. destruct Hplain as [Hc Hpos].
    cbn [String.length] in *. cbn [string_replace_loop].
    destruct (Nat.eqb_spec remaining 0) as [->|_]; [lia|].
    rewrite (prefix_dollar_other find' pos c Hc). f_equal.
    apply IH; [exact Hpos | lia | lia].
Qed.

(** A plain stretch in front of the rest is copied, and the loop goes on
    with the rest. *)
Lemma string_replace_loop_skip (find' replace rest : string) (pre : string) :
  forall budget remaining,
    in_delim "$"%char pre = false ->
    String.length pre <= budget -> String.length pre <= remaining ->
    string_replace_loop budget (pre ++ rest) (String "$"%char find') replace remaining =
    (pre ++ string_replace_loop (budget - String.length pre) rest (String "$"%char find')
              replace (remaining - String.length pre))%string.
Proof.
  induction pre as [|c pre IH]; intros budget remaining Hplain Hbudget Hroom.
  - cbn [append String.length]. rewrite !Nat.sub_0_r. reflexivity.
  - cbn [in_delim] in Hplain. apply orb_false_elim in Hplain. destruct Hplain as [Hc Hpre].
    cbn [String.length append] in *.
    destruct budget as [|budget]; [lia|].
    cbn [string_replace_loop].
    destruct (Nat.eqb_spec remaining 0) as [->|_]; [lia|].
    rewrite (prefix_dollar_other find' (pre ++ rest) c Hc). f_equal.
    rewrite IH by (try exact Hpre; lia).
    replace (remaining - 1 - String.length pre) with (remaining - S (String.length pre)) by lia.
    reflexivity.
Qed.

Lemma string_replace_plain (dest_size : nat) (src find' replace : string) :
  in_delim "$"%char src = false ->
  String.length src < MAX_CMD_LEN * 2 -> String.length src < dest_size ->
  string_replace dest_size src (String "$"%char find') replace = src.
Proof.
  intros Hplain Htemp Hdest. unfold string_replace.
  rewrite string_replace_loop_plain by (try exact Hplain; lia).
  apply strncpy_short. lia.
Qed.

(** One occurrence of the variable among plain text is replaced. *)
Lemma string_replace_once (dest_size : nat) (pre post find' replace : string) :
  in_delim "$"%char pre = false -> in_delim "$"%char post = false ->
  String.length (pre ++ replace ++ post) < MAX_CMD_LEN * 2 ->
  String.length (pre ++ replace ++ post) < dest_size ->
  string_replace dest_size (pre ++ String "$"%char find' ++ post)
    (String "$"%char find') replace =
  (pre ++ replace ++ post)%string.
Proof.
  intros Hpre Hpost Htemp Hdest. unfold string_replace.
  rewrite !length_append in *. cbn [String.length] in *.
  rewrite string_replace_loop_skip by (try exact Hpre; lia).
  match goal with |- context [string_replace_loop ?b _ _ _ _] =>
    replace b with (S (String.length find' + String.length post)) by lia end.
  cbn [string_replace_loop append].
  change (String "$"%char (find' ++ post)) with (String "$"%char find' ++ post)%string.
  destruct (Nat.eqb_spec (MAX_CMD_LEN * 2 - 1 - String.length pre) 0) as [Hzero|_].
  { destruct replace; [|cbn [String.length] in *; lia].
    destruct post; [|cbn [String.length] in *; lia].
    apply strncpy_short. rewrite length_append. cbn [append String.length] in *. lia. }
  rewrite prefix_append.
  rewrite Nat.min_l by lia.
  rewrite (substring_whole replace) by lia.
  change (String.length (String "$"%char find')) with (S (String.length find')).
  replace (S (String.length (find' ++ post)))
    with (String.length (String "$"%char find' ++ post)) by reflexivity.
  change (S (String.length find')) with (String.length (String "$"%char find')).
  rewrite substring_skip_prefix, substring_whole
    by (cbn [append String.length]; rewrite length_append; lia).
  rewrite string_replace_loop_plain by (try exact Hpost; lia).
  apply strncpy_short. rewrite !length_append. lia.
Qed.

(** A dollar sign that does not start the variable is copied. *)
Lemma string_replace_other (dest_size : nat) (pre post find' replace : string) :
  in_delim "$"%char pre = false -> in_delim "$"%char post = false ->
  prefix (String "$"%char find') (String "$"%char post) = false ->
  String.length (pre ++ String "$"%char post) < MAX_CMD_LEN * 2 ->
  String.length (pre ++ String "$"%char post) < dest_size ->
  string_replace dest_size (pre ++ String "$"%char post) (String "$"%char find') replace =
  (pre ++ String "$"%char post)%string.
Proof.
  intros Hpre Hpost Hother Htemp Hdest. unfold string_replace.
  rewrite !length_append in *. cbn [String.length] in *.
  rewrite string_replace_loop_skip by (try exact Hpre; lia).
  match goal with |- context [string_replace_loop ?b _ _ _ _] =>
    replace b with (S (String.length post)) by lia end.
  cbn [string_replace_loop].
  destruct (Nat.eqb_spec (MAX_CMD_LEN * 2 - 1 - String.length pre) 0) as [Hzero|_]; [lia|].
  rewrite Hother.
  rewrite string_replace_loop_plain by (try exact Hpost; lia).
  apply strncpy_short. rewrite length_append. cbn [String.length]. lia.
Qed.

(** [resolve_path] leaves a path without dollar sign as it is, and
    replaces the variable [$HOME] among plain text by the home directory
    (itself without dollar sign), provided the result fits the buffer. *)
Theorem resolve_path_substitutes_home (resolved_size : nat) (w : World) :
  (forall path,
      in_delim "$"%char path = false ->
      String.length path < MAX_CMD_LEN * 2 -> String.length path < resolved_size ->
      resolve_path path resolved_size w = path) /\
  (forall pre post,
      in_delim "$"%char pre = false -> in_delim "$"%char post = false ->
      in_delim "$"%char (G_HOME_DIR (globals w)) = false ->
      String.length (pre ++ "$HOME" ++ post) < MAX_CMD_LEN * 2 ->
      String.length (pre ++ G_HOME_DIR (globals w) ++ post) < MAX_CMD_LEN * 2 ->
      String.length (pre ++ G_HOME_DIR (globals w) ++ post) < resolved_size ->
      resolve_path (pre ++ "$HOME" ++ post) resolved_size w =
      (pre ++ G_HOME_DIR (globals w) ++ post)%string).
Proof.
  split.
  - intros path Hplain Htemp Hsize. unfold resolve_path.
    rewrite (strncpy_short path) by lia.
    do 3 rewrite (string_replace_plain _ path) by (try exact Hplain; lia).
    apply strncpy_short. lia.
  - intros pre post Hpre Hpost Hhome Hsrc Htemp Hsize. unfold resolve_path.
    rewrite (strncpy_short (pre ++ "$HOME" ++ post)) by lia.
    change (pre ++ "$HOME" ++ post)%string
      with (pre ++ String "$"%char ("HOME" ++ post))%string.
    rewrite string_replace_other; try assumption; try reflexivity; try lia.
    change (pre ++ String "$"%char ("HOME" ++ post))%string
      with (pre ++ String "$"%char "HOME" ++ post)%string.
    rewrite string_replace_once; try assumption; try lia.
    rewrite string_replace_plain.
    + apply strncpy_short. lia.
    + rewrite !in_delim_append, Hpre, Hhome, Hpost. reflexivity.
    + lia.
    + lia.
Qed.

Lemma resolve_path_substitutes_home_witness :
  resolve_path "C:\tools\sync.exe" MAX_PATH_LEN mid_run = "C:\tools\sync.exe" /\
  resolve_path "$HOME\tools\sync.exe" MAX_PATH_LEN mid_run = "C:\Games\Doom\tools\sync.exe".
Proof.
  split.
  - apply (proj1 (resolve_path_substitutes_home MAX_PATH_LEN mid_run) "C:\tools\sync.exe").
    + reflexivity.
    + unfold MAX_CMD_LEN. cbn [String.length]. lia.
    + unfold MAX_PATH_LEN. cbn [String.length]. lia.
  - apply (proj2 (resolve_path_substitutes_home MAX_PATH_LEN mid_run)
             EmptyString "\tools\sync.exe").
    + reflexivity.
    + reflexivity.
    + reflexivity.
    + unfold MAX_CMD_LEN. cbn [append String.length]. lia.
    + unfold MAX_CMD_LEN. cbn. lia.
    + unfold MAX_PATH_LEN. cbn. lia.
Defined.

(** *** [terminate_process_tree]: the whole tree *)

Lemma fan_out_bounded_children (l : list PROCESSENTRY32) (p : DWORD) :
  fan_out_bounded l = true -> List.length (children p l) <= 256.
Proof.
  intros Hfan. destruct (children p l) as [|c cs] eqn:Hchildren; [cbn; lia|].
  assert (Hc : In c (children p l)) by (rewrite Hchildren; left; reflexivity).
  apply In_children in Hc. destruct Hc as [pe [Hpe [_ Hppid]]].
  unfold fan_out_bounded in Hfan. rewrite forallb_forall in Hfan.
  specialize (Hfan pe Hpe). apply Nat.leb_le in Hfan.
  rewrite Hppid, Hchildren in Hfan. exact Hfan.
Qed.

Lemma filter_filter_length {A : Type} (f g : A -> bool) (l : list A) :
  List.length (filter g (filter f l)) <= List.length (filter g l).
Proof.
  induction l as [|a l IH]; [reflexivity|].
  cbn [filter]. destruct (f a); cbn [filter]; destruct (g a); cbn [List.length]; lia.
Qed.

Lemma fan_out_bounded_filter (f : PROCESSENTRY32 -> bool) (l : list PROCESSENTRY32) :
  fan_out_bounded l = true -> fan_out_bounded (filter f l) = true.
Proof.
  intros Hfan. unfold fan_out_bounded. apply forallb_forall. intros pe _.
  apply Nat.leb_le.
  pose proof (fan_out_bounded_children l (th32ParentProcessID pe) Hfan) as Hbound.
  unfold children, pids in *. rewrite length_map in *.
  pose proof (filter_filter_length f
                (fun pe' => N.eqb (th32ParentProcessID pe') (th32ParentProcessID pe)) l).
  lia.
Qed.

(** With no more than 256 children per process, every child is collected. *)
Lemma descends_collected (l : list PROCESSENTRY32) (a x : DWORD) :
  fan_out_bounded l = true -> descends l a x -> collected l a x.
Proof.
  intros Hfan. induction 1 as [|pe Hpe Hdesc IH]; [constructor|].
  apply (collected_child l a (th32ParentProcessID pe)); [exact IH|].
  rewrite firstn_all2 by (apply fan_out_bounded_children; exact Hfan).
  apply In_children. exists pe. repeat split. exact Hpe.
Qed.

Lemma terminate_process_tree_whole (h : DWORD -> nat) (fuel : nat) :
  whole_tree_done h fuel.
Proof.
  intros pid w Hshape Hfan Hpos Hfuel.
  destruct (terminate_process_tree_done h fuel pid w Hshape Hpos Hfuel)
    as [killed [Hrun [_ [Hiff _]]]].
  exists killed. split; [exact Hrun|].
  intros x. rewrite Hiff. split.
  - intros [Halive [Hcol Hopen]]. repeat split; try assumption.
    apply collected_descends. exact Hcol.
  - intros [Halive [Hdesc Hopen]]. repeat split; try assumption.
    apply descends_collected; assumption.
Qed.



(** *** [kill_process_by_name] *)





(** Without a process of that name, or when no snapshot can be taken,
    [kill_process_by_name] changes nothing, whatever the budget. *)
Theorem kill_process_by_name_no_match (fuel : nat) (process_name : string) (w : World) :
  os_snapshot_ok (os w) = false \/
  forallb (fun pe => negb (_stricmp (szExeFile pe) process_name)) (processes w) = true ->
  kill_process_by_name fuel process_name w = Ok w.
Proof.
  intros Hcase. unfold kill_process_by_name.
  destruct (os_snapshot_ok (os w)); [|reflexivity]. cbn [negb].
  destruct Hcase as [Hcase|Hcase]; [discriminate|].
  induction (processes w) as [|pe l IH]; [reflexivity|].
  cbn [forallb] in Hcase. apply andb_true_iff in Hcase. destruct Hcase as [Hpe Hl].
  cbn [for_each]. apply negb_true_iff in Hpe. rewrite Hpe. cbn [bind]. apply IH. exact Hl.
Qed.

Lemma kill_process_by_name_no_match_witness :
  kill_process_by_name 0 "doom.exe" synthetic_tree = Ok synthetic_tree.
Proof.
  apply (kill_process_by_name_no_match 0 "doom.exe" synthetic_tree).
  right. reflexivity.
Defined.

(** *** The registry of tracked processes *)

Lemma find_first_None (n : string) (l : list TrackedProcess) :
  find_first n l = None <-> forall tp, In tp l -> tp_name tp <> n.
Proof.
  induction l as [|tp l IH]; cbn [find_first].
  - split; [intros _ tp [] | reflexivity].
  - destruct (String.eqb_spec (tp_name tp) n) as [Heq|Hne].
    + split; [discriminate|]. intros Hall. exfalso.
      apply (Hall tp); [left; reflexivity | exact Heq].
    + rewrite IH. split.
      * intros Hall tp' [<-|Hin]; [exact Hne | apply Hall; exact Hin].
      * intros Hall tp' Hin. apply Hall. right. exact Hin.
Qed.

Lemma unlink_first_absent (n : string) (l : list TrackedProcess) :
  find_first n l = None -> unlink_first n l = l.
Proof.
  induction l as [|tp l IH]; [reflexivity|]. cbn [find_first unlink_first].
  destruct (String.eqb (tp_name tp) n); [discriminate|].
  intros Hnone. rewrite IH by exact Hnone. reflexivity.
Qed.

Lemma find_first_unlink_other (n m : string) (l : list TrackedProcess) :
  m <> n -> find_first m (unlink_first n l) = find_first m l.
Proof.
  intros Hne. induction l as [|tp l IH]; [reflexivity|].
  cbn [unlink_first]. destruct (String.eqb_spec (tp_name tp) n) as [Heq|Hother].
  - cbn [find_first]. destruct (String.eqb_spec (tp_name tp) m) as [Heq'|_]; [congruence|].
    reflexivity.
  - cbn [find_first]. rewrite IH. reflexivity.
Qed.

Lemma find_first_unlink_unique (n : string) (l : list TrackedProcess) :
  names_unique l -> find_first n (unlink_first n l) = None.
Proof.
  unfold names_unique. induction l as [|tp l IH]; intros Hunique; [reflexivity|].
  cbn [map] in Hunique. inversion Hunique as [|x xs Hnotin Hrest]; subst x xs.
  cbn [unlink_first]. destruct (String.eqb_spec (tp_name tp) n) as [Heq|Hother].
  - apply find_first_None. intros tp' Hin Hname. apply Hnotin.
    rewrite Heq, <- Hname. apply in_map. exact Hin.
  - cbn [find_first]. destruct (String.eqb_spec (tp_name tp) n); [contradiction|].
    apply IH. exact Hrest.
Qed.

Lemma unlink_first_length (n : string) (l : list TrackedProcess) (tp : TrackedProcess) :
  find_first n l = Some tp -> S (List.length (unlink_first n l)) = List.length l.
Proof.
  induction l as [|tp' l IH]; [discriminate|]. cbn [find_first unlink_first].
  destruct (String.eqb (tp_name tp') n); [reflexivity|].
  intros Hfound. cbn [List.length]. rewrite IH by exact Hfound. reflexivity.
Qed.

Lemma remove_tracked_process_absent (n : string) (w : World) :
  find_tracked_process n w = None -> remove_tracked_process n w = w.
Proof.
  unfold find_tracked_process. intros Hnone.
  unfold remove_tracked_process, with_globals.
  fold (tracked w). rewrite unlink_first_absent by exact Hnone.
  destruct w as [g o]. destruct g. reflexivity.
Qed.

(** [remove_tracked_process] unlinks one entry of that name and nothing
    else: without an entry of that name it changes nothing; otherwise the
    registry gets shorter by one; the entries found under other names are
    the same as before; and when the names of the registry are unique the
    name is no longer found. *)
Theorem remove_tracked_process_one_entry (n : string) (w : World) :
  (find_tracked_process n w = None -> remove_tracked_process n w = w) /\
  (forall tp, find_tracked_process n w = Some tp ->
     S (List.length (tracked (remove_tracked_process n w))) = List.length (tracked w)) /\
  (forall m, m <> n ->
     find_tracked_process m (remove_tracked_process n w) = find_tracked_process m w) /\
  (names_unique (tracked w) ->
     find_tracked_process n (remove_tracked_process n w) = None) /\
  os (remove_tracked_process n w) = os w.
Proof.
  unfold find_tracked_process. rewrite tracked_remove_tracked_process.
  split; [|split; [|split; [|split]]].
  - apply remove_tracked_process_absent.
  - intros tp Hfound. apply (unlink_first_length n _ tp). exact Hfound.
  - intros m Hne. apply find_first_unlink_other. exact Hne.
  - apply find_first_unlink_unique.
  - reflexivity.
Qed.

Lemma remove_tracked_process_one_entry_witness :
  remove_tracked_process "borderless" two_helpers = two_helpers /\
  S (List.length (tracked (remove_tracked_process "controller_mapper" two_helpers))) = 2 /\
  find_tracked_process "C:\tools\sync.exe"
    (remove_tracked_process "controller_mapper" two_helpers) =
  find_tracked_process "C:\tools\sync.exe" two_helpers /\
  find_tracked_process "controller_mapper"
    (remove_tracked_process "controller_mapper" two_helpers) = None.
Proof.
  split; [|split; [|split]].
  - apply (proj1 (remove_tracked_process_one_entry "borderless" two_helpers)).
    reflexivity.
  - apply (proj1 (proj2 (remove_tracked_process_one_entry "controller_mapper" two_helpers))
             {| tp_name := "controller_mapper";
                tp_pi := {| hProcess := 501%N; hThread := 502%N;
                            dwProcessId := 11%N; dwThreadId := 503%N |} |}).
    reflexivity.
  - apply (proj1 (proj2 (proj2
             (remove_tracked_process_one_entry "controller_mapper" two_helpers)))).
    discriminate.
  - apply (proj1 (proj2 (proj2 (proj2
             (remove_tracked_process_one_entry "controller_mapper" two_helpers))))).
    unfold names_unique. cbn. repeat constructor; cbn; intuition discriminate.
Defined.

Lemma names_fit_find_first (n : string) (l : list TrackedProcess) :
  names_fit l -> MAX_NAME_LEN <= String.length n -> find_first n l = None.
Proof.
  intros Hfit Hlong. apply find_first_None. intros tp Hin Hname.
  unfold names_fit in Hfit. rewrite Forall_forall in Hfit.
  specialize (Hfit tp Hin). rewrite Hname in Hfit. lia.
Qed.

(** The names stored by [add_tracked_process] have fewer than
    [MAX_NAME_LEN] characters, so that a process added under a longer name
    is tracked but neither found nor removed under that name. *)
Theorem long_name_is_not_found (n : string) (pi : PROCESS_INFORMATION) (w : World) :
  names_fit (tracked w) -> MAX_NAME_LEN <= String.length n ->
  names_fit (tracked (add_tracked_process n pi w)) /\
  find_tracked_process n (add_tracked_process n pi w) = None /\
  remove_tracked_process n (add_tracked_process n pi w) = add_tracked_process n pi w /\
  find_tracked_process (strncpy n (MAX_NAME_LEN - 1)) (add_tracked_process n pi w) =
    Some {| tp_name := strncpy n (MAX_NAME_LEN - 1); tp_pi := pi |}.
Proof.
  intros Hfit Hlong.
  assert (Hfit' : names_fit (tracked (add_tracked_process n pi w))).
  { rewrite tracked_add_tracked_process. constructor; [|exact Hfit].
    cbn [tp_name]. unfold strncpy.
    pose proof (substring_length_le (MAX_NAME_LEN - 1) n). unfold MAX_NAME_LEN in *. lia. }
  assert (Hnone : find_tracked_process n (add_tracked_process n pi w) = None).
  { apply names_fit_find_first; assumption. }
  split; [exact Hfit'|]. split; [exact Hnone|]. split.
  - apply remove_tracked_process_absent. exact Hnone.
  - unfold find_tracked_process. rewrite tracked_add_tracked_process.
    apply find_first_head.
Qed.

Lemma long_name_is_not_found_witness :
  names_fit (tracked (add_tracked_process long_tool_path (handle_info 100) quiet_world)) /\
  find_tracked_process long_tool_path
    (add_tracked_process long_tool_path (handle_info 100) quiet_world) = None /\
  remove_tracked_process long_tool_path
    (add_tracked_process long_tool_path (handle_info 100) quiet_world) =
  add_tracked_process long_tool_path (handle_info 100) quiet_world /\
  find_tracked_process (strncpy long_tool_path (MAX_NAME_LEN - 1))
    (add_tracked_process long_tool_path (handle_info 100) quiet_world) =
  Some {| tp_name := strncpy long_tool_path (MAX_NAME_LEN - 1); tp_pi := handle_info 100 |}.
Proof.
  apply (long_name_is_not_found long_tool_path (handle_info 100) quiet_world).
  - constructor.
  - vm_compute. lia.
Defined.

(** *** The number in the lock file *)

Lemma scan_digits_of_uint_acc (d : Decimal.uint) :
  forall acc : positive,
    scan_digits (NilEmpty.string_of_uint d) (N.pos acc) true =
    Some (N.pos (Pos.of_uint_acc d acc)).
Proof.
  induction d; intros acc; cbn [NilEmpty.string_of_uint scan_digits Pos.of_uint_acc];
    [reflexivity|..];
    match goal with
    | |- context [digit_of ?c] =>
        let v := eval vm_compute in (digit_of c) in change (digit_of c) with v
    end;
    cbv iota;
    match goal with
    | |- scan_digits _ ?a true = Some (N.pos (Pos.of_uint_acc _ ?b)) =>
        replace a with (N.pos b) by lia
    end;
    apply IHd.
Qed.

Lemma scan_digits_of_uint (d : Decimal.uint) :
  forall seen : bool,
    d <> Decimal.Nil \/ seen = true ->
    scan_digits (NilEmpty.string_of_uint d) 0%N seen = Some (N.of_uint d).
Proof.
  unfold N.of_uint.
  induction d; intros seen Hseen;
    cbn [NilEmpty.string_of_uint scan_digits Pos.of_uint].
  - destruct Hseen as [Hd| ->]; [contradiction | reflexivity].
  - change (digit_of "0"%char) with (Some 0%N). cbv iota.
    change (0 * 10 + 0)%N with 0%N. apply IHd. right. reflexivity.
  - change (digit_of "1"%char) with (Some 1%N). cbv iota. apply scan_digits_of_uint_acc.
  - change (digit_of "2"%char) with (Some 2%N). cbv iota. apply scan_digits_of_uint_acc.
  - change (digit_of "3"%char) with (Some 3%N). cbv iota. apply scan_digits_of_uint_acc.
  - change (digit_of "4"%char) with (Some 4%N). cbv iota. apply scan_digits_of_uint_acc.
  - change (digit_of "5"%char) with (Some 5%N). cbv iota. apply scan_digits_of_uint_acc.
  - change (digit_of "6"%char) with (Some 6%N). cbv iota. apply scan_digits_of_uint_acc.
  - change (digit_of "7"%char) with (Some 7%N). cbv iota. apply scan_digits_of_uint_acc.
  - change (digit_of "8"%char) with (Some 8%N). cbv iota. apply scan_digits_of_uint_acc.
  - change (digit_of "9"%char) with (Some 9%N). cbv iota. apply scan_digits_of_uint_acc.
Qed.

Lemma scan_lu_of_uint (d : Decimal.uint) :
  d <> Decimal.Nil ->
  scan_lu (NilEmpty.string_of_uint d) = Some (N.of_uint d mod two32)%N.
Proof.
  intros Hd.
  pose proof (scan_digits_of_uint d false (or_introl Hd)) as Hscan.
  destruct d; [contradiction|..];
    cbn [NilEmpty.string_of_uint] in *; unfold scan_lu;
    match goal with
    | |- context [skip_spaces (String ?c ?s)] =>
        change (skip_spaces (String c s)) with (String c s)
    end;
    cbv beta iota; rewrite Hscan; reflexivity.
Qed.

Lemma to_uint_not_Nil (n : N) : N.to_uint n <> Decimal.Nil.
Proof.
  intros Hnil. pose proof (DecimalN.Unsigned.of_to n) as Hback.
  rewrite Hnil in Hback. destruct n; [discriminate Hnil | discriminate Hback].
Qed.

(** What [fprintf("%lu")] writes for a process id, [fscanf("%lu")] reads
    back as the same id. *)
Lemma scan_lu_print_lu (pid : DWORD) :
  (pid < two32)%N -> scan_lu (print_lu pid) = Some pid.
Proof.
  intros Hpid. unfold print_lu.
  rewrite scan_lu_of_uint by apply to_uint_not_Nil.
  rewrite DecimalN.Unsigned.of_to, N.mod_small by exact Hpid. reflexivity.
Qed.

(** *** The instance lock between two launchers *)

Lemma check_instances_true (w : World) :
  str_empty (G_PID_FILE (globals w)) = false ->
  fst (check_instances w) = true -> snd (check_instances w) = write_pid_file w.
Proof.
  intros Hpath. unfold check_instances. rewrite Hpath.
  destruct (fopen_r (G_PID_FILE (globals w)) w) as [text|]; [|reflexivity].
  destruct (scan_lu text) as [old_pid|]; [|reflexivity].
  destruct (query_exit_code old_pid w) as [exit_code|]; [|reflexivity].
  destruct (N.eqb exit_code STILL_ACTIVE); [discriminate | reflexivity].
Qed.

Lemma check_instances_owner_runs (pid : DWORD) (w : World) :
  str_empty (G_PID_FILE (globals w)) = false ->
  lock_file w = Some (print_lu pid) -> (pid < two32)%N -> pid_running pid w = true ->
  can_query pid w = true ->
  check_instances w = (false, show_message "Another instance is already running." w).
Proof.
  intros Hpath Hfile Hpid Hrunning Hopen. unfold lock_file in Hfile.
  unfold check_instances. rewrite Hpath, Hfile, scan_lu_print_lu by exact Hpid.
  unfold query_exit_code. rewrite Hopen, Hrunning. reflexivity.
Qed.

(** Mutual exclusion: once a launcher has taken the lock, a second
    launcher that uses the same lock file, sees the first one running and
    is given a handle of it by [OpenProcess] is refused, and touches no
    file. *)
Theorem second_instance_is_refused (first second : World) :
  lock_usable first = true ->
  (os_current_pid (os first) < two32)%N ->
  fst (check_instances first) = true ->
  G_PID_FILE (globals second) = G_PID_FILE (globals first) ->
  os_files (os second) = os_files (os (snd (check_instances first))) ->
  pid_running (os_current_pid (os first)) second = true ->
  can_query (os_current_pid (os first)) second = true ->
  lock_refused second.
Proof.
  intros Husable Hpid Hfree Hsame Hfiles Hrunning Hopen.
  destruct (lock_usable_path first Husable) as [Hpath _].
  rewrite check_instances_true in Hfiles by assumption.
  destruct (write_pid_file_effect first Husable)
    as [written [Heq [Hglobals [_ [_ [Hwritten _]]]]]].
  subst written.
  assert (Hfile : lock_file second = Some (print_lu (os_current_pid (os first)))).
  { unfold lock_file, fopen_r in *. rewrite Hsame, Hfiles.
    rewrite Hglobals in Hwritten. exact Hwritten. }
  assert (Hpath2 : str_empty (G_PID_FILE (globals second)) = false)
    by (rewrite Hsame; exact Hpath).
  unfold lock_refused.
  rewrite (check_instances_owner_runs (os_current_pid (os first)) second) by assumption.
  cbn [fst snd]. split; [reflexivity|]. apply show_message_files.
Qed.

Lemma second_instance_is_refused_witness :
  lock_refused
    (with_os
       (fun o =>
          Build_OS (entry 4242 900 "launcher.exe" :: entry 5151 900 "launcher.exe" :: nil)
            (os_exited o) (os_snapshot_ok o) (os_handles o) (os_next_id o) 5151%N
            (os_programs o) (os_files (os (snd (check_instances lock_absent))))
            (os_write_denied o) (os_ini o) (os_shell_traywnd o) (os_taskbar_visible o)
            (os_is_admin o) (os_runas_ok o) (os_trace o) (os_console o) (os_log o)
            (os_query_denied o) (os_terminate_denied o))
       lock_absent).
Proof.
  apply (second_instance_is_refused lock_absent); reflexivity.
Defined.

(** A launcher started while the lock file holds the id of a running
    process that [OpenProcess] gives it a handle of returns 1 at once,
    whatever the budget: it writes and deletes no file, starts and
    terminates no process, and leaves handles and the taskbar alone. *)
Theorem main_refuses_second_instance (fuel : nat) (shortcut : string) (pid : DWORD)
  (w : World) :
  assoc (pid_file_of (home_dir_of (ini_path_of shortcut))) (os_files (os w)) =
    Some (print_lu pid) ->
  (pid < two32)%N -> pid_running pid w = true -> can_query pid w = true ->
  exists w',
    main fuel (Some shortcut) w = Ok (1, w') /\
    os_files (os w') = os_files (os w) /\ trace w' = trace w /\
    processes w' = processes w /\ os_handles (os w') = os_handles (os w) /\
    os_taskbar_visible (os w') = os_taskbar_visible (os w) /\
    tracked w' = tracked w.
Proof.
  intros Hfile Hpid Hrunning Hopen.
  unfold main. cbv zeta.
  set (ini := ini_path_of shortcut) in *.
  set (w_b := with_globals (fun g => set_G_PID_FILE (pid_file_of (G_HOME_DIR g)) g)
                (with_globals (set_G_HOME_DIR (home_dir_of ini)) w)).
  set (w_c := show_message "Launcher starting..." w_b).
  set (w_d := with_globals (set_G_IS_ADMIN (os_is_admin (os w_c))) w_c).
  match goal with |- context [check_instances ?x] => set (w_e := x) end.
  assert (Hsilent_c : silent w_c = silent w_b) by apply silent_show_message.
  assert (Hsilent_e : silent w_e = silent w_d).
  { unfold w_e. destruct (G_IS_ADMIN (globals w_d));
      [apply silent_show_message | reflexivity]. }
  destruct (silent_eq_fields w_b w_c Hsilent_c)
    as [Hg_c [Hp_c [Ht_c [_ [Hh_c [Hf_c [Htb_c [_ [_ [_ [_ [Hq_c _]]]]]]]]]]]].
  destruct (silent_eq_fields w_d w_e Hsilent_e)
    as [Hg_e [Hp_e [Ht_e [_ [Hh_e [Hf_e [Htb_e [_ [_ [_ [_ [Hq_e _]]]]]]]]]]]].
  assert (Hpath_e : G_PID_FILE (globals w_e) = pid_file_of (home_dir_of ini)).
  { rewrite Hg_e. unfold w_d. cbn. rewrite Hg_c. reflexivity. }
  assert (Hfiles_e : os_files (os w_e) = os_files (os w)).
  { rewrite Hf_e. unfold w_d. cbn. rewrite Hf_c. reflexivity. }
  assert (Hprocs_e : processes w_e = processes w).
  { rewrite Hp_e. unfold w_d, processes. cbn. fold (processes w_c). rewrite Hp_c. reflexivity. }
  rewrite (check_instances_owner_runs pid w_e).
  - cbn [negb]. eexists. split; [reflexivity|].
    match goal with |- context [show_message ?m (show_message ?m' w_e)] =>
      pose proof (silent_show_message m (show_message m' w_e)) as Hs1;
      pose proof (silent_show_message m' w_e) as Hs2
    end.
    rewrite Hs2 in Hs1.
    destruct (silent_eq_fields _ _ Hs1) as [Hg_f [Hp_f [Ht_f [_ [Hh_f [Hf_f [Htb_f _]]]]]]].
    split; [rewrite Hf_f; exact Hfiles_e|].
    split; [rewrite Ht_f, Ht_e; change (trace w_d) with (trace w_c);
            rewrite Ht_c; reflexivity|].
    split; [rewrite Hp_f; exact Hprocs_e|].
    split; [rewrite Hh_f, Hh_e; change (os_handles (os w_d)) with (os_handles (os w_c));
            rewrite Hh_c; reflexivity|].
    split; [rewrite Htb_f, Htb_e;
            change (os_taskbar_visible (os w_d)) with (os_taskbar_visible (os w_c));
            rewrite Htb_c; reflexivity|].
    unfold tracked. rewrite Hg_f, Hg_e.
    change (G_TRACKED_PROCESSES (globals w_d)) with (G_TRACKED_PROCESSES (globals w_c)).
    rewrite Hg_c. reflexivity.
  - rewrite Hpath_e. apply pid_file_of_not_empty.
  - unfold lock_file, fopen_r. rewrite Hpath_e, Hfiles_e. exact Hfile.
  - exact Hpid.
  - unfold pid_running. rewrite Hprocs_e. exact Hrunning.
  - unfold can_query. rewrite Hq_e.
    change (os_query_denied (os w_d)) with (os_query_denied (os w_c)).
    rewrite Hq_c. exact Hopen.
Qed.

Lemma main_refuses_second_instance_witness :
  exists w',
    main 0 (Some doom_shortcut) lock_held = Ok (1, w') /\
    os_files (os w') = os_files (os lock_held) /\ trace w' = trace lock_held /\
    processes w' = processes lock_held /\ os_handles (os w') = os_handles (os lock_held) /\
    os_taskbar_visible (os w') = os_taskbar_visible (os lock_held) /\
    tracked w' = tracked lock_held.
Proof.
  apply (main_refuses_second_instance 0 doom_shortcut 3110%N lock_held); reflexivity.
Defined.

(** The lock file round trip: the text [write_pid_file] leaves in the
    lock file is read back by [fscanf] as the id of the process that wrote
    it; after [cleanup_pid_file] there is no lock file. *)
Theorem pid_file_round_trip (w : World) :
  lock_usable w = true -> (os_current_pid (os w) < two32)%N ->
  (exists text,
     lock_file (write_pid_file w) = Some text /\
     scan_lu text = Some (os_current_pid (os w))) /\
  lock_file (cleanup_pid_file (write_pid_file w)) = None.
Proof.
  intros Husable Hpid. split.
  - exists (print_lu (os_current_pid (os w))).
    split; [apply write_pid_file_writes; exact Husable|].
    apply scan_lu_print_lu; exact Hpid.
  - destruct (lock_usable_path w Husable) as [Hpath Hdenied].
    destruct (write_pid_file_effect w Husable) as [w' [<- [Hglobals _]]].
    unfold cleanup_pid_file. rewrite Hglobals, Hpath.
    unfold lock_file, fopen_r, DeleteFileA. cbn. rewrite Hglobals.
    apply assoc_removed.
Qed.

Lemma pid_file_round_trip_witness :
  (exists text,
     lock_file (write_pid_file lock_absent) = Some text /\
     scan_lu text = Some (os_current_pid (os lock_absent))) /\
  lock_file (cleanup_pid_file (write_pid_file lock_absent)) = None.
Proof.
  apply (pid_file_round_trip lock_absent); reflexivity.
Defined.

(** *** Sequences *)

Lemma split_commas_join (s1 s2 : string) :
  split_commas (s1 ++ String comma s2) = split_commas s1 ++ split_commas s2.
Proof.
  induction s1 as [|c s1 IH].
  - reflexivity.
  - cbn [append split_commas]. rewrite IH.
    destruct (Ascii.eqb c comma); [reflexivity|].
    destruct (split_commas s1) as [|f fs] eqn:Hsplit; [|reflexivity].
    exfalso. apply (split_commas_not_nil s1). exact Hsplit.
Qed.

Lemma trimmed_tokens_join (s1 s2 : string) :
  trimmed_tokens (s1 ++ String comma s2) = trimmed_tokens s1 ++ trimmed_tokens s2.
Proof.
  unfold trimmed_tokens. rewrite split_commas_join, map_app, filter_app. reflexivity.
Qed.

(** Running two sequences joined by a comma is running the first and then
    the second, from the state the first one leaves; a failure of the
    first is the failure of the whole. *)
Theorem execute_sequence_composes (fuel : nat) (s1 s2 : string) (is_exit : bool)
  (w : World) :
  execute_sequence fuel (s1 ++ "," ++ s2) is_exit w =
  execute_sequence fuel s1 is_exit w >>= execute_sequence fuel s2 is_exit.
Proof.
  change (s1 ++ "," ++ s2)%string with (s1 ++ String comma s2)%string.
  rewrite execute_sequence_run_actions, trimmed_tokens_join.
  rewrite (execute_sequence_run_actions fuel s1 is_exit w).
  unfold run_actions. rewrite for_each_app.
  destruct (for_each (fun action => execute_action fuel action is_exit)
              (trimmed_tokens s1) w) as [w1| |]; cbn [bind]; try reflexivity.
  symmetry. apply execute_sequence_run_actions.
Qed.

Lemma only_separators_fields (s : string) :
  only_separators s = true ->
  forall f, In f (split_commas s) -> all_blank f = true.
Proof.
  induction s as [|c s IH]; intros Hsep f Hin.
  - destruct Hin as [<-|[]]. reflexivity.
  - cbn [only_separators] in Hsep. apply andb_true_iff in Hsep.
    destruct Hsep as [Hc Hs]. specialize (IH Hs).
    cbn [split_commas] in Hin. destruct (Ascii.eqb c comma) eqn:Hcomma.
    + destruct Hin as [<-|Hin]; [reflexivity | apply IH; exact Hin].
    + cbn [orb] in Hc. rewrite orb_false_r in Hc.
      destruct (split_commas s) as [|f0 fs].
      * destruct Hin as [<-|[]]. cbn [all_blank]. rewrite Hc. reflexivity.
      * destruct Hin as [<-|Hin].
        -- cbn [all_blank]. rewrite Hc. apply IH. left. reflexivity.
        -- apply IH. right. exact Hin.
Qed.

Lemma only_separators_no_tokens (s : string) :
  only_separators s = true -> trimmed_tokens s = [].
Proof.
  intros Hsep. unfold trimmed_tokens.
  pose proof (only_separators_fields s Hsep) as Hfields.
  induction (split_commas s) as [|f fs IH]; [reflexivity|].
  cbn [map filter]. rewrite all_blank_strip by (apply Hfields; left; reflexivity).
  cbn [str_empty negb]. apply IH. intros f' Hin. apply Hfields. right. exact Hin.
Qed.

(** A sequence or a kill list made of blanks and commas only does
    nothing at all: no action is dispatched, nothing is printed. *)
Theorem execute_sequence_of_separators (fuel : nat) (s : string) (is_exit : bool)
  (w : World) :
  only_separators s = true ->
  execute_sequence fuel s is_exit w = Ok w.
Proof.
  intros Hsep. rewrite execute_sequence_run_actions, only_separators_no_tokens by exact Hsep.
  reflexivity.
Qed.

Lemma execute_sequence_of_separators_witness :
  execute_sequence 0 " , ,, " true taskbar_hidden = Ok taskbar_hidden.
Proof.
  apply (execute_sequence_of_separators 0 " , ,, " true taskbar_hidden). reflexivity.
Defined.

(** *** The kill list *)






(** *** [kill_all_tracked_processes]: the trees of the registry *)

Lemma tracked_loop_whole (h : DWORD -> nat) (fuel : nat) (l : list TrackedProcess) :
  forall w,
    snapshot_tree h w -> fan_out_bounded (processes w) = true ->
    (forall tp, In tp l ->
       0 < h (dwProcessId (tp_pi tp)) /\ h (dwProcessId (tp_pi tp)) <= fuel) ->
    exists w',
      for_each
        (fun current w' =>
           terminate_process_tree fuel (dwProcessId (tp_pi current)) w' >>= fun w1 =>
           Ok (CloseHandle (hThread (tp_pi current))
                 (CloseHandle (hProcess (tp_pi current)) w1)))
        l w = Ok w' /\
      (forall pe, In pe (processes w') <->
         In pe (processes w) /\
         (can_terminate (th32ProcessID pe) w = false \/
          forall tp, In tp l ->
            ~ descends (processes w) (dwProcessId (tp_pi tp)) (th32ProcessID pe))).
Proof.
  induction l as [|tp l IH]; intros w Hshape Hfan Hdepth.
  - exists w. split; [reflexivity|]. intros pe. split; [|tauto].
    intros Hpe. split; [exact Hpe|]. right. intros tp [].
  - destruct (Hdepth tp (or_introl eq_refl)) as [Hpos Hle].
    destruct (terminate_process_tree_whole h fuel _ w Hshape Hfan Hpos Hle)
      as [killed [Hrun Hkilled]].
    cbn [for_each]. rewrite Hrun. cbn [bind].
    set (w1 := CloseHandle (hThread (tp_pi tp))
                 (CloseHandle (hProcess (tp_pi tp)) (after_kills killed w))).
    assert (Hprocs1 : processes w1 = filter (survives killed) (processes w)).
    { exact (processes_after_kills killed w). }
    assert (Hopen1 : forall x, can_terminate x w1 = can_terminate x w).
    { intros x. exact (can_terminate_after_kills killed w x). }
    assert (Hshape1 : snapshot_tree h w1).
    { exact (snapshot_tree_after_kills h killed w Hshape). }
    assert (Hfan1 : fan_out_bounded (processes w1) = true).
    { rewrite Hprocs1. apply fan_out_bounded_filter. exact Hfan. }
    destruct (IH w1 Hshape1 Hfan1) as [w' [Hloop Hleft]].
    { intros tp' Hin. apply Hdepth. right. exact Hin. }
    exists w'. split; [exact Hloop|].
    assert (Halive1 : forall pe, In pe (processes w1) <->
              In pe (processes w) /\
              (can_terminate (th32ProcessID pe) w = false \/
               ~ descends (processes w) (dwProcessId (tp_pi tp)) (th32ProcessID pe))).
    { intros pe. rewrite Hprocs1, filter_In, survives_In. split.
      - intros [Hpe Hnot]. split; [exact Hpe|].
        destruct (can_terminate (th32ProcessID pe) w) eqn:Hcan; [right|left; reflexivity].
        intros Hdesc. apply Hnot. apply Hkilled.
        split; [apply in_map; exact Hpe|]. split; assumption.
      - intros [Hpe Hnot]. split; [exact Hpe|]. intros Hin.
        apply Hkilled in Hin. destruct Hin as [_ [Hdesc Hcan]].
        destruct Hnot as [Hrefused|Hnot]; [congruence | contradiction]. }
    intros pe. rewrite Hleft, Halive1, Hopen1. split.
    + intros [[Hpe Hnot] Hrest]. split; [exact Hpe|].
      destruct (can_terminate (th32ProcessID pe) w) eqn:Hcan; [right|left; reflexivity].
      destruct Hnot as [Hrefused|Hnot]; [discriminate|].
      destruct Hrest as [Hrefused|Hrest]; [discriminate|].
      intros tp' [<-|Hin]; [exact Hnot|]. intros Hdesc.
      apply (Hrest tp' Hin). rewrite Hprocs1.
      apply descends_filter_path; [exact Hdesc|].
      intros y Hy Hyx Hin_y. apply Hnot.
      apply Hkilled in Hin_y. destruct Hin_y as [_ [Hty _]].
      apply (descends_trans _ _ y); assumption.
    + intros [Hpe Hall]. destruct Hall as [Hrefused|Hall].
      * split; [split; [exact Hpe|]|]; left; exact Hrefused.
      * split.
        -- split; [exact Hpe|]. right. apply Hall. left. reflexivity.
        -- right. intros tp' Hin Hdesc. apply (Hall tp' (or_intror Hin)).
           apply (descends_incl (processes w1)); [|exact Hdesc].
           rewrite Hprocs1. intros pe' Hpe'. apply filter_In in Hpe'. apply Hpe'.
Qed.

(** When snapshots can be taken, process ids are distinct, no process has
    more than 256 children and the trees below the tracked processes have
    a depth within the budget, [kill_all_tracked_processes] returns, and
    the processes left running are exactly those that were neither a
    tracked process nor below one, and those [OpenProcess] gives no
    handle of. *)
Theorem kill_all_tracked_processes_whole_trees (h : DWORD -> nat) (fuel : nat)
  (w : World) :
  os_snapshot_ok (os w) = true ->
  distinct (pids (processes w)) = true ->
  tree_below h (processes w) = true ->
  fan_out_bounded (processes w) = true ->
  (forall tp, In tp (tracked w) ->
     0 < h (dwProcessId (tp_pi tp)) /\ h (dwProcessId (tp_pi tp)) <= fuel) ->
  exists w1,
    kill_all_tracked_processes fuel w = Ok w1 /\
    (forall pe, In pe (processes w1) <->
       In pe (processes w) /\
       (can_terminate (th32ProcessID pe) w = false \/
        forall tp, In tp (tracked w) ->
          ~ descends (processes w) (dwProcessId (tp_pi tp)) (th32ProcessID pe))).
Proof.
  intros Hok Hdistinct Htree Hfan Hdepth.
  assert (Hshape : snapshot_tree h w) by (apply snapshot_tree_of_checks; assumption).
  set (m := "Cleaning up background processes...").
  pose proof (silent_show_message m w) as Hsilent.
  destruct (silent_eq_fields _ _ Hsilent)
    as [Hg [Hp [_ [_ [_ [_ [_ [_ [_ [_ [_ [_ Hd]]]]]]]]]]]].
  assert (Htracked : tracked (show_message m w) = tracked w)
    by (unfold tracked; rewrite Hg; reflexivity).
  destruct (tracked_loop_whole h fuel (tracked w) (show_message m w))
    as [w' [Hloop Hleft]].
  { exact (snapshot_tree_silent h w _ Hsilent Hshape). }
  { rewrite Hp. exact Hfan. }
  { exact Hdepth. }
  exists (with_globals (set_G_TRACKED_PROCESSES []) w'). split.
  - unfold kill_all_tracked_processes. fold m. rewrite Htracked, Hloop. reflexivity.
  - intros pe.
    change (processes (with_globals (set_G_TRACKED_PROCESSES []) w')) with (processes w').
    rewrite Hleft, Hp. unfold can_terminate. rewrite Hd. reflexivity.
Qed.

Lemma kill_all_tracked_processes_whole_trees_witness :
  exists w1,
    kill_all_tracked_processes 2 guarded_helpers = Ok w1 /\
    (forall pe, In pe (processes w1) <->
       In pe (processes guarded_helpers) /\
       (can_terminate (th32ProcessID pe) guarded_helpers = false \/
        forall tp, In tp (tracked guarded_helpers) ->
          ~ descends (processes guarded_helpers) (dwProcessId (tp_pi tp))
              (th32ProcessID pe))).
Proof.
  apply (kill_all_tracked_processes_whole_trees synthetic_height 2 guarded_helpers).
  - reflexivity.
  - reflexivity.
  - reflexivity.
  - reflexivity.
  - intros tp [<-|[<-|[]]]; vm_compute; lia.
Defined.

Lemma tracked_loop_without_snapshot (fuel : nat) (l : list TrackedProcess) :
  forall w,
    os_snapshot_ok (os w) = false ->
    exists w',
      for_each
        (fun current w' =>
           terminate_process_tree (S fuel) (dwProcessId (tp_pi current)) w' >>= fun w1 =>
           Ok (CloseHandle (hThread (tp_pi current))
                 (CloseHandle (hProcess (tp_pi current)) w1)))
        l w = Ok w' /\
      processes w' = processes w /\
      terminated (trace w') = terminated (trace w) /\
      closed (trace w') =
        closed (trace w) ++ flat_map (fun tp => [hProcess (tp_pi tp); hThread (tp_pi tp)]) l.
Proof.
  induction l as [|tp l IH]; intros w Hfail.
  - exists w. cbn [for_each flat_map]. rewrite app_nil_r. repeat split.
  - cbn [for_each terminate_process_tree]. rewrite Hfail. cbn [negb bind].
    set (w1 := CloseHandle (hThread (tp_pi tp)) (CloseHandle (hProcess (tp_pi tp)) w)).
    destruct (IH w1) as [w' [Hloop [Hprocs [Hterm Hclosed]]]]; [exact Hfail|].
    exists w'. split; [exact Hloop|]. split; [exact Hprocs|]. split.
    + rewrite Hterm. unfold w1, CloseHandle, emit, trace.
      cbn [with_os os set_os_trace set_os_handles os_trace].
      rewrite !terminated_app. cbn [terminated]. rewrite !app_nil_r. reflexivity.
    + rewrite Hclosed. unfold w1, CloseHandle, emit, trace.
      cbn [with_os os set_os_trace set_os_handles os_trace].
      rewrite !closed_app. cbn [closed flat_map app]. rewrite <- !app_assoc. reflexivity.
Qed.

(** When no snapshot can be taken, [kill_all_tracked_processes] still
    closes the handles of every entry and empties the registry, but it
    terminates nothing: the tracked processes keep running and are no
    longer known to the launcher. *)
Theorem kill_all_tracked_processes_without_snapshot (fuel : nat) (w : World) :
  os_snapshot_ok (os w) = false ->
  exists w1,
    kill_all_tracked_processes (S fuel) w = Ok w1 /\
    tracked w1 = [] /\
    processes w1 = processes w /\
    terminated (trace w1) = terminated (trace w) /\
    closed (trace w1) =
      closed (trace w) ++
      flat_map (fun tp => [hProcess (tp_pi tp); hThread (tp_pi tp)]) (tracked w).
Proof.
  intros Hfail.
  set (m := "Cleaning up background processes...").
  pose proof (silent_show_message m w) as Hsilent.
  destruct (silent_eq_fields _ _ Hsilent) as [Hg [Hp [Ht [Hok _]]]].
  assert (Htracked : tracked (show_message m w) = tracked w)
    by (unfold tracked; rewrite Hg; reflexivity).
  destruct (tracked_loop_without_snapshot fuel (tracked w) (show_message m w))
    as [w' [Hloop [Hprocs [Hterm Hclosed]]]].
  { rewrite Hok. exact Hfail. }
  exists (with_globals (set_G_TRACKED_PROCESSES []) w').
  split; [|split; [|split; [|split]]].
  - unfold kill_all_tracked_processes. fold m. rewrite Htracked, Hloop. reflexivity.
  - reflexivity.
  - change (processes (with_globals (set_G_TRACKED_PROCESSES []) w')) with (processes w').
    rewrite Hprocs, Hp. reflexivity.
  - change (trace (with_globals (set_G_TRACKED_PROCESSES []) w')) with (trace w').
    rewrite Hterm, Ht. reflexivity.
  - change (trace (with_globals (set_G_TRACKED_PROCESSES []) w')) with (trace w').
    rewrite Hclosed, Ht. reflexivity.
Qed.

Lemma kill_all_tracked_processes_without_snapshot_witness :
  exists w1,
    kill_all_tracked_processes 1 without_snapshots = Ok w1 /\
    tracked w1 = [] /\
    processes w1 = processes without_snapshots /\
    terminated (trace w1) = terminated (trace without_snapshots) /\
    closed (trace w1) =
      closed (trace without_snapshots) ++
      flat_map (fun tp => [hProcess (tp_pi tp); hThread (tp_pi tp)])
        (tracked without_snapshots).
Proof.
  apply (kill_all_tracked_processes_without_snapshot 0 without_snapshots). reflexivity.
Defined.

(** *** Generic applications *)

Lemma strncpy_twice (s : string) (n : nat) : strncpy (strncpy s n) n = strncpy s n.
Proof. apply strncpy_short. unfold strncpy. apply substring_length_le. Qed.

Lemma pid_running_appended (pe : PROCESSENTRY32) (l : list PROCESSENTRY32) :
  existsb (fun pe' => N.eqb (th32ProcessID pe') (th32ProcessID pe)) (l ++ [pe]) = true.
Proof.
  rewrite existsb_app. cbn [existsb]. rewrite N.eqb_refl, orb_true_r. reflexivity.
Qed.

(** What [action_run_generic_app] does to the registry.  Without a path,
    or when the resolved path is not an existing file, it does nothing.
    An application that is waited for is never registered.  One that is
    not waited for, with a path that resolves to an existing file, is
    registered exactly when [CreateProcess] accepts its command line, the
    quoted resolved path followed by the options and the arguments: if
    the command is refused nothing changes; if it is accepted the
    application is registered under the first 255 characters of its
    resolved path, with the information [CreateProcess] returned, its
    process is running, as a child of the launcher, and its process
    handle is open. *)
Theorem action_run_generic_app_registers (app_path : string) (wait : bool)
  (options args : string) (w : World) :
  let resolved := resolve_path app_path MAX_PATH_LEN w in
  let cmd := append_word (append_word (snprintf MAX_CMD_LEN (quoted resolved)) options) args in
  let w' := action_run_generic_app app_path wait options args w in
  (str_empty app_path = true \/ file_exists resolved w = false -> w' = w) /\
  (wait = true -> globals w' = globals w) /\
  (wait = false -> str_empty app_path = false -> file_exists resolved w = true ->
   assoc cmd (os_programs (os w)) = None -> w' = w) /\
  (forall image,
     wait = false -> str_empty app_path = false -> file_exists resolved w = true ->
     assoc cmd (os_programs (os w)) = Some image ->
     exists pi,
       tracked w' =
         {| tp_name := strncpy resolved (MAX_NAME_LEN - 1); tp_pi := pi |} :: tracked w /\
       dwProcessId pi = os_next_id (os w) /\
       pid_running (dwProcessId pi) w' = true /\
       GetProcessId (hProcess pi) w' = dwProcessId pi /\
       processes w' =
         processes w ++ [entry (dwProcessId pi) (os_current_pid (os w)) image] /\
       trace w' = trace w ++ [EvCreateProcess cmd None]).
Proof.
  cbv zeta. unfold action_run_generic_app.
  set (resolved := resolve_path app_path MAX_PATH_LEN w).
  set (cmd := append_word (append_word (snprintf MAX_CMD_LEN (quoted resolved)) options) args).
  split; [|split; [|split]].
  - intros [Hempty|Hmissing].
    + rewrite Hempty. reflexivity.
    + destruct (str_empty app_path); [reflexivity|]. rewrite Hmissing. reflexivity.
  - intros ->. destruct (str_empty app_path); [reflexivity|].
    destruct (file_exists resolved w); [|reflexivity]. cbn [negb].
    unfold run_process, CreateProcessA.
    destruct (assoc cmd (os_programs (os w))); [|reflexivity].
    cbn [andb negb]. unfold CloseHandle, emit. cbn [globals with_os].
    unfold WaitForSingleObject. destruct (assocN _ _); reflexivity.
  - intros -> Hpath Hfile Hrefused. rewrite Hpath, Hfile. cbn [negb].
    unfold run_process, CreateProcessA. rewrite Hrefused. reflexivity.
  - intros image -> Hpath Hfile Haccepted. rewrite Hpath, Hfile. cbn [negb].
    unfold run_process, CreateProcessA. rewrite Haccepted.
    cbn [andb negb hProcess].
    destruct (N.eqb_spec (os_next_id (os w) + 1) NULL) as [Hnull|_];
      [unfold NULL in Hnull; lia|].
    cbn [negb]. eexists.
    rewrite tracked_add_tracked_process, strncpy_twice.
    split; [reflexivity|]. split; [reflexivity|]. split; [|split; [|split]].
    + unfold pid_running, processes. cbn.
      apply (pid_running_appended
               {| th32ProcessID := os_next_id (os w);
                  th32ParentProcessID := os_current_pid (os w);
                  szExeFile := image |}).
    + unfold GetProcessId. cbn. rewrite N.eqb_refl. reflexivity.
    + reflexivity.
    + reflexivity.
Qed.

Lemma action_run_generic_app_registers_witness :
  exists pi,
    tracked (action_run_generic_app "C:\tools\sync.exe" false EmptyString EmptyString
               sync_ready) =
      {| tp_name := strncpy (resolve_path "C:\tools\sync.exe" MAX_PATH_LEN sync_ready)
                      (MAX_NAME_LEN - 1);
         tp_pi := pi |} :: tracked sync_ready /\
    dwProcessId pi = os_next_id (os sync_ready) /\
    pid_running (dwProcessId pi)
      (action_run_generic_app "C:\tools\sync.exe" false EmptyString EmptyString
         sync_ready) = true /\
    GetProcessId (hProcess pi)
      (action_run_generic_app "C:\tools\sync.exe" false EmptyString EmptyString
         sync_ready) = dwProcessId pi /\
    processes
      (action_run_generic_app "C:\tools\sync.exe" false EmptyString EmptyString
         sync_ready) =
      processes sync_ready ++
      [entry (dwProcessId pi) (os_current_pid (os sync_ready)) "sync.exe"] /\
    trace
      (action_run_generic_app "C:\tools\sync.exe" false EmptyString EmptyString
         sync_ready) =
      trace sync_ready ++ [EvCreateProcess (quoted "C:\tools\sync.exe") None].
Proof.
  apply (proj2 (proj2 (proj2 (action_run_generic_app_registers
                                "C:\tools\sync.exe" false EmptyString EmptyString
                                sync_ready))) "sync.exe"); reflexivity.
Defined.

(** *** The controller mapper, from launch to exit *)

Lemma find_tracked_process_show_message (n m : string) (w : World) :
  find_tracked_process n (show_message m w) = find_tracked_process n w.
Proof.
  destruct (silent_eq_fields _ _ (silent_show_message m w)) as [Hg _].
  unfold find_tracked_process, tracked. rewrite Hg. reflexivity.
Qed.

(** When the launch action registers a mapper, it has started one. *)
Lemma action_run_controller_mapper_started (w : World) :
  find_tracked_process "controller_mapper" w = None ->
  find_tracked_process "controller_mapper" (action_run_controller_mapper false w) <> None ->
  exists cmd image,
    assoc cmd (os_programs (os w)) = Some image /\
    action_run_controller_mapper false w =
    add_tracked_process "controller_mapper" (snd (fst (CreateProcessA cmd None w)))
      (snd (CreateProcessA cmd None w)).
Proof.
  intros Hbefore Hafter. unfold action_run_controller_mapper in *.
  destruct (str_empty (controller_mapper_app (cfg w)) || str_empty (player1_profile (cfg w))).
  { rewrite find_tracked_process_show_message in Hafter. contradiction. }
  destruct (negb (file_exists (controller_mapper_app (cfg w)) w)).
  { rewrite find_tracked_process_show_message in Hafter. contradiction. }
  destruct (negb (file_exists (player1_profile (cfg w)) w)).
  { rewrite find_tracked_process_show_message in Hafter. contradiction. }
  cbv zeta in *.
  match type of Hafter with
  | context [run_process ?c None false w] => set (cmd := c) in *
  end.
  unfold run_process in *. 
  destruct (CreateProcessA cmd None w) as [[success pi] w1] eqn:Hcreate.
  rewrite andb_false_r in *.
  unfold CreateProcessA in Hcreate.
  destruct (assoc cmd (os_programs (os w))) as [image|] eqn:Hprogram.
  - exists cmd, image. split; [exact Hprogram|].
    unfold CreateProcessA. rewrite Hprogram.
    injection Hcreate as <- <- <-. reflexivity.
  - injection Hcreate as <- <- <-. contradiction.
Qed.

Lemma filter_fresh_processes (id : DWORD) (l : list PROCESSENTRY32) :
  forallb (fun pe => negb (N.eqb (th32ProcessID pe) id) &&
                     negb (N.eqb (th32ParentProcessID pe) id)) l = true ->
  filter (fun pe => negb (N.eqb (th32ProcessID pe) id)) l = l /\
  children id l = [].
Proof.
  induction l as [|pe l IH]; intros Hfresh; [split; reflexivity|].
  cbn [forallb] in Hfresh. apply andb_true_iff in Hfresh. destruct Hfresh as [Hpe Hl].
  apply andb_true_iff in Hpe. destruct Hpe as [Hpid Hppid].
  destruct (IH Hl) as [Hfilter Hchildren]. unfold children in *.
  cbn [filter]. rewrite Hpid. apply negb_true_iff in Hppid. rewrite Hppid.
  rewrite Hfilter. split; [reflexivity | exact Hchildren].
Qed.

Lemma filter_fresh_handles (h1 h2 : HANDLE) (l : list (HANDLE * DWORD)) :
  forallb (fun hp => negb (N.eqb (fst hp) h1) && negb (N.eqb (fst hp) h2)) l = true ->
  filter (fun hp => negb (N.eqb (fst hp) h1)) l = l /\
  filter (fun hp => negb (N.eqb (fst hp) h2)) l = l.
Proof.
  induction l as [|hp l IH]; intros Hfresh; [split; reflexivity|].
  cbn [forallb] in Hfresh. apply andb_true_iff in Hfresh. destruct Hfresh as [Hhp Hl].
  apply andb_true_iff in Hhp. destruct Hhp as [H1 H2].
  destruct (IH Hl) as [Hf1 Hf2]. cbn [filter]. rewrite H1, H2, Hf1, Hf2.
  split; reflexivity.
Qed.

(** A process just started is one [OpenProcess] gives a handle of. *)
Lemma not_denied_after_allow (id : DWORD) (l : list DWORD) :
  negb (existsb (N.eqb id) (filter (fun p => negb (N.eqb p id)) l)) = true.
Proof.
  induction l as [|p l IH]; [reflexivity|].
  cbn [filter]. destruct (N.eqb p id) eqn:Hp; cbn [negb]; [exact IH|].
  cbn [existsb]. rewrite N.eqb_sym, Hp. exact IH.
Qed.

(** From launch to exit: when the launch action registers a controller
    mapper where none was registered, the exit action finds it, terminates
    it, closes its two handles and unregisters it, so that the registry,
    the running processes and the open handles are again what they were
    before the launch action.  Snapshots can be taken, and the id and the
    handles of the new process were not in use. *)
Theorem controller_mapper_round_trip (fuel : nat) (w : World) :
  os_snapshot_ok (os w) = true ->
  next_id_fresh w = true ->
  find_tracked_process "controller_mapper" w = None ->
  find_tracked_process "controller_mapper" (action_run_controller_mapper false w) <> None ->
  exists w2 cmd,
    action_kill_controller_mapper (S fuel) (action_run_controller_mapper false w) = Ok w2 /\
    tracked w2 = tracked w /\
    processes w2 = processes w /\
    os_handles (os w2) = os_handles (os w) /\
    trace w2 =
      trace w ++
      [EvCreateProcess cmd None;
       EvTerminateProcess (os_next_id (os w));
       EvCloseHandle (os_next_id (os w) + 1)%N;
       EvCloseHandle (os_next_id (os w) + 2)%N].
Proof.
  intros Hok Hfresh Hbefore Hafter.
  unfold next_id_fresh in Hfresh.
  apply andb_true_iff in Hfresh. destruct Hfresh as [Hfresh Hhandles].
  apply andb_true_iff in Hfresh. destruct Hfresh as [Hprocs Hself].
  destruct (filter_fresh_processes _ _ Hprocs) as [Hfilter Hchildren].
  destruct (filter_fresh_handles _ _ _ Hhandles) as [Hh1 Hh2].
  apply negb_true_iff in Hself.
  destruct (action_run_controller_mapper_started w Hbefore Hafter)
    as [cmd [image [Hprogram Hrun]]].
  rewrite Hrun. clear Hrun Hafter.
  unfold CreateProcessA. rewrite Hprogram. cbn [fst snd].
  set (id := os_next_id (os w)) in *.
  set (pi := {| hProcess := (id + 1)%N; hThread := (id + 2)%N;
                dwProcessId := id; dwThreadId := (id + 3)%N |}).
  set (pe := {| th32ProcessID := id; th32ParentProcessID := os_current_pid (os w);
                szExeFile := image |}).
  match goal with
  | |- context [add_tracked_process "controller_mapper" pi ?x] =>
      set (started := add_tracked_process "controller_mapper" pi x)
  end.
  assert (Hprocs_s : processes started = processes w ++ [pe]) by reflexivity.
  assert (Hfound : find_tracked_process "controller_mapper" started =
                   Some {| tp_name := "controller_mapper"; tp_pi := pi |}).
  { unfold find_tracked_process, started. rewrite tracked_add_tracked_process.
    apply find_first_head. }
  assert (Hnone : children id (processes started) = []).
  { rewrite Hprocs_s. unfold children, pids in *.
    rewrite filter_app, map_app, Hchildren. cbn [filter pe th32ParentProcessID].
    rewrite Hself. reflexivity. }
  unfold action_kill_controller_mapper. rewrite Hfound. cbn [tp_pi dwProcessId hProcess hThread pi].
  cbn [terminate_process_tree].
  change (os_snapshot_ok (os started)) with (os_snapshot_ok (os w)). rewrite Hok. cbn [negb].
  destruct (collect_children_safe id (processes started))
    as [child_pids [child_count [Hcollect [_ [_ Hfirst]]]]].
  rewrite Hcollect, Hfirst, Hnone. cbn [firstn for_each bind].
  assert (Hrunning : pid_running id started = true).
  { unfold pid_running. rewrite Hprocs_s. apply (pid_running_appended pe). }
  assert (Hopen : can_terminate id started = true).
  { apply (not_denied_after_allow id (os_terminate_denied (os w))). }
  rewrite open_and_terminate_running by assumption.
  eexists. exists cmd. split; [reflexivity|].
  split; [|split; [|split]].
  - rewrite tracked_remove_tracked_process.
    match goal with |- unlink_first _ (tracked ?x) = _ =>
      change (tracked x) with (tracked started) end.
    unfold started. rewrite tracked_add_tracked_process. apply unlink_first_head.
  - match goal with |- processes ?x = _ =>
      change (processes x)
        with (filter (fun pe' => negb (N.eqb (th32ProcessID pe') id)) (processes started))
    end.
    rewrite Hprocs_s, filter_app, Hfilter. cbn [filter pe th32ProcessID].
    rewrite N.eqb_refl. cbn [negb]. apply app_nil_r.
  - match goal with |- os_handles (os ?x) = _ =>
      change (os_handles (os x))
        with (filter (fun hp => negb (N.eqb (fst hp) (id + 2)))
                (filter (fun hp => negb (N.eqb (fst hp) (id + 1)))
                   (((id + 1)%N, id) :: os_handles (os w))))
    end.
    cbn [filter]. change (fst ((id + 1)%N, id)) with (id + 1)%N.
    rewrite N.eqb_refl. cbn [negb].
    etransitivity; [apply f_equal; exact Hh1 | exact Hh2].
  - match goal with |- trace ?x = _ =>
      change (trace x)
        with ((((trace w ++ [EvCreateProcess cmd None]) ++ [EvTerminateProcess id]) ++
               [EvCloseHandle (id + 1)%N]) ++ [EvCloseHandle (id + 2)%N])
    end.
    rewrite <- !app_assoc. reflexivity.
Qed.

Lemma controller_mapper_round_trip_witness :
  exists w2 cmd,
    action_kill_controller_mapper 1 (action_run_controller_mapper false mapper_ready) =
      Ok w2 /\
    tracked w2 = tracked mapper_ready /\
    processes w2 = processes mapper_ready /\
    os_handles (os w2) = os_handles (os mapper_ready) /\
    trace w2 =
      trace mapper_ready ++
      [EvCreateProcess cmd None;
       EvTerminateProcess (os_next_id (os mapper_ready));
       EvCloseHandle (os_next_id (os mapper_ready) + 1)%N;
       EvCloseHandle (os_next_id (os mapper_ready) + 2)%N].
Proof.
  apply (controller_mapper_round_trip 0 mapper_ready).
  - reflexivity.
  - reflexivity.
  - reflexivity.
  - vm_compute. discriminate.
Defined.

(** *** A whole run of [main] *)

Lemma show_message_loud (m : string) (c : list string) (l : list (string * string))
  (p : string) (w : World) :
  show_message m (loud c l p w) = loud (c ++ [m]) (logged p m l w) p w.
Proof.
  destruct w as [g o]. destruct o.
  unfold show_message, log_message, logged, loud. cbn -[mem_string str_empty].
  destruct (str_empty p); [reflexivity|].
  destruct (mem_string p _); reflexivity.
Qed.

Lemma loud_start (o : OS) :
  {| globals := initial_globals; os := o |} =
  loud (os_console o) (os_log o) EmptyString {| globals := initial_globals; os := o |}.
Proof. destruct o. reflexivity. Qed.

Lemma assoc_absent_filter {A : Type} (k : string) (l : list (string * A)) :
  assoc k l = None -> filter (fun kv => negb (String.eqb (fst kv) k)) l = l.
Proof.
  induction l as [|[k' v] l IH]; [reflexivity|]. cbn [assoc filter fst].
  destruct (String.eqb k' k); [discriminate|]. intros H. cbn [negb]. rewrite IH by exact H.
  reflexivity.
Qed.

Lemma check_instances_loud (c : list string) (l : list (string * string)) (p : string)
  (w : World) :
  str_empty (G_PID_FILE (globals w)) = false ->
  assoc (G_PID_FILE (globals w)) (os_files (os w)) = None ->
  mem_string (G_PID_FILE (globals w)) (os_write_denied (os w)) = false ->
  check_instances (loud c l p w) = (true, loud c l p (write_pid_file w)).
Proof.
  intros Hpath Hnone Hwritable. destruct w as [g o]. destruct o.
  cbn [globals os] in *.
  unfold check_instances, write_pid_file, write_file, fopen_r, loud.
  cbn -[mem_string str_empty assoc print_lu filter] in *.
  rewrite Hpath, Hnone, Hwritable. reflexivity.
Qed.

Lemma load_configuration_loud (ini : string) (loaded : GameConfiguration)
  (c : list string) (l : list (string * string)) (p : string) (w : World) :
  assoc ini (os_ini (os w)) = Some loaded ->
  exists c' l' p',
    load_configuration ini (loud c l p w) =
    (0, loud c' l' p' (with_globals (set_G_CONFIG loaded) w)).
Proof.
  intros Hini. unfold load_configuration.
  destruct (has_separator (strncpy ini (MAX_PATH_LEN - 1))).
  - match goal with |- context [with_globals (set_G_LOG_PATH ?q) (loud c l p w)] =>
      change (with_globals (set_G_LOG_PATH q) (loud c l p w)) with (loud c l q w);
      set (p' := q)
    end.
    change (os_ini (os (loud c l p' w))) with (os_ini (os w)). rewrite Hini.
    change (with_globals (set_G_CONFIG loaded) (loud c l p' w))
      with (loud c l p' (with_globals (set_G_CONFIG loaded) w)).
    rewrite show_message_loud. eexists _, _, _. reflexivity.
  - change (os_ini (os (loud c l p w))) with (os_ini (os w)). rewrite Hini.
    change (with_globals (set_G_CONFIG loaded) (loud c l p w))
      with (loud c l p (with_globals (set_G_CONFIG loaded) w)).
    rewrite show_message_loud. eexists _, _, _. reflexivity.
Qed.

Lemma run_game_process_loud (image : string) (c : list string)
  (l : list (string * string)) (p : string) (w : World) :
  let cmd := snprintf MAX_CMD_LEN (quoted (executable (cfg w))) in
  let dir := if negb (str_empty (directory (cfg w)))
             then Some (directory (cfg w)) else None in
  str_empty (executable (cfg w)) = false ->
  run_as_admin (cfg w) = false ->
  assoc cmd (os_programs (os w)) = Some image ->
  exists c' l',
    run_game_process (loud c l p w) =
    loud c' l' p
      (with_globals (set_G_GAME_PROCESS_INFO (snd (fst (CreateProcessA cmd dir w))))
         (snd (CreateProcessA cmd dir w))).
Proof.
  intros cmd dir Hexe Hadmin Hprogram.
  unfold run_game_process. rewrite show_message_loud.
  match goal with |- context [loud ?c1 ?l1 p w] => set (c' := c1); set (l' := l1) end.
  change (cfg (loud c' l' p w)) with (cfg w). rewrite Hexe, Hadmin.
  fold cmd. fold dir. unfold run_process, CreateProcessA.
  change (os_programs (os (loud c' l' p w))) with (os_programs (os w)).
  rewrite Hprogram. cbn [andb negb fst snd].
  exists c', l'. reflexivity.
Qed.

Lemma cleanup_pid_file_loud (c : list string) (l : list (string * string)) (p : string)
  (w : World) :
  cleanup_pid_file (loud c l p w) = loud c l p (cleanup_pid_file w).
Proof.
  unfold cleanup_pid_file.
  change (G_PID_FILE (globals (loud c l p w))) with (G_PID_FILE (globals w)).
  destruct (str_empty (G_PID_FILE (globals w))); reflexivity.
Qed.

Lemma ensure_cleanup_loud (fuel : nat) (c : list string) (l : list (string * string))
  (p : string) (w : World) :
  G_TASKBAR_WAS_HIDDEN (globals w) = false ->
  tracked w = [] ->
  G_BORDERLESS_PROCESS (globals w) = NULL ->
  exists c' l',
    ensure_cleanup fuel (loud c l p w) =
    Ok (loud c' l' p (cleanup_pid_file (with_globals (set_G_TRACKED_PROCESSES []) w))).
Proof.
  intros Hshown Hempty Hborderless.
  unfold ensure_cleanup. rewrite show_message_loud.
  match goal with |- context [loud ?c1 ?l1 p w] => set (c1' := c1); set (l1' := l1) end.
  change (G_TASKBAR_WAS_HIDDEN (globals (loud c1' l1' p w)))
    with (G_TASKBAR_WAS_HIDDEN (globals w)).
  rewrite Hshown. unfold kill_all_tracked_processes. rewrite show_message_loud.
  match goal with |- context [loud ?c2 ?l2 p w] => set (c2' := c2); set (l2' := l2) end.
  change (tracked (loud c2' l2' p w)) with (tracked w). rewrite Hempty.
  cbn [for_each bind].
  change (with_globals (set_G_TRACKED_PROCESSES []) (loud c2' l2' p w))
    with (loud c2' l2' p (with_globals (set_G_TRACKED_PROCESSES []) w)).
  change (G_BORDERLESS_PROCESS
            (globals (loud c2' l2' p (with_globals (set_G_TRACKED_PROCESSES []) w))))
    with (G_BORDERLESS_PROCESS (globals w)).
  rewrite Hborderless. cbn [N.eqb NULL negb].
  rewrite cleanup_pid_file_loud. exists c2', l2'. reflexivity.
Qed.

Lemma execute_sequence_idle (fuel : nat) (s : string) (is_exit : bool) (w : World) :
  only_separators s = true -> execute_sequence fuel s is_exit w = Ok w.
Proof.
  intros Hsep. rewrite execute_sequence_run_actions, only_separators_no_tokens by exact Hsep.
  reflexivity.
Qed.

Lemma if_loud (b : bool) (c c' : list string) (l l' : list (string * string))
  (p : string) (w : World) :
  (if b then loud c l p w else loud c' l' p w) =
  loud (if b then c else c') (if b then l else l') p w.
Proof. destruct b; reflexivity. Qed.

Ltac settle :=
  repeat first
    [ rewrite show_message_loud
    | match goal with
      | |- context [with_globals ?f (loud ?c ?l ?p ?E)] =>
          change (with_globals f (loud c l p E)) with (loud c l p (with_globals f E))
      end ].

Lemma write_pid_file_fresh (w : World) :
  str_empty (G_PID_FILE (globals w)) = false ->
  assoc (G_PID_FILE (globals w)) (os_files (os w)) = None ->
  mem_string (G_PID_FILE (globals w)) (os_write_denied (os w)) = false ->
  write_pid_file w =
  emit (EvWriteFile (G_PID_FILE (globals w)) (print_lu (os_current_pid (os w))))
    (with_os
       (set_os_files
          ((G_PID_FILE (globals w), print_lu (os_current_pid (os w))) :: os_files (os w)))
       w).
Proof.
  intros Hpath Hnone Hwritable. unfold write_pid_file, write_file.
  rewrite Hpath, Hwritable. destruct w as [g o]. unfold emit, with_os.
  cbn [os globals] in *. rewrite (assoc_absent_filter _ _ Hnone). reflexivity.
Qed.

Lemma WaitForSingleObject_loud (h : HANDLE) (pid : DWORD) (c : list string)
  (l : list (string * string)) (p : string) (w : World) :
  assocN h (os_handles (os w)) = Some pid ->
  WaitForSingleObject h (loud c l p w) =
  loud c l p
    (with_os
       (fun o =>
          set_os_processes
            (filter (fun pe => negb (N.eqb (th32ProcessID pe) pid)) (os_processes o)) o)
       w).
Proof.
  intros Hopen. unfold WaitForSingleObject.
  change (os_handles (os (loud c l p w))) with (os_handles (os w)).
  rewrite Hopen. reflexivity.
Qed.

(** A whole run.  The launcher starts with its variables zeroed, no lock
    file beside the shortcut and a configuration that names a game to run
    without elevation and whose two sequences hold no action; the game can
    be started and its process id and handles are fresh.  Then [main]
    returns 0 after exactly five system calls that change something: it
    writes its id to the lock file, starts the game, and, the game having
    ended, closes the two handles of the game and deletes the lock file.
    Files, running processes, open handles and the taskbar are as they
    were, and the registry is empty. *)
Theorem main_plain_run (fuel : nat) (shortcut image : string)
  (loaded : GameConfiguration) (w : World) :
  let ini := ini_path_of shortcut in
  let lock := pid_file_of (home_dir_of ini) in
  let cmd := snprintf MAX_CMD_LEN (quoted (executable loaded)) in
  let dir := if negb (str_empty (directory loaded)) then Some (directory loaded) else None in
  let id := os_next_id (os w) in
  globals w = initial_globals ->
  assoc lock (os_files (os w)) = None ->
  mem_string lock (os_write_denied (os w)) = false ->
  assoc ini (os_ini (os w)) = Some loaded ->
  only_separators (launch_sequence loaded) = true ->
  only_separators (exit_sequence loaded) = true ->
  str_empty (executable loaded) = false ->
  run_as_admin loaded = false ->
  assoc cmd (os_programs (os w)) = Some image ->
  next_id_fresh w = true ->
  exists w',
    main fuel (Some shortcut) w = Ok (0, w') /\
    trace w' =
      trace w ++
      [EvWriteFile lock (print_lu (os_current_pid (os w)));
       EvCreateProcess cmd dir;
       EvCloseHandle (id + 1)%N;
       EvCloseHandle (id + 2)%N;
       EvDeleteFile lock] /\
    os_files (os w') = os_files (os w) /\
    processes w' = processes w /\
    os_handles (os w') = os_handles (os w) /\
    tracked w' = [] /\
    os_taskbar_visible (os w') = os_taskbar_visible (os w).
Proof.
  intros ini lock cmd dir id Hglobals Hnolock Hwritable Hini Hlaunch Hexit Hexe Hadmin
    Hprogram Hfresh.
  unfold next_id_fresh in Hfresh.
  apply andb_true_iff in Hfresh. destruct Hfresh as [Hfresh Hhandles].
  apply andb_true_iff in Hfresh. destruct Hfresh as [Hprocs _].
  destruct (filter_fresh_processes _ _ Hprocs) as [Hfilter _].
  destruct (filter_fresh_handles _ _ _ Hhandles) as [Hh1 Hh2].
  destruct w as [g o]. cbn [globals] in Hglobals. subst g.
  cbn [os] in *. unfold processes in Hfilter. cbn [os] in Hfilter.
  fold id in Hfilter, Hh1, Hh2.
  unfold main. fold ini.
  rewrite (loud_start o).
  set (c0 := os_console o). set (l0 := os_log o).
  set (E0 := {| globals := initial_globals; os := o |}).
  cbv zeta. settle. rewrite if_loud.
  match goal with |- context [check_instances (loud ?c ?l ?p ?E)] =>
    set (c1 := c); set (l1 := l); set (E1 := E)
  end.
  assert (Hpath1 : G_PID_FILE (globals E1) = lock) by reflexivity.
  rewrite (check_instances_loud c1 l1 EmptyString E1).
  2:{ rewrite Hpath1. apply pid_file_of_not_empty. }
  2:{ rewrite Hpath1. exact Hnolock. }
  2:{ rewrite Hpath1. exact Hwritable. }
  cbn [negb]. settle.
  rewrite (write_pid_file_fresh E1).
  2:{ rewrite Hpath1. apply pid_file_of_not_empty. }
  2:{ rewrite Hpath1. exact Hnolock. }
  2:{ rewrite Hpath1. exact Hwritable. }
  rewrite Hpath1. change (os_current_pid (os E1)) with (os_current_pid o).
  change (os_files (os E1)) with (os_files o).
  match goal with |- context [load_configuration ini (loud c1 l1 EmptyString ?E)] =>
    set (E2 := E)
  end.
  destruct (load_configuration_loud ini loaded c1 l1 EmptyString E2 Hini)
    as [c2 [l2 [p2 Hload]]].
  rewrite Hload. clear Hload. cbn [Nat.eqb negb]. settle.
  match goal with |- context [execute_sequence fuel _ false (loud c2 l2 p2 ?E)] =>
    set (E3 := E)
  end.
  change (cfg (loud c2 l2 p2 E3)) with loaded.
  rewrite (execute_sequence_idle fuel _ false _ Hlaunch). cbn [bind].
  destruct (run_game_process_loud image c2 l2 p2 E3 Hexe Hadmin Hprogram)
    as [c3 [l3 Hgame]].
  rewrite Hgame. clear Hgame.
  change (cfg E3) with loaded. fold cmd. fold dir.
  unfold CreateProcessA. change (os_programs (os E3)) with (os_programs o).
  rewrite Hprogram. cbn [fst snd].
  change (os_next_id (os E3)) with id. change (os_current_pid (os E3)) with (os_current_pid o).
  set (pi := {| hProcess := (id + 1)%N; hThread := (id + 2)%N;
                dwProcessId := id; dwThreadId := (id + 3)%N |}).
  set (pe := {| th32ProcessID := id; th32ParentProcessID := os_current_pid o;
                szExeFile := image |}).
  match goal with |- context [loud c3 l3 p2 ?E] => set (E4 := E) end.
  change (G_GAME_PROCESS_INFO (globals (loud c3 l3 p2 E4))) with pi.
  cbn [hProcess hThread pi].
  destruct (N.eqb_spec (id + 1)%N NULL) as [Hnull|_]; [unfold NULL in Hnull; lia|].
  cbn [negb].
  rewrite (WaitForSingleObject_loud (id + 1)%N id c3 l3 p2 E4).
  2:{ unfold E4. cbn. rewrite N.eqb_refl. reflexivity. }
  repeat match goal with
  | |- context [CloseHandle ?h (loud ?c ?l ?p ?E)] =>
      change (CloseHandle h (loud c l p E)) with (loud c l p (CloseHandle h E))
  end.
  match goal with |- context [loud c3 l3 p2 ?E] => set (E5 := E) end.
  change (cfg (loud c3 l3 p2 E5)) with loaded.
  rewrite (execute_sequence_idle fuel _ true _ Hexit). cbn [bind].
  destruct (ensure_cleanup_loud fuel c3 l3 p2 E5) as [c4 [l4 Hcleanup]];
    [reflexivity | reflexivity | reflexivity |].
  rewrite Hcleanup. clear Hcleanup. cbn [bind]. settle.
  eexists. split; [reflexivity|].
  unfold cleanup_pid_file.
  assert (Hpath5 : G_PID_FILE (globals (with_globals (set_G_TRACKED_PROCESSES []) E5)) = lock)
    by reflexivity.
  rewrite Hpath5.
  assert (Hlock : str_empty lock = false) by apply pid_file_of_not_empty.
  rewrite Hlock.
  split; [|split; [|split; [|split; [|split]]]].
  - match goal with |- trace ?x = _ =>
      change (trace x)
        with (((((os_trace o ++ [EvWriteFile lock (print_lu (os_current_pid o))]) ++
                 [EvCreateProcess cmd dir]) ++ [EvCloseHandle (id + 1)%N]) ++
               [EvCloseHandle (id + 2)%N]) ++ [EvDeleteFile lock])
    end.
    change (trace (loud c0 l0 EmptyString E0)) with (os_trace o).
    rewrite <- !app_assoc. reflexivity.
  - match goal with |- os_files (os ?x) = _ =>
      change (os_files (os x))
        with (filter (fun kv => negb (String.eqb (fst kv) lock))
                ((lock, print_lu (os_current_pid o)) :: os_files o))
    end.
    cbn [filter]. change (fst (lock, print_lu (os_current_pid o))) with lock.
    rewrite String.eqb_refl. cbn [negb]. apply assoc_absent_filter. exact Hnolock.
  - match goal with |- processes ?x = _ =>
      change (processes x)
        with (filter (fun pe' => negb (N.eqb (th32ProcessID pe') id)) (os_processes o ++ [pe]))
    end.
    change (processes (loud c0 l0 EmptyString E0)) with (os_processes o).
    rewrite filter_app, Hfilter. cbn [filter pe th32ProcessID].
    rewrite N.eqb_refl. cbn [negb]. apply app_nil_r.
  - match goal with |- os_handles (os ?x) = _ =>
      change (os_handles (os x))
        with (filter (fun hp => negb (N.eqb (fst hp) (id + 2)))
                (filter (fun hp => negb (N.eqb (fst hp) (id + 1)))
                   (((id + 1)%N, id) :: os_handles o)))
    end.
    cbn [filter]. change (fst ((id + 1)%N, id)) with (id + 1)%N.
    rewrite N.eqb_refl. cbn [negb].
    etransitivity; [apply f_equal; exact Hh1 | exact Hh2].
  - reflexivity.
  - reflexivity.
Qed.

Lemma main_plain_run_witness :
  exists w',
    main 0 (Some doom_shortcut) plain_game = Ok (0, w') /\
    trace w' =
      trace plain_game ++
      [EvWriteFile (pid_file_of (home_dir_of (ini_path_of doom_shortcut)))
         (print_lu (os_current_pid (os plain_game)));
       EvCreateProcess (snprintf MAX_CMD_LEN (quoted (executable plain_config)))
         (if negb (str_empty (directory plain_config))
          then Some (directory plain_config) else None);
       EvCloseHandle (os_next_id (os plain_game) + 1)%N;
       EvCloseHandle (os_next_id (os plain_game) + 2)%N;
       EvDeleteFile (pid_file_of (home_dir_of (ini_path_of doom_shortcut)))] /\
    os_files (os w') = os_files (os plain_game) /\
    processes w' = processes plain_game /\
    os_handles (os w') = os_handles (os plain_game) /\
    tracked w' = [] /\
    os_taskbar_visible (os w') = os_taskbar_visible (os plain_game).
Proof.
  apply (main_plain_run 0 doom_shortcut "doom.exe" plain_config plain_game);
    reflexivity.
Defined.

(** *** A run with elevation *)

Lemma run_game_process_loud_elevated (c : list string) (l : list (string * string))
  (p : string) (w : World) :
  str_empty (executable (cfg w)) = false ->
  run_as_admin (cfg w) = true ->
  os_runas_ok (os w) = true ->
  exists c' l',
    run_game_process (loud c l p w) =
    loud c' l' p
      (with_globals
         (fun g =>
            set_G_GAME_PROCESS_INFO
              {| hProcess := NULL;
                 hThread := hThread (G_GAME_PROCESS_INFO g);
                 dwProcessId := dwProcessId (G_GAME_PROCESS_INFO g);
                 dwThreadId := dwThreadId (G_GAME_PROCESS_INFO g) |} g)
         (snd (ShellExecute_runas (executable (cfg w)) w))).
Proof.
  intros Hexe Hadmin Hrunas.
  unfold run_game_process. rewrite show_message_loud.
  match goal with |- context [loud ?c1 ?l1 p w] => set (c' := c1); set (l' := l1) end.
  change (cfg (loud c' l' p w)) with (cfg w). rewrite Hexe, Hadmin.
  unfold ShellExecute_runas.
  change (os_runas_ok (os (loud c' l' p w))) with (os_runas_ok (os w)).
  rewrite Hrunas. cbn [negb fst snd].
  exists c', l'. reflexivity.
Qed.

(** A run with elevation.  Under the conditions of a plain run, but with
    a game that is started elevated through [ShellExecute], [main] holds
    no handle to the game and does not wait for it: it returns 0 having
    written the lock file, started the game and deleted the lock file, and
    the game is still running, as the one new process. *)
Theorem main_elevated_run (fuel : nat) (shortcut : string)
  (loaded : GameConfiguration) (w : World) :
  let ini := ini_path_of shortcut in
  let lock := pid_file_of (home_dir_of ini) in
  globals w = initial_globals ->
  assoc lock (os_files (os w)) = None ->
  mem_string lock (os_write_denied (os w)) = false ->
  assoc ini (os_ini (os w)) = Some loaded ->
  only_separators (launch_sequence loaded) = true ->
  only_separators (exit_sequence loaded) = true ->
  str_empty (executable loaded) = false ->
  run_as_admin loaded = true ->
  os_runas_ok (os w) = true ->
  exists w',
    main fuel (Some shortcut) w = Ok (0, w') /\
    trace w' =
      trace w ++
      [EvWriteFile lock (print_lu (os_current_pid (os w)));
       EvShellExecute "runas" (executable loaded);
       EvDeleteFile lock] /\
    os_files (os w') = os_files (os w) /\
    processes w' =
      processes w ++
      [entry (os_next_id (os w)) (os_current_pid (os w)) (file_part (executable loaded))] /\
    os_handles (os w') = os_handles (os w) /\
    tracked w' = [].
Proof.
  intros ini lock Hglobals Hnolock Hwritable Hini Hlaunch Hexit Hexe Hadmin Hrunas.
  destruct w as [g o]. cbn [globals] in Hglobals. subst g.
  cbn [os] in *.
  unfold main. fold ini.
  rewrite (loud_start o).
  set (c0 := os_console o). set (l0 := os_log o).
  set (E0 := {| globals := initial_globals; os := o |}).
  cbv zeta. settle. rewrite if_loud.
  match goal with |- context [check_instances (loud ?c ?l ?p ?E)] =>
    set (c1 := c); set (l1 := l); set (E1 := E)
  end.
  assert (Hpath1 : G_PID_FILE (globals E1) = lock) by reflexivity.
  rewrite (check_instances_loud c1 l1 EmptyString E1).
  2:{ rewrite Hpath1. apply pid_file_of_not_empty. }
  2:{ rewrite Hpath1. exact Hnolock. }
  2:{ rewrite Hpath1. exact Hwritable. }
  cbn [negb]. settle.
  rewrite (write_pid_file_fresh E1).
  2:{ rewrite Hpath1. apply pid_file_of_not_empty. }
  2:{ rewrite Hpath1. exact Hnolock. }
  2:{ rewrite Hpath1. exact Hwritable. }
  rewrite Hpath1. change (os_current_pid (os E1)) with (os_current_pid o).
  change (os_files (os E1)) with (os_files o).
  match goal with |- context [load_configuration ini (loud c1 l1 EmptyString ?E)] =>
    set (E2 := E)
  end.
  destruct (load_configuration_loud ini loaded c1 l1 EmptyString E2 Hini)
    as [c2 [l2 [p2 Hload]]].
  rewrite Hload. clear Hload. cbn [Nat.eqb negb]. settle.
  match goal with |- context [execute_sequence fuel _ false (loud c2 l2 p2 ?E)] =>
    set (E3 := E)
  end.
  change (cfg (loud c2 l2 p2 E3)) with loaded.
  rewrite (execute_sequence_idle fuel _ false _ Hlaunch). cbn [bind].
  destruct (run_game_process_loud_elevated c2 l2 p2 E3 Hexe Hadmin Hrunas)
    as [c3 [l3 Hgame]].
  rewrite Hgame. clear Hgame.
  change (cfg E3) with loaded.
  unfold ShellExecute_runas. change (os_runas_ok (os E3)) with (os_runas_ok o).
  rewrite Hrunas. cbn [fst snd].
  match goal with |- context [loud c3 l3 p2 ?E] => set (E4 := E) end.
  change (hProcess (G_GAME_PROCESS_INFO (globals (loud c3 l3 p2 E4)))) with NULL.
  cbn [N.eqb NULL negb].
  change (cfg (loud c3 l3 p2 E4)) with loaded.
  rewrite (execute_sequence_idle fuel _ true _ Hexit). cbn [bind].
  destruct (ensure_cleanup_loud fuel c3 l3 p2 E4) as [c4 [l4 Hcleanup]];
    [reflexivity | reflexivity | reflexivity |].
  rewrite Hcleanup. clear Hcleanup. cbn [bind]. settle.
  eexists. split; [reflexivity|].
  unfold cleanup_pid_file.
  assert (Hpath4 : G_PID_FILE (globals (with_globals (set_G_TRACKED_PROCESSES []) E4)) = lock)
    by reflexivity.
  rewrite Hpath4.
  assert (Hlock : str_empty lock = false) by apply pid_file_of_not_empty.
  rewrite Hlock.
  split; [|split; [|split; [|split]]].
  - match goal with |- trace ?x = _ =>
      change (trace x)
        with (((os_trace o ++ [EvWriteFile lock (print_lu (os_current_pid o))]) ++
               [EvShellExecute "runas" (executable loaded)]) ++ [EvDeleteFile lock])
    end.
    change (trace (loud c0 l0 EmptyString E0)) with (os_trace o).
    rewrite <- !app_assoc. reflexivity.
  - match goal with |- os_files (os ?x) = _ =>
      change (os_files (os x))
        with (filter (fun kv => negb (String.eqb (fst kv) lock))
                ((lock, print_lu (os_current_pid o)) :: os_files o))
    end.
    cbn [filter]. change (fst (lock, print_lu (os_current_pid o))) with lock.
    rewrite String.eqb_refl. cbn [negb]. apply assoc_absent_filter. exact Hnolock.
  - reflexivity.
  - reflexivity.
  - reflexivity.
Qed.

Lemma main_elevated_run_witness :
  exists w',
    main 0 (Some doom_shortcut) elevated_game = Ok (0, w') /\
    trace w' =
      trace elevated_game ++
      [EvWriteFile (pid_file_of (home_dir_of (ini_path_of doom_shortcut)))
         (print_lu (os_current_pid (os elevated_game)));
       EvShellExecute "runas" (executable elevated_config);
       EvDeleteFile (pid_file_of (home_dir_of (ini_path_of doom_shortcut)))] /\
    os_files (os w') = os_files (os elevated_game) /\
    processes w' =
      processes elevated_game ++
      [entry (os_next_id (os elevated_game)) (os_current_pid (os elevated_game))
         (file_part (executable elevated_config))] /\
    os_handles (os w') = os_handles (os elevated_game) /\
    tracked w' = [].
Proof.
  apply (main_elevated_run 0 doom_shortcut elevated_config elevated_game); reflexivity.
Defined.

(** *** The tray commands *)

Lemma closed_terminations (killed : list DWORD) :
  closed (map EvTerminateProcess killed) = [].
Proof. induction killed as [|k killed IH]; [reflexivity | exact IH]. Qed.

(** "Stop Game".  With an exit sequence that holds no action and a game
    the launcher has a handle of, [tray_stop_game] terminates the game and
    everything below it that [OpenProcess] gives a handle of, and nothing
    else; it closes the two handles and forgets the game; a second "Stop
    Game" then changes nothing but the log.  Snapshots can be taken,
    process ids are distinct, no process has more than 256 children and
    the tree of the game has a depth within the budget. *)
Theorem tray_stop_game_stops_tree (h : DWORD -> nat) (fuel : nat) (w : World) :
  only_separators (exit_sequence (cfg w)) = true ->
  N.eqb (hProcess (G_GAME_PROCESS_INFO (globals w))) NULL = false ->
  os_snapshot_ok (os w) = true ->
  distinct (pids (processes w)) = true ->
  tree_below h (processes w) = true ->
  fan_out_bounded (processes w) = true ->
  0 < h (dwProcessId (G_GAME_PROCESS_INFO (globals w))) ->
  h (dwProcessId (G_GAME_PROCESS_INFO (globals w))) <= fuel ->
  exists w',
    tray_stop_game fuel w = Ok w' /\
    (forall pe, In pe (processes w') <->
       In pe (processes w) /\
       (~ descends (processes w) (dwProcessId (G_GAME_PROCESS_INFO (globals w)))
            (th32ProcessID pe) \/
        can_terminate (th32ProcessID pe) w = false)) /\
    G_GAME_PROCESS_INFO (globals w') = zero_pi /\
    closed (trace w') =
      closed (trace w) ++
      [hProcess (G_GAME_PROCESS_INFO (globals w)); hThread (G_GAME_PROCESS_INFO (globals w))] /\
    forall fuel2, exists w2, tray_stop_game fuel2 w' = Ok w2 /\ silent w2 = silent w'.
Proof.
  intros Hexit Hgame Hok Hdistinct Htree Hfan Hpos Hfuel.
  assert (Hshape : snapshot_tree h w) by (apply snapshot_tree_of_checks; assumption).
  unfold tray_stop_game. cbv zeta.
  set (w0 := log_message "INFO" "Stop requested from tray menu" w).
  assert (Hsilent0 : silent w0 = silent w) by apply silent_log_message.
  destruct (silent_eq_fields _ _ Hsilent0)
    as [Hg0 [Hp0 [Ht0 [_ [_ [_ [_ [_ [_ [_ [_ [_ Hd0]]]]]]]]]]]].
  assert (Hopen0 : forall x, can_terminate x w0 = can_terminate x w).
  { intros x. unfold can_terminate. rewrite Hd0. reflexivity. }
  unfold cfg. rewrite Hg0. fold (cfg w).
  rewrite (execute_sequence_idle fuel _ true w0 Hexit). cbn [bind].
  rewrite Hg0, Hgame. cbn [negb].
  destruct (terminate_process_tree_whole h fuel
              (dwProcessId (G_GAME_PROCESS_INFO (globals w))) w0)
    as [killed [Hrun Hkilled]]; try assumption.
  { exact (snapshot_tree_silent h w _ Hsilent0 Hshape). }
  { rewrite Hp0. exact Hfan. }
  rewrite Hrun. cbn [bind]. rewrite globals_after_kills, Hg0.
  set (info := G_GAME_PROCESS_INFO (globals w)) in *.
  set (w1 := with_globals (set_G_GAME_PROCESS_INFO zero_pi)
               (CloseHandle (hThread info) (CloseHandle (hProcess info)
                  (after_kills killed w0)))).
  set (w' := log_message "INFO" "Game process terminated" w1).
  assert (Hsilent' : silent w' = silent w1) by apply silent_log_message.
  destruct (silent_eq_fields _ _ Hsilent') as [Hg' [Hp' [Ht' _]]].
  exists w'. split; [reflexivity|]. split; [|split; [|split]].
  - intros pe. rewrite Hp'.
    change (processes w1) with (processes (after_kills killed w0)).
    rewrite processes_after_kills, filter_In, survives_In, Hp0. split.
    + intros [Hpe Hnot]. split; [exact Hpe|].
      destruct (can_terminate (th32ProcessID pe) w) eqn:Hcan; [left|right; reflexivity].
      intros Hdesc. apply Hnot.
      apply Hkilled. rewrite Hp0, Hopen0.
      split; [apply in_map; exact Hpe|]. split; assumption.
    + intros [Hpe Hleft]. split; [exact Hpe|]. intros Hin.
      apply Hkilled in Hin. rewrite Hp0, Hopen0 in Hin. destruct Hin as [_ [Hdesc Hcan]].
      destruct Hleft as [Hnot|Hrefused]; [contradiction | congruence].
  - rewrite Hg'. reflexivity.
  - rewrite Ht'.
    change (trace w1)
      with ((trace (after_kills killed w0) ++ [EvCloseHandle (hProcess info)]) ++
            [EvCloseHandle (hThread info)]).
    rewrite trace_after_kills, Ht0, !closed_app, closed_terminations.
    cbn [closed app]. rewrite app_nil_r, <- app_assoc. reflexivity.
  - intros fuel2. unfold tray_stop_game. cbv zeta.
    set (w2 := log_message "INFO" "Stop requested from tray menu" w').
    assert (Hsilent2 : silent w2 = silent w') by apply silent_log_message.
    destruct (silent_eq_fields _ _ Hsilent2) as [Hg2 _].
    assert (Hcfg2 : cfg w2 = cfg w).
    { unfold cfg. rewrite Hg2, Hg'.
      change (G_CONFIG (globals w1)) with (G_CONFIG (globals (after_kills killed w0))).
      rewrite globals_after_kills, Hg0. reflexivity. }
    unfold cfg in Hcfg2. rewrite Hcfg2. fold (cfg w).
    rewrite (execute_sequence_idle fuel2 _ true w2 Hexit). cbn [bind].
    rewrite Hg2, Hg'. cbn [negb N.eqb NULL].
    exists w2. split; [reflexivity | exact Hsilent2].
Qed.

Lemma tray_stop_game_stops_tree_witness :
  exists w',
    tray_stop_game 3 guarded_game = Ok w' /\
    (forall pe, In pe (processes w') <->
       In pe (processes guarded_game) /\
       (~ descends (processes guarded_game)
            (dwProcessId (G_GAME_PROCESS_INFO (globals guarded_game)))
            (th32ProcessID pe) \/
        can_terminate (th32ProcessID pe) guarded_game = false)) /\
    G_GAME_PROCESS_INFO (globals w') = zero_pi /\
    closed (trace w') =
      closed (trace guarded_game) ++
      [hProcess (G_GAME_PROCESS_INFO (globals guarded_game));
       hThread (G_GAME_PROCESS_INFO (globals guarded_game))] /\
    forall fuel2, exists w2, tray_stop_game fuel2 w' = Ok w2 /\ silent w2 = silent w'.
Proof.
  apply (tray_stop_game_stops_tree synthetic_height 3 guarded_game);
    try reflexivity; vm_compute; lia.
Defined.

Lemma loud_eta (w : World) :
  w = loud (console w) (os_log (os w)) (G_LOG_PATH (globals w)) w.
Proof. destruct w as [g o]. destruct g, o. reflexivity. Qed.

Lemma log_message_loud (m : string) (c : list string) (l : list (string * string))
  (p : string) (w : World) :
  log_message "INFO" m (loud c l p w) = loud c (logged p m l w) p w.
Proof.
  destruct w as [g o]. destruct o.
  unfold log_message, logged, loud. cbn -[mem_string str_empty].
  destruct (str_empty p); [reflexivity|].
  destruct (mem_string p _); reflexivity.
Qed.

Lemma TerminateProcess_loud (hd : HANDLE) (pid : DWORD) (c : list string)
  (l : list (string * string)) (p : string) (w : World) :
  assocN hd (os_handles (os w)) = Some pid ->
  TerminateProcess hd (loud c l p w) = loud c l p (terminate_pid pid w).
Proof.
  intros Hopen. unfold TerminateProcess.
  change (os_handles (os (loud c l p w))) with (os_handles (os w)). rewrite Hopen.
  unfold terminate_pid.
  change (pid_running pid (loud c l p w)) with (pid_running pid w).
  destruct (pid_running pid w); reflexivity.
Qed.

Lemma processes_terminate_pid (pid : DWORD) (w : World) :
  processes (terminate_pid pid w) =
  filter (fun pe => negb (N.eqb (th32ProcessID pe) pid)) (processes w).
Proof.
  unfold terminate_pid. destruct (pid_running pid w) eqn:Hrunning; [reflexivity|].
  unfold pid_running in Hrunning. symmetry.
  induction (processes w) as [|pe l IH]; [reflexivity|].
  cbn [existsb] in Hrunning. apply orb_false_elim in Hrunning.
  destruct Hrunning as [Hpe Hl]. cbn [filter]. rewrite Hpe. cbn [negb].
  rewrite IH by exact Hl. reflexivity.
Qed.

Lemma with_globals_loud (f : Globals -> Globals) (c : list string)
  (l : list (string * string)) (p : string) (w : World) :
  (forall g q, f (set_G_LOG_PATH q g) = set_G_LOG_PATH q (f g)) ->
  with_globals f (loud c l p w) = loud c l p (with_globals f w).
Proof.
  intros Hf. unfold loud, with_globals. cbn [globals os]. rewrite Hf. reflexivity.
Qed.

Lemma CloseHandle_loud (hd : HANDLE) (c : list string) (l : list (string * string))
  (p : string) (w : World) :
  CloseHandle hd (loud c l p w) = loud c l p (CloseHandle hd w).
Proof. reflexivity. Qed.

Lemma globals_loud (c : list string) (l : list (string * string)) (p : string)
  (w : World) :
  globals (loud c l p w) = set_G_LOG_PATH p (globals w).
Proof. reflexivity. Qed.

Lemma globals_terminate_pid (pid : DWORD) (w : World) :
  globals (terminate_pid pid w) = globals w.
Proof. unfold terminate_pid. destruct (pid_running pid w); reflexivity. Qed.

Lemma globals_cleanup_pid_file (w : World) :
  globals (cleanup_pid_file w) = globals w.
Proof. unfold cleanup_pid_file. destruct (str_empty _); reflexivity. Qed.

Lemma processes_cleanup_pid_file (w : World) :
  processes (cleanup_pid_file w) = processes w.
Proof. unfold cleanup_pid_file. destruct (str_empty _); reflexivity. Qed.

Lemma os_files_terminate_pid (pid : DWORD) (w : World) :
  os_files (os (terminate_pid pid w)) = os_files (os w).
Proof. unfold terminate_pid. destruct (pid_running pid w); reflexivity. Qed.

(** "Kill All Processes".  With a game the launcher has an open handle of,
    no kill list, an empty registry and an empty exit sequence,
    [tray_kill_all] ends the launcher after terminating one process, the
    game itself: the processes below the game keep running.  The lock
    file is deleted on the way. *)
Theorem tray_kill_all_spares_children (fuel : nat) (pid : DWORD) (w : World) :
  N.eqb (hProcess (G_GAME_PROCESS_INFO (globals w))) NULL = false ->
  assocN (hProcess (G_GAME_PROCESS_INFO (globals w))) (os_handles (os w)) = Some pid ->
  use_kill_list (cfg w) = false ->
  exit_sequence (cfg w) = EmptyString ->
  tracked w = [] ->
  G_TASKBAR_WAS_HIDDEN (globals w) = false ->
  G_BORDERLESS_PROCESS (globals w) = NULL ->
  exists w',
    tray_kill_all fuel w = Ok w' /\
    processes w' = filter (fun pe => negb (N.eqb (th32ProcessID pe) pid)) (processes w) /\
    os_files (os w') = os_files (os (cleanup_pid_file w)) /\
    tracked w' = [] /\
    exists t, trace w' = t ++ [EvExitProcess 0].
Proof.
  intros Hgame Hopen Huse Hexit Hempty Hshown Hborderless.
  rewrite (f_equal (tray_kill_all fuel) (loud_eta w)).
  set (c0 := console w). set (l0 := os_log (os w)). set (p0 := G_LOG_PATH (globals w)).
  unfold tray_kill_all. cbv zeta.
  rewrite !log_message_loud.
  match goal with |- context [loud c0 ?l p0 w] => set (l1 := l) end.
  rewrite !globals_loud.
  change (G_GAME_PROCESS_INFO (set_G_LOG_PATH p0 (globals w)))
    with (G_GAME_PROCESS_INFO (globals w)).
  rewrite Hgame. cbn [negb].
  rewrite (TerminateProcess_loud _ pid c0 l1 p0 w Hopen).
  set (K := terminate_pid pid w).
  assert (HgK : globals K = globals w) by apply globals_terminate_pid.
  rewrite !CloseHandle_loud.
  rewrite with_globals_loud by reflexivity.
  rewrite log_message_loud.
  match goal with |- context [action_kill_process_list fuel (loud c0 ?l p0 ?E)] =>
    set (l2 := l); set (E2 := E)
  end.
  assert (Hg2 : set_G_GAME_PROCESS_INFO zero_pi (globals w) = globals E2).
  { change (globals E2) with (set_G_GAME_PROCESS_INFO zero_pi (globals K)).
    rewrite HgK. reflexivity. }
  unfold action_kill_process_list, cfg.
  rewrite globals_loud, <- Hg2.
  change (G_CONFIG (set_G_LOG_PATH p0 (set_G_GAME_PROCESS_INFO zero_pi (globals w))))
    with (cfg w).
  rewrite Huse. cbn [negb orb bind].
  destruct (ensure_cleanup_loud fuel c0 l2 p0 E2) as [c3 [l3 Hcleanup]].
  { rewrite <- Hg2. exact Hshown. }
  { unfold tracked. rewrite <- Hg2. exact Hempty. }
  { rewrite <- Hg2. exact Hborderless. }
  rewrite Hcleanup. clear Hcleanup. cbn [bind].
  match goal with |- context [tray_exit_launcher fuel ?x] => set (w3 := x) end.
  assert (Hg3 : globals w3 =
                set_G_LOG_PATH p0 (set_G_TRACKED_PROCESSES []
                  (set_G_GAME_PROCESS_INFO zero_pi (globals w)))).
  { change (globals w3)
      with (set_G_LOG_PATH p0
              (globals (cleanup_pid_file (with_globals (set_G_TRACKED_PROCESSES []) E2)))).
    rewrite globals_cleanup_pid_file.
    change (globals (with_globals (set_G_TRACKED_PROCESSES []) E2))
      with (set_G_TRACKED_PROCESSES [] (globals E2)).
    rewrite <- Hg2. reflexivity. }
  destruct (tray_exit_launcher_skips_cleanup fuel w3)
    as [w' [Hrun [Hlast [Hfiles [Htracked [Hprocs _]]]]]].
  { unfold cfg. rewrite Hg3. exact Hexit. }
  { rewrite Hg3. reflexivity. }
  exists w'. split; [exact Hrun|]. split; [|split; [|split]].
  - rewrite Hprocs.
    change (processes w3)
      with (processes (cleanup_pid_file (with_globals (set_G_TRACKED_PROCESSES []) E2))).
    rewrite processes_cleanup_pid_file.
    change (processes (with_globals (set_G_TRACKED_PROCESSES []) E2)) with (processes K).
    apply processes_terminate_pid.
  - rewrite Hfiles.
    change (os_files (os w3))
      with (os_files (os (cleanup_pid_file (with_globals (set_G_TRACKED_PROCESSES []) E2)))).
    unfold cleanup_pid_file.
    change (G_PID_FILE (globals (with_globals (set_G_TRACKED_PROCESSES []) E2)))
      with (G_PID_FILE (set_G_GAME_PROCESS_INFO zero_pi (globals K))).
    rewrite HgK.
    change (G_PID_FILE (set_G_GAME_PROCESS_INFO zero_pi (globals w)))
      with (G_PID_FILE (globals w)).
    destruct (str_empty (G_PID_FILE (globals w))).
    + change (os_files (os (with_globals (set_G_TRACKED_PROCESSES []) E2)))
        with (os_files (os K)).
      apply os_files_terminate_pid.
    + match goal with |- os_files (os ?x) = _ =>
        change (os_files (os x))
          with (filter (fun kv => negb (String.eqb (fst kv) (G_PID_FILE (globals w))))
                  (os_files (os K)))
      end.
      unfold K. rewrite os_files_terminate_pid. reflexivity.
  - rewrite Htracked. unfold tracked. rewrite Hg3. reflexivity.
  - exact Hlast.
Qed.

Lemma tray_kill_all_spares_children_witness :
  exists w',
    tray_kill_all 0 game_running = Ok w' /\
    processes w' =
      filter (fun pe => negb (N.eqb (th32ProcessID pe) 10%N)) (processes game_running) /\
    os_files (os w') = os_files (os (cleanup_pid_file game_running)) /\
    tracked w' = [] /\
    exists t, trace w' = t ++ [EvExitProcess 0].
Proof.
  apply (tray_kill_all_spares_children 0 10%N game_running); reflexivity.
Defined.

(** *** Cleanup and the taskbar: edges *)

(** [ensure_cleanup] and a borderless windowing tool.  With an empty
    registry and a taskbar that was not hidden, [ensure_cleanup] closes
    the handle of the borderless tool and forgets it, and terminates no
    process: the tool keeps running. *)
Theorem ensure_cleanup_leaves_borderless_running (fuel : nat) (w : World) :
  tracked w = [] ->
  G_TASKBAR_WAS_HIDDEN (globals w) = false ->
  N.eqb (G_BORDERLESS_PROCESS (globals w)) NULL = false ->
  exists w',
    ensure_cleanup fuel w = Ok w' /\
    processes w' = processes w /\
    terminated (trace w') = terminated (trace w) /\
    closed (trace w') = closed (trace w) ++ [G_BORDERLESS_PROCESS (globals w)] /\
    G_BORDERLESS_PROCESS (globals w') = NULL /\
    tracked w' = [].
Proof.
  intros Hempty Hshown Hborderless.
  rewrite (f_equal (ensure_cleanup fuel) (loud_eta w)).
  set (c0 := console w). set (l0 := os_log (os w)). set (p0 := G_LOG_PATH (globals w)).
  unfold ensure_cleanup. rewrite show_message_loud.
  match goal with |- context [loud ?c ?l p0 w] => set (c1 := c); set (l1 := l) end.
  rewrite globals_loud.
  change (G_TASKBAR_WAS_HIDDEN (set_G_LOG_PATH p0 (globals w)))
    with (G_TASKBAR_WAS_HIDDEN (globals w)).
  rewrite Hshown. unfold kill_all_tracked_processes. rewrite show_message_loud.
  match goal with |- context [loud ?c ?l p0 w] => set (c2 := c); set (l2 := l) end.
  change (tracked (loud c2 l2 p0 w)) with (tracked w). rewrite Hempty.
  cbn [for_each bind].
  rewrite with_globals_loud by reflexivity. rewrite globals_loud.
  change (G_BORDERLESS_PROCESS
            (set_G_LOG_PATH p0 (globals (with_globals (set_G_TRACKED_PROCESSES []) w))))
    with (G_BORDERLESS_PROCESS (globals w)).
  rewrite Hborderless. cbn [negb].
  rewrite CloseHandle_loud, with_globals_loud by reflexivity.
  rewrite cleanup_pid_file_loud.
  match goal with |- context [loud c2 l2 p0 (cleanup_pid_file ?x)] => set (E := x) end.
  exists (loud c2 l2 p0 (cleanup_pid_file E)). split; [reflexivity|].
  assert (Htrace : trace (cleanup_pid_file E) =
                   (trace w ++ [EvCloseHandle (G_BORDERLESS_PROCESS (globals w))]) ++
                   (if str_empty (G_PID_FILE (globals w)) then []
                    else [EvDeleteFile (G_PID_FILE (globals w))])).
  { unfold cleanup_pid_file.
    change (G_PID_FILE (globals E)) with (G_PID_FILE (globals w)).
    destruct (str_empty (G_PID_FILE (globals w))); [symmetry; apply app_nil_r | reflexivity]. }
  split; [|split; [|split; [|split]]].
  - change (processes (loud c2 l2 p0 (cleanup_pid_file E)))
      with (processes (cleanup_pid_file E)).
    rewrite processes_cleanup_pid_file. reflexivity.
  - change (trace (loud c2 l2 p0 (cleanup_pid_file E))) with (trace (cleanup_pid_file E)).
    rewrite Htrace, !terminated_app.
    destruct (str_empty (G_PID_FILE (globals w))); cbn [terminated]; rewrite !app_nil_r;
      reflexivity.
  - change (trace (loud c2 l2 p0 (cleanup_pid_file E))) with (trace (cleanup_pid_file E)).
    rewrite Htrace, !closed_app.
    destruct (str_empty (G_PID_FILE (globals w))); cbn [closed]; rewrite !app_nil_r;
      reflexivity.
  - rewrite globals_loud, globals_cleanup_pid_file. reflexivity.
  - unfold tracked. rewrite globals_loud, globals_cleanup_pid_file. reflexivity.
Qed.

(** A taskbar that is not found.  When there is no taskbar window, or
    the handle cached in [G_TASKBAR_HWND] is not the handle of the taskbar,
    [set_taskbar_visibility] leaves the taskbar as it is; without a cached
    handle it makes no call at all and records nothing, but with a stale
    handle a request to hide is recorded as done. *)
Theorem set_taskbar_visibility_not_found (show : bool) (w : World) :
  taskbar_found w = false ->
  os_taskbar_visible (os (set_taskbar_visibility show w)) = os_taskbar_visible (os w) /\
  (N.eqb (G_TASKBAR_HWND (globals w)) NULL = true ->
   trace (set_taskbar_visibility show w) = trace w /\
   G_TASKBAR_WAS_HIDDEN (globals (set_taskbar_visibility show w)) =
     G_TASKBAR_WAS_HIDDEN (globals w)) /\
  (N.eqb (G_TASKBAR_HWND (globals w)) NULL = false -> show = false ->
   G_TASKBAR_WAS_HIDDEN (globals (set_taskbar_visibility show w)) = true).
Proof.
  unfold taskbar_found, set_taskbar_visibility. intros Hfound.
  destruct (N.eqb (G_TASKBAR_HWND (globals w)) NULL) eqn:Hcached.
  - cbn [orb] in Hfound. rewrite andb_true_r in Hfound. apply negb_false_iff in Hfound.
    cbn [globals with_globals G_TASKBAR_HWND set_G_TASKBAR_HWND]. rewrite Hfound.
    split; [reflexivity|]. split; [intros _; split; reflexivity | discriminate].
  - cbn [orb] in Hfound. rewrite Hcached. unfold ShowWindow.
    assert (Hstale : N.eqb (G_TASKBAR_HWND (globals w)) (os_shell_traywnd (os w)) = false).
    { destruct (N.eqb_spec (os_shell_traywnd (os w)) NULL) as [Hnone|Hsome].
      - rewrite Hnone. exact Hcached.
      - destruct (N.eqb (os_shell_traywnd (os w)) NULL) eqn:Hshell.
        + apply N.eqb_eq in Hshell. contradiction.
        + cbn [negb andb] in Hfound. exact Hfound. }
    rewrite Hstale. split; [destruct show; reflexivity|].
    split; [discriminate|]. intros _ ->. reflexivity.
Qed.

Lemma ensure_cleanup_leaves_borderless_running_witness :
  exists w',
    ensure_cleanup 0 borderless_open = Ok w' /\
    processes w' = processes borderless_open /\
    terminated (trace w') = terminated (trace borderless_open) /\
    closed (trace w') =
      closed (trace borderless_open) ++ [G_BORDERLESS_PROCESS (globals borderless_open)] /\
    G_BORDERLESS_PROCESS (globals w') = NULL /\
    tracked w' = [].
Proof.
  apply (ensure_cleanup_leaves_borderless_running 0 borderless_open); reflexivity.
Defined.

Lemma set_taskbar_visibility_not_found_witness :
  os_taskbar_visible (os (set_taskbar_visibility false stale_taskbar)) =
    os_taskbar_visible (os stale_taskbar) /\
  G_TASKBAR_WAS_HIDDEN (globals (set_taskbar_visibility false stale_taskbar)) = true.
Proof.
  destruct (set_taskbar_visibility_not_found false stale_taskbar eq_refl)
    as [Hvisible [_ Hrecorded]].
  split; [exact Hvisible | apply Hrecorded; reflexivity].
Defined.
